(** * Restaurant back end: bills, order status, inventory and the bill reaper

    A shallow embedding of the route handlers of [src/routes/billpage.ts],
    of the order routes and of [src/cron/deleteExpiredBills.ts], together
    with the properties the specification states about them and further
    properties of the same routes. *)

From Stdlib Require Import ZArith QArith Qround Qpower Qabs Lia Lqa List Bool Ascii String
  Floats.
From stdpp Require Import gmap strings pretty.

Local Open Scope Z_scope.
Local Open Scope Q_scope.

(** Decimal literals of numbers stand for the nearest double, as in
    JavaScript. *)
#[local] Set Warnings "-inexact-float".

(** ** decimal.js, as the routes configure it (they do not: the defaults) *)

(** A [Decimal] value is a finite decimal number; it is represented by the
    rational it denotes.  The constructor [new Decimal(v)] reads the decimal
    string of the number [v] without rounding, so a JavaScript number that
    enters the arithmetic (a price, a quantity, a rate) is represented by
    the decimal it prints as.  Every arithmetic method ([mul], [div],
    [plus]) returns its exact result rounded to [precision] significant
    digits with the rounding mode [ROUND_HALF_UP] (nearest, ties away from
    zero); these are the library defaults, [precision = 20] and
    [rounding = 4], and no route changes them.  The exponent limits of the
    library (beyond [1e9000000000000000]) are out of reach of sums and
    products of numbers and are left out. *)
Module Decimal.

Definition t := Q.

Definition precision : Z := 20.

Definition pow10 (k : Z) : Q := (10 # 1) ^ k.

(** Nearest multiple of [10^-dp] of a non-negative [x], ties upwards. *)
Definition roundPos (x : Q) (dp : Z) : Q :=
  inject_Z (Qfloor (x * pow10 dp + (1 # 2))) * pow10 (- dp).

(** [ROUND_HALF_UP] at [dp] decimal places: ties go away from zero. *)
Definition roundHalfUp (x : Q) (dp : Z) : Q :=
  if Qle_bool 0 x then roundPos x dp else - roundPos (- x) dp.

(** Number of decimal digits of a positive integer. *)
Fixpoint digits10_aux (fuel : nat) (n : Z) : Z :=
  match fuel with
  | O => 1
  | S f => if (n <? 10)%Z then 1%Z else (1 + digits10_aux f (n / 10))%Z
  end.

Definition digits10 (p : positive) : Z :=
  digits10_aux (Pos.size_nat p) (Zpos p).

(** The decimal exponent [e] of a positive rational:
    [10^e <= n/d < 10^(e+1)]. *)
Definition exponentPos (n d : positive) : Z :=
  let e0 := (digits10 n - digits10 d)%Z in
  if Qle_bool (pow10 e0) (Zpos n # d) then e0 else (e0 - 1)%Z.

Definition exponent (x : Q) : Z :=
  match Qnum x with
  | Z0 => 0%Z
  | Zpos n => exponentPos n (Qden x)
  | Zneg n => exponentPos n (Qden x)
  end.

(** [finalise(x, sd, rm)]: round [x] to [sd] significant digits. *)
Definition finalise (x : Q) (sd : Z) : Q :=
  roundHalfUp x (sd - 1 - exponent x).

Definition mul (x y : t) : t := finalise (x * y) precision.
Definition div (x y : t) : t := finalise (x / y) precision.
Definition plus (x y : t) : t := finalise (x + y) precision.

(** [toDecimalPlaces(dp)] with the rounding mode left at its default. *)
Definition toDecimalPlaces (x : t) (dp : Z) : t := roundHalfUp x dp.

(** [toNumber()]: the JavaScript number nearest to the decimal.  Numbers
    being represented by the decimal they print as, the conversion keeps
    the value of a decimal of up to 15 significant digits, which prints as
    itself: for the two-decimal amounts of the routes, those below [10^13]
    in absolute value ([numberKeeps] below).  A larger amount comes back as
    a double that no longer has its two decimals; a property that states
    the value of an amount carries the bound. *)
Definition toNumber (x : t) : Q := x.

End Decimal.

(** ** Entities, as the routes read and write them *)

Module OrderItem.
Record t := mk {
  productId : option Z;
  name : string;
  price : Q;
  quantity : Z;
  status : string
}.

Definition setStatus (s : string) (i : t) : t :=
  mk (productId i) (name i) (price i) (quantity i) s.
End OrderItem.

Module Order.
Record t := mk {
  id : Z;
  businessId : Z;
  status : string;
  totalAmount : Q;
  items : list OrderItem.t
}.

Definition setStatus (s : string) (o : t) : t :=
  mk (id o) (businessId o) s (totalAmount o) (items o).
Definition setTotalAmount (a : Q) (o : t) : t :=
  mk (id o) (businessId o) (status o) a (items o).
Definition setItems (l : list OrderItem.t) (o : t) : t :=
  mk (id o) (businessId o) (status o) (totalAmount o) l.
End Order.

(** The four rates, each [number | null | undefined]: [None] stands for
    [null] and for an absent field. *)
Record TaxRates := mkTaxRates {
  vatLow : option Q;
  vatHigh : option Q;
  serviceTax : option Q;
  serviceCharge : option Q
}.

Module Bill.
Record t := mk {
  id : Z;
  orderId : Z;
  businessId : Z;
  totalAmount : Q;
  rates : TaxRates;
  billStoreLink : option string;
  billStorePublicId : option string;
  modifiedBillStoreLink : option string;
  modifiedBillStorePublicId : option string;
  expiresAt : option Z
}.

Definition setTotalAmount (a : Q) (b : t) : t :=
  mk (id b) (orderId b) (businessId b) a (rates b) (billStoreLink b)
     (billStorePublicId b) (modifiedBillStoreLink b)
     (modifiedBillStorePublicId b) (expiresAt b).
Definition setRates (r : TaxRates) (b : t) : t :=
  mk (id b) (orderId b) (businessId b) (totalAmount b) r (billStoreLink b)
     (billStorePublicId b) (modifiedBillStoreLink b)
     (modifiedBillStorePublicId b) (expiresAt b).
Definition setLinks (l ml : option string) (b : t) : t :=
  mk (id b) (orderId b) (businessId b) (totalAmount b) (rates b) l
     (billStorePublicId b) ml (modifiedBillStorePublicId b) (expiresAt b).
Definition setStore (l p : option string) (e : option Z) (b : t) : t :=
  mk (id b) (orderId b) (businessId b) (totalAmount b) (rates b) l p
     (modifiedBillStoreLink b) (modifiedBillStorePublicId b) e.
Definition setModifiedStore (l p : option string) (e : option Z) (b : t) : t :=
  mk (id b) (orderId b) (businessId b) (totalAmount b) (rates b)
     (billStoreLink b) (billStorePublicId b) l p e.
End Bill.

(** ** [billpage.ts]: the tax and total calculator *)

(** [round]: rounding to 2 decimals, as a number. *)
Definition round (val : Decimal.t) : Q :=
  Decimal.toNumber (Decimal.toDecimalPlaces val 2).

(** One branch [taxRates.r ? baseAmount.mul(taxRates.r).div(100) : new Decimal(0)].
    The test is JavaScript truthiness: [null], [undefined] and [0] are falsy. *)
Definition taxAmount (baseAmount : Decimal.t) (rate : option Q) : Decimal.t :=
  match rate with
  | Some r =>
      if Qeq_bool r 0 then 0
      else Decimal.div (Decimal.mul baseAmount r) 100
  | None => 0
  end.

Record Totals := mkTotals {
  vatLowAmount : Q;
  vatHighAmount : Q;
  serviceTaxAmount : Q;
  serviceChargeAmount : Q;
  totalAmount : Q
}.

Definition calculateTotals (baseAmount : Decimal.t) (taxRates : TaxRates) : Totals :=
  let vatLowAmount := taxAmount baseAmount (vatLow taxRates) in
  let vatHighAmount := taxAmount baseAmount (vatHigh taxRates) in
  let serviceTaxAmount := taxAmount baseAmount (serviceTax taxRates) in
  let serviceChargeAmount := taxAmount baseAmount (serviceCharge taxRates) in
  {| vatLowAmount := round vatLowAmount;
     vatHighAmount := round vatHighAmount;
     serviceTaxAmount := round serviceTaxAmount;
     serviceChargeAmount := round serviceChargeAmount;
     totalAmount :=
       round
         (Decimal.plus
            (Decimal.plus
               (Decimal.plus (Decimal.plus vatLowAmount vatHighAmount)
                  serviceTaxAmount)
               serviceChargeAmount)
            baseAmount) |}.

(** [items.reduce((sum, item) => sum.plus(new Decimal(item.price).mul(item.quantity)),
    new Decimal(0))], over any list of things with a price and a quantity. *)
Definition sumLines {A} (price : A -> Q) (quantity : A -> Z) (items : list A) : Decimal.t :=
  fold_left
    (fun sum item => Decimal.plus sum (Decimal.mul (price item) (inject_Z (quantity item))))
    items 0.

Definition baseAmountOf (items : list OrderItem.t) : Decimal.t :=
  sumLines OrderItem.price OrderItem.quantity items.

(** ** The datastore and the HTTP surface *)

(** Orders are keyed by their identifier and carry their line items (every
    read of an order that matters here is [include: { items: true }]).  A
    bill is one-to-one with its order and is found by [orderId], the key of
    the bill table; [nextBillId] is the auto-increment counter.

    A handler is a function of the datastore and of what it reads of the
    request: the business of the authenticated caller
    ([req.businessOwner?.businessId], [None] when there is none), the
    numeric value of a path parameter ([None] when it is not a number) and
    the fields of the body.  It returns the response and the datastore as
    the request leaves it. *)
Record DB := mkDB {
  orders : gmap Z Order.t;
  bills : gmap Z Bill.t;
  nextBillId : Z
}.

Definition setOrders (o : gmap Z Order.t) (db : DB) : DB :=
  mkDB o (bills db) (nextBillId db).
Definition setBills (b : gmap Z Bill.t) (db : DB) : DB :=
  mkDB (orders db) b (nextBillId db).

(** What Prisma throws inside the handlers that are modelled. *)
Inductive PrismaError :=
| UniqueConstraintFailed
| RecordNotFound
| InvalidArgument.

(** Response bodies, by shape.  [ValidationError] is [{ error }] with the
    message of the Joi schema, [ErrorOf] is [{ error: err.message }]. *)
Inductive Body :=
| ErrorBody (error : string)
| ValidationError
| ErrorOf (err : PrismaError)
| MessageBody (message : string)
| CreatedBill (bill : Bill.t) (message : string)
| UpdatedBill (bill : Bill.t) (message : string)
| BillWithItems (bill : Bill.t) (orderItems : list OrderItem.t)
| OrderView (status : string) (items : list OrderItem.t)
| OrderStatusBody (status : string) (items : list OrderItem.t) (message : string)
| ItemStatusBody (message : string) (productId : Z) (status : option string)
    (orderStatus : string)
| CompleteAllBody (message : string) (orderStatus : string).

Record Response := mkResponse {
  statusCode : Z;
  json : Body
}.

(** [!x] for a numeric identifier that may be missing: [undefined], [NaN]
    and [0] are falsy. *)
Definition falsyId (x : option Z) : bool :=
  match x with
  | None => true
  | Some n => (n =? 0)%Z
  end.

(** The Joi rule [Joi.number().min(0).max(100).allow(null).optional()]. *)
Definition validRate (r : option Q) : bool :=
  match r with
  | None => true
  | Some v => Qle_bool 0 v && Qle_bool v 100
  end.

Definition validTaxRates (t : TaxRates) : bool :=
  validRate (vatLow t) && validRate (vatHigh t)
  && validRate (serviceTax t) && validRate (serviceCharge t).

(** [a ?? b] on an optional number. *)
Definition orElse {A} (a b : option A) : option A :=
  match a with
  | Some _ => a
  | None => b
  end.

Definition noRates : TaxRates := mkTaxRates None None None None.

(** The order a handler may act on: found, and owned by the caller. *)
Definition ownedOrder (db : DB) (orderId businessId : Z) : option Order.t :=
  match orders db !! orderId with
  | Some order =>
      if (Order.businessId order =? businessId)%Z then Some order else None
  | None => None
  end.

(** *** [POST /bill] *)
Definition postBill (db : DB) (businessOwner : option Z)
    (orderId : Z) (taxRates : TaxRates) : Response * DB :=
  if negb (validTaxRates taxRates) then
    (mkResponse 400 ValidationError, db)
  else if falsyId businessOwner then
    (mkResponse 401 (ErrorBody "Unauthorized: Missing businessId"), db)
  else
    let businessId := default 0%Z businessOwner in
    match ownedOrder db orderId businessId with
    | None =>
        (mkResponse 403 (ErrorBody "Unauthorized to create bill for this order"), db)
    | Some order =>
        let baseAmount := baseAmountOf (Order.items order) in
        let totalAmount := totalAmount (calculateTotals baseAmount taxRates) in
        match bills db !! orderId with
        | Some _ => (mkResponse 400 (ErrorOf UniqueConstraintFailed), db)
        | None =>
            let createdBill :=
              Bill.mk (nextBillId db) orderId businessId totalAmount taxRates
                None None None None None in
            let order' :=
              Order.setTotalAmount totalAmount (Order.setStatus "Completed" order) in
            (mkResponse 201 (CreatedBill createdBill "Bill created successfully"),
             mkDB (<[orderId := order']> (orders db))
                  (<[orderId := createdBill]> (bills db))
                  (nextBillId db + 1)%Z)
        end
    end.

(** *** [GET /bill/:orderId] *)
Definition getBill (db : DB) (now : Z) (businessOwner : option Z)
    (orderIdParam : option Z) : Response * DB :=
  if falsyId orderIdParam then
    (mkResponse 400 (ErrorBody "Invalid order ID"), db)
  else if falsyId businessOwner then
    (mkResponse 401 (ErrorBody "Unauthorized: Missing businessId"), db)
  else
    let orderId := default 0%Z orderIdParam in
    let businessId := default 0%Z businessOwner in
    match ownedOrder db orderId businessId with
    | None => (mkResponse 403 (ErrorBody "Unauthorized access"), db)
    | Some order =>
        match bills db !! orderId with
        | None => (mkResponse 200 (MessageBody "No bill found for this order"), db)
        | Some bill =>
            let bill' :=
              match Bill.expiresAt bill with
              | Some e => if (e <? now)%Z then Bill.setLinks None None bill else bill
              | None => bill
              end in
            (mkResponse 200 (BillWithItems bill' (Order.items order)), db)
        end
    end.

(** *** [PUT /bill/:orderId/update-charges] *)

(** The body is not validated; its four fields are read as they come.
    [data: { vatLow: vatLow ?? undefined, ... }] leaves a column as it is
    when the body has [null] or nothing for it. *)
Definition mergeRates (body old : TaxRates) : TaxRates :=
  mkTaxRates (orElse (vatLow body) (vatLow old))
             (orElse (vatHigh body) (vatHigh old))
             (orElse (serviceTax body) (serviceTax old))
             (orElse (serviceCharge body) (serviceCharge old)).

Definition updateCharges (db : DB) (businessOwner : option Z)
    (orderIdParam : option Z) (body : TaxRates) : Response * DB :=
  if falsyId orderIdParam then
    (mkResponse 400 (ErrorBody "Invalid order ID"), db)
  else if falsyId businessOwner then
    (mkResponse 401 (ErrorBody "Unauthorized: Missing businessId"), db)
  else
    let orderId := default 0%Z orderIdParam in
    let businessId := default 0%Z businessOwner in
    match ownedOrder db orderId businessId with
    | None => (mkResponse 403 (ErrorBody "Unauthorized to update charges"), db)
    | Some order =>
        let baseAmount := baseAmountOf (Order.items order) in
        let totalAmount := totalAmount (calculateTotals baseAmount body) in
        match bills db !! orderId with
        | None => (mkResponse 400 (ErrorOf RecordNotFound), db)
        | Some bill =>
            let billUpdated :=
              Bill.setTotalAmount totalAmount
                (Bill.setRates (mergeRates body (Bill.rates bill)) bill) in
            (mkResponse 200 (UpdatedBill billUpdated "Charges updated successfully"),
             mkDB (<[orderId := Order.setTotalAmount totalAmount order]> (orders db))
                  (<[orderId := billUpdated]> (bills db))
                  (nextBillId db))
        end
    end.

(** *** [PUT /bill/:orderId/store-link] *)

Record StoreLinkBody := mkStoreLinkBody {
  billStoreLink : string;
  cloudinaryPublicId : string;
  isModified : option bool
}.

(** [storeLinkSchema]: [billStoreLink: Joi.string().uri().required()] and
    [cloudinaryPublicId: Joi.string().required()].  Joi refuses the empty
    string.  Its test of the URI syntax is not among the sources: the
    handler is given it as [isUri], which says of a string whether
    [Joi.string().uri()] accepts it. *)
Definition validStoreLink (isUri : string -> bool) (b : StoreLinkBody) : bool :=
  negb (String.eqb (billStoreLink b) "") && isUri (billStoreLink b)
  && negb (String.eqb (cloudinaryPublicId b) "").

Definition dayMs : Z := (24 * 60 * 60 * 1000)%Z.

Definition putStoreLink (l p : string) (modified : bool) (e : Z) (b : Bill.t) : Bill.t :=
  if modified then Bill.setModifiedStore (Some l) (Some p) (Some e) b
  else Bill.setStore (Some l) (Some p) (Some e) b.

Definition storeLink (isUri : string -> bool) (db : DB) (now : Z)
    (businessOwner : option Z) (orderIdParam : option Z) (body : StoreLinkBody)
    : Response * DB :=
  if negb (validStoreLink isUri body) then
    (mkResponse 400 ValidationError, db)
  else if falsyId orderIdParam then
    (mkResponse 400 (ErrorBody "Invalid order ID"), db)
  else if falsyId businessOwner then
    (mkResponse 401 (ErrorBody "Unauthorized: Missing businessId"), db)
  else
    let orderId := default 0%Z orderIdParam in
    let businessId := default 0%Z businessOwner in
    match ownedOrder db orderId businessId with
    | None => (mkResponse 403 (ErrorBody "Unauthorized or order not found"), db)
    | Some order =>
        let expiresAt := (now + dayMs)%Z in
        let modified := default false (isModified body) in
        match bills db !! orderId with
        | Some existingBill =>
            (mkResponse 200 (MessageBody "Bill store link updated successfully"),
             setBills
               (<[orderId := putStoreLink (billStoreLink body) (cloudinaryPublicId body)
                               modified expiresAt existingBill]> (bills db)) db)
        | None =>
            let baseAmount := baseAmountOf (Order.items order) in
            let totalAmount := round baseAmount in
            let created :=
              putStoreLink (billStoreLink body) (cloudinaryPublicId body) modified expiresAt
                (Bill.mk (nextBillId db) orderId businessId totalAmount noRates
                   None None None None None) in
            (mkResponse 201 (MessageBody "Bill created with store link"),
             mkDB (orders db) (<[orderId := created]> (bills db)) (nextBillId db + 1)%Z)
        end
    end.

(** *** [PUT /bill/:orderId/update-items] *)

Module ItemInput.
Record t := mk {
  productId : option Z;
  name : string;
  price : Q;
  quantity : Z
}.
End ItemInput.

(** [updateItemsSchema], per item: a non-empty name, [price >= 0] and an
    integer [quantity >= 1]. *)
Definition validItem (i : ItemInput.t) : bool :=
  negb (String.eqb (ItemInput.name i) "")
  && Qle_bool 0 (ItemInput.price i) && (1 <=? ItemInput.quantity i)%Z.

(** The column default of [OrderItem.status].  The Prisma schema is not
    among the sources; the order routes write "Pending" wherever they have
    no status, and no stated property depends on this value. *)
Definition defaultItemStatus : string := "Pending".

(** A row of [createMany]; [item.productId || null] turns [0] into [null]. *)
Definition itemRow (i : ItemInput.t) : OrderItem.t :=
  OrderItem.mk (if falsyId (ItemInput.productId i) then None else ItemInput.productId i)
    (ItemInput.name i) (ItemInput.price i) (ItemInput.quantity i) defaultItemStatus.

Definition updateItems (db : DB) (businessOwner : option Z)
    (orderIdParam : option Z) (items : list ItemInput.t) : Response * DB :=
  if negb (forallb validItem items) then
    (mkResponse 400 ValidationError, db)
  else if falsyId orderIdParam then
    (mkResponse 400 (ErrorBody "Invalid order ID"), db)
  else if falsyId businessOwner then
    (mkResponse 401 (ErrorBody "Unauthorized: Missing businessId"), db)
  else
    let orderId := default 0%Z orderIdParam in
    let businessId := default 0%Z businessOwner in
    match ownedOrder db orderId businessId with
    | None => (mkResponse 403 (ErrorBody "Unauthorized or order not found"), db)
    | Some order =>
        let baseAmount := sumLines ItemInput.price ItemInput.quantity items in
        let '(bill, next) :=
          match bills db !! orderId with
          | Some bill => (bill, nextBillId db)
          | None =>
              (Bill.mk (nextBillId db) orderId businessId (round baseAmount) noRates
                 None None None None None,
               (nextBillId db + 1)%Z)
          end in
        let totalAmount := totalAmount (calculateTotals baseAmount (Bill.rates bill)) in
        let order' :=
          Order.setTotalAmount totalAmount (Order.setItems (map itemRow items) order) in
        (mkResponse 200 (MessageBody "Bill items updated successfully"),
         mkDB (<[orderId := order']> (orders db))
              (<[orderId := Bill.setTotalAmount totalAmount bill]> (bills db))
              next)
    end.

(** ** The order routes *)

(** The order-level status computed from the items:
    [items.every(item => item.status === "Completed") && items.length > 0
       ? "Completed" : "Pending"].
    The routes repeat this expression at each place they need it
    ([orderStatus], [newOrderStatus]). *)
Definition allItemsCompleted (items : list OrderItem.t) : bool :=
  forallb (fun item => String.eqb (OrderItem.status item) "Completed") items.

Definition orderStatus (items : list OrderItem.t) : string :=
  if allItemsCompleted items && (0 <? Z.of_nat (length items))%Z
  then "Completed" else "Pending".

(** *** [GET /:orderId] (the fields that are computed) *)
Definition getOrder (db : DB) (orderId : Z) : Response :=
  match orders db !! orderId with
  | None => mkResponse 404 (MessageBody "Order not found")
  | Some order =>
      mkResponse 200
        (OrderView (orderStatus (Order.items order)) (Order.items order))
  end.

(** [data: { status }] with [status] taken from the body: a missing field
    ([None]) leaves the column as it is. *)
Definition writeStatus (status : option string) (old : string) : string :=
  default old status.

(** *** [PATCH /:orderId/status] *)
Definition patchOrderStatus (db : DB) (businessOwner : option Z)
    (orderIdParam : option Z) (status : option string) : Response * DB :=
  if falsyId businessOwner then
    (mkResponse 401 (MessageBody "Unauthorized: Missing businessId"), db)
  else
    match orderIdParam with
    | None => (mkResponse 500 (MessageBody "Server error while updating order status"), db)
    | Some orderId =>
        match ownedOrder db orderId (default 0%Z businessOwner) with
        | None => (mkResponse 403 (MessageBody "Not allowed to update this order"), db)
        | Some existingOrder =>
            let updatedOrder :=
              Order.setStatus (writeStatus status (Order.status existingOrder))
                existingOrder in
            (mkResponse 200
               (OrderStatusBody (Order.status updatedOrder) (Order.items updatedOrder)
                  "Order status updated successfully"),
             setOrders (<[orderId := updatedOrder]> (orders db)) db)
        end
    end.

(** [item.productId === productId] against the parsed parameter. *)
Definition hasProduct (productId : Z) (item : OrderItem.t) : bool :=
  match OrderItem.productId item with
  | Some p => (p =? productId)%Z
  | None => false
  end.

(** [orderItem.updateMany({ where: { orderId, productId }, data: { status } })]
    on the items of the order. *)
Definition updateItemStatus (productId : Z) (status : option string)
    (items : list OrderItem.t) : list OrderItem.t :=
  map (fun item =>
         if hasProduct productId item
         then OrderItem.setStatus (writeStatus status (OrderItem.status item)) item
         else item)
      items.

(** *** [PATCH /:orderId/items/:productId/status] *)
Definition patchItemStatus (db : DB) (businessOwner : option Z)
    (orderIdParam productIdParam : option Z) (status : option string)
    : Response * DB :=
  if falsyId businessOwner then
    (mkResponse 401 (MessageBody "Unauthorized: Missing businessId"), db)
  else
    match orderIdParam with
    | None => (mkResponse 500 (MessageBody "Server error while updating item status"), db)
    | Some orderId =>
        match ownedOrder db orderId (default 0%Z businessOwner) with
        | None => (mkResponse 403 (MessageBody "Not allowed to update this order"), db)
        | Some existingOrder =>
            match productIdParam with
            | None => (mkResponse 404 (MessageBody "Item not found in order"), db)
            | Some productId =>
                if negb (existsb (hasProduct productId) (Order.items existingOrder)) then
                  (mkResponse 404 (MessageBody "Item not found in order"), db)
                else
                  let updatedOrder :=
                    Order.setItems
                      (updateItemStatus productId status (Order.items existingOrder))
                      existingOrder in
                  let newOrderStatus := orderStatus (Order.items updatedOrder) in
                  (mkResponse 200
                     (ItemStatusBody "Item status updated successfully" productId
                        status newOrderStatus),
                   setOrders
                     (<[orderId := Order.setStatus newOrderStatus updatedOrder]> (orders db))
                     db)
            end
        end
    end.

(** *** [PATCH /:orderId/complete-all] *)
Definition completeAll (db : DB) (businessOwner : option Z)
    (orderIdParam : option Z) : Response * DB :=
  if falsyId businessOwner then
    (mkResponse 401 (MessageBody "Unauthorized: Missing businessId"), db)
  else
    match orderIdParam with
    | None => (mkResponse 500 (MessageBody "Server error while completing all items"), db)
    | Some orderId =>
        match ownedOrder db orderId (default 0%Z businessOwner) with
        | None => (mkResponse 403 (MessageBody "Not allowed to update this order"), db)
        | Some existingOrder =>
            let items' := map (OrderItem.setStatus "Completed") (Order.items existingOrder) in
            (mkResponse 200
               (CompleteAllBody "All items marked as completed successfully" "Completed"),
             setOrders
               (<[orderId := Order.setStatus "Completed" (Order.setItems items' existingOrder)]>
                  (orders db))
               db)
        end
    end.

(** *** The stock update that follows the creation of an order *)

Module CartItem.
(** What the loop reads of a cart line.  [productId] is [None] when the
    line has none; [quantity] has been stored as the line's integer
    quantity by the time the loop runs. *)
Record t := mk {
  productId : option Z;
  quantity : Z
}.
End CartItem.

(** JavaScript numbers are IEEE 754 doubles, the primitive [float] of the
    kernel; [*] and [-] on numbers are [PrimFloat.mul] and [PrimFloat.sub],
    [isNaN] is [PrimFloat.is_nan].  The datastore's [decrement] on a
    [Float] column is the subtraction of doubles. *)
Module JsNumber.
Definition t : Set := float.

(** The number that holds the integer [z]: [z] itself up to [2^53], the
    nearest double beyond. *)
Definition ofZ (z : Z) : t := SF2Prim (binary_normalize prec emax z 0 false).

Definition isNaN (x : t) : bool := PrimFloat.is_nan x.
End JsNumber.

Module Ingredient.
(** One entry of [metadata.ingredients] that is not [null].  [quantity] is
    [Number(ing.quantity)], [NaN] for a quantity that is not numeric; an
    entry with a numeric quantity has a string as its [name]. *)
Record t := mk {
  name : string;
  quantity : JsNumber.t
}.
End Ingredient.

(** The value of [metadataObj?.ingredients]: absent or falsy (the loop runs
    over [[]]); a truthy value that [for ... of] cannot iterate (an object,
    a number, [true]), on which the loop throws a [TypeError]; or an array,
    whose entries are [null] ([None]) or not.  A string, which the loop
    iterates character by character, is an array of entries without
    numeric quantity. *)
Inductive Ingredients :=
| NoIngredients
| NotIterable
| IngredientList (entries : list (option Ingredient.t)).

(** [dish.metadata]: nothing, a string that [JSON.parse] refuses, or a JSON
    value ([JSON.parse] of a string, or the stored JSON) with what it has
    under [ingredients]. *)
Inductive Metadata :=
| NoMetadata
| UnparsableString
| MetadataObject (ingredients : Ingredients).

Module InventoryItem.
Record t := mk {
  name : string;
  businessId : Z;
  quantity : JsNumber.t
}.
End InventoryItem.

(** What the loop throws: an error of Prisma, or a [TypeError] of the
    language. *)
Inductive Thrown :=
| PrismaThrew (e : PrismaError)
| TypeError.

(** The [ingredients] that the inner loop is to run over for a dish:
    [None] when [for ... of] throws on them. *)
Definition ingredientsOf (dish : option Metadata) : option (list (option Ingredient.t)) :=
  match dish with
  | Some (MetadataObject (IngredientList entries)) => Some entries
  | Some (MetadataObject NotIterable) => None
  | _ => Some []
  end.

(** [Number(ing.quantity) * item.quantity]. *)
Definition quantityToDeduct (ing : Ingredient.t) (item : CartItem.t) : JsNumber.t :=
  PrimFloat.mul (Ingredient.quantity ing) (JsNumber.ofZ (CartItem.quantity item)).

(** [inventoryItem.updateMany({ where: { name, businessId },
      data: { quantity: { decrement } } })]. *)
Definition decrementMany (name : string) (businessId : Z) (by_ : JsNumber.t)
    (inventory : list InventoryItem.t) : list InventoryItem.t :=
  map (fun r =>
         if String.eqb (InventoryItem.name r) name
            && (InventoryItem.businessId r =? businessId)%Z
         then InventoryItem.mk (InventoryItem.name r) (InventoryItem.businessId r)
                (PrimFloat.sub (InventoryItem.quantity r) by_)
         else r)
      inventory.

(** The body of the inner loop: [if (!isNaN(quantityToDeduct))]. *)
Definition deductIngredient (businessId : Z) (item : CartItem.t)
    (inventory : list InventoryItem.t) (ing : Ingredient.t) : list InventoryItem.t :=
  if JsNumber.isNaN (quantityToDeduct ing item) then inventory
  else decrementMany (Ingredient.name ing) businessId (quantityToDeduct ing item) inventory.

(** The inner loop [for (const ing of ingredients)]: reading [ing.quantity]
    of a [null] entry throws. *)
Fixpoint deductIngredients (businessId : Z) (item : CartItem.t)
    (ingredients : list (option Ingredient.t)) (inventory : list InventoryItem.t)
    : list InventoryItem.t * option Thrown :=
  match ingredients with
  | [] => (inventory, None)
  | None :: _ => (inventory, Some TypeError)
  | Some ing :: rest =>
      deductIngredients businessId item rest (deductIngredient businessId item inventory ing)
  end.

(** The loop [for (const item of cart_items)].  [product.findUnique] throws
    for a line without [productId]; the handler's [catch] then answers 500,
    as for a [TypeError], the stock updates made so far staying in place. *)
Fixpoint updateInventoryStock (products : gmap Z Metadata) (businessId : Z)
    (cart_items : list CartItem.t) (inventory : list InventoryItem.t)
    : list InventoryItem.t * option Thrown :=
  match cart_items with
  | [] => (inventory, None)
  | item :: rest =>
      match CartItem.productId item with
      | None => (inventory, Some (PrismaThrew InvalidArgument))
      | Some productId =>
          match ingredientsOf (products !! productId) with
          | None => (inventory, Some TypeError)
          | Some ingredients =>
              match deductIngredients businessId item ingredients inventory with
              | (inventory', Some e) => (inventory', Some e)
              | (inventory', None) =>
                  updateInventoryStock products businessId rest inventory'
              end
          end
      end
  end.

(** The end of [POST /]: the stock update, then the answer. *)
Definition placeOrderStock (products : gmap Z Metadata) (businessId : Z)
    (cart_items : list CartItem.t) (inventory : list InventoryItem.t)
    : Response * list InventoryItem.t :=
  match updateInventoryStock products businessId cart_items inventory with
  | (inventory', None) => (mkResponse 201 (MessageBody "Order placed successfully"), inventory')
  | (inventory', Some _) =>
      (mkResponse 500 (MessageBody "Server error while creating order"), inventory')
  end.

(** ** [deleteExpiredBills.ts]: the reaper *)

Module Reaper.

(** What the job cannot decide: whether the image store accepts a delete
    request, and whether the datastore carries out a row deletion. *)
Record World := mkWorld {
  destroyOk : string -> bool;
  deleteOk : Z -> bool
}.

(** What a run does, in order. *)
Inductive Event :=
| LogChecking
| PostDestroy (publicId : string)
| LogImageDeleted (publicId : string)
| LogImageFailed (publicId : string)
| DeleteRow (id : Z)
| LogBillDeleted (id : Z)
| LogCronError.

(** [deleteFromCloudinary]: one request; its failure is caught and logged. *)
Definition deleteFromCloudinary (w : World) (publicId : string) : list Event :=
  PostDestroy publicId
    :: (if destroyOk w publicId then [LogImageDeleted publicId]
        else [LogImageFailed publicId]).

(** [where: { expiresAt: { lte: now } }]; a row without [expiresAt] does
    not match. *)
Definition isExpired (now : Z) (bill : Bill.t) : bool :=
  match Bill.expiresAt bill with
  | Some e => (e <=? now)%Z
  | None => false
  end.

Definition findMany (now : Z) (table : list Bill.t) : list Bill.t :=
  List.filter (isExpired now) table.

(** [if (bill.billStorePublicId)]: [null] and the empty string are falsy. *)
Definition imageStep (w : World) (bill : Bill.t) : list Event :=
  match Bill.billStorePublicId bill with
  | Some publicId =>
      if String.eqb publicId "" then [] else deleteFromCloudinary w publicId
  | None => []
  end.

Definition deleteRow (id : Z) (table : list Bill.t) : list Bill.t :=
  List.filter (fun b => negb (Bill.id b =? id)%Z) table.

(** The body of [for (const bill of expiredBills)].  The third component
    tells whether a deletion threw, which ends the loop. *)
Fixpoint processBills (w : World) (expiredBills : list Bill.t) (table : list Bill.t)
    : list Event * list Bill.t * bool :=
  match expiredBills with
  | [] => ([], table, false)
  | bill :: rest =>
      if deleteOk w (Bill.id bill) then
        let '(events, table', threw) :=
          processBills w rest (deleteRow (Bill.id bill) table) in
        (imageStep w bill ++ DeleteRow (Bill.id bill) :: LogBillDeleted (Bill.id bill)
           :: events,
         table', threw)
      else (imageStep w bill ++ [DeleteRow (Bill.id bill)], table, true)
  end.

(** The scheduled callback. *)
Definition cronJob (w : World) (now : Z) (table : list Bill.t)
    : list Event * list Bill.t :=
  let expiredBills := findMany now table in
  let '(events, table', threw) := processBills w expiredBills table in
  (LogChecking :: events ++ (if threw then [LogCronError] else []), table').

End Reaper.

(** ** Vocabulary of the stated properties *)

(** What a rate contributes: [null] and an absent rate count as zero. *)
Definition rateValue (r : option Q) : Q := default 0 r.

(** "In [[0,100]] or null". *)
Definition rateInRange (r : option Q) : Prop := 0 <= rateValue r <= 100.

Definition ratesInRange (t : TaxRates) : Prop :=
  rateInRange (vatLow t) /\ rateInRange (vatHigh t)
  /\ rateInRange (serviceTax t) /\ rateInRange (serviceCharge t).

(** Rate by rate, [t1] is at most [t2]. *)
Definition ratesLe (t1 t2 : TaxRates) : Prop :=
  rateValue (vatLow t1) <= rateValue (vatLow t2)
  /\ rateValue (vatHigh t1) <= rateValue (vatHigh t2)
  /\ rateValue (serviceTax t1) <= rateValue (serviceTax t2)
  /\ rateValue (serviceCharge t1) <= rateValue (serviceCharge t2).

(** Component by component, [t1] is at most [t2]. *)
Definition totalsLe (t1 t2 : Totals) : Prop :=
  vatLowAmount t1 <= vatLowAmount t2
  /\ vatHighAmount t1 <= vatHighAmount t2
  /\ serviceTaxAmount t1 <= serviceTaxAmount t2
  /\ serviceChargeAmount t1 <= serviceChargeAmount t2
  /\ totalAmount t1 <= totalAmount t2.

(** [x] can be written with at most [sd] significant decimal digits. *)
Definition atMostDigits (sd : Z) (x : Q) : Prop :=
  exists m e : Z, (Z.abs m < 10 ^ sd)%Z /\ x == inject_Z m * Decimal.pow10 e.

(** The tax amount of the specification: [baseAmount * rate / 100] in exact
    arithmetic, then rounded half-up to 2 decimal places. *)
Definition exactTax (baseAmount : Q) (rate : option Q) : Q :=
  Decimal.roundHalfUp (baseAmount * rateValue rate / 100) 2.

(** The total of the specification's wording: the base amount plus the four
    tax amounts, each already rounded. *)
Definition roundThenSum (baseAmount : Q) (t : Totals) : Q :=
  baseAmount + vatLowAmount t + vatHighAmount t + serviceTaxAmount t
  + serviceChargeAmount t.

(** The base amount and the four unrounded tax amounts added up in exact
    arithmetic. *)
Definition exactSum (baseAmount : Q) (taxRates : TaxRates) : Q :=
  baseAmount * rateValue (vatLow taxRates) / 100
  + baseAmount * rateValue (vatHigh taxRates) / 100
  + baseAmount * rateValue (serviceTax taxRates) / 100
  + baseAmount * rateValue (serviceCharge taxRates) / 100
  + baseAmount.

(** An amount of money: a whole number of hundredths, at most [10^13]. *)
Definition isMoney (x : Q) : Prop :=
  exists m : Z, (Z.abs m <= 10 ^ 15)%Z /\ x == inject_Z m / 100.

(** A percentage with at most two decimals, in [[0,100]]. *)
Definition isPercentage (r : option Q) : Prop :=
  exists k : Z, (0 <= k <= 10 ^ 4)%Z /\ rateValue r == inject_Z k / 100.

(** An amount that [toNumber] keeps: below [10^13] in absolute value, where
    an amount with two decimals has at most 15 significant digits and the
    double nearest to it prints as the same decimal. *)
Definition numberKeeps (x : Q) : Prop := Qabs x < inject_Z (10 ^ 13).

(** The requests that write to an order or to its items, and what each
    leaves in the datastore. *)
Inductive OrderWrite :=
| PatchOrderStatus (businessOwner orderId : option Z) (status : option string)
| PatchItemStatus (businessOwner orderId productId : option Z) (status : option string)
| CompleteAll (businessOwner orderId : option Z)
| PostBill (businessOwner : option Z) (orderId : Z) (taxRates : TaxRates).

Definition runOrderWrite (w : OrderWrite) (db : DB) : DB :=
  match w with
  | PatchOrderStatus bo oid st => snd (patchOrderStatus db bo oid st)
  | PatchItemStatus bo oid pid st => snd (patchItemStatus db bo oid pid st)
  | CompleteAll bo oid => snd (completeAll db bo oid)
  | PostBill bo oid t => snd (postBill db bo oid t)
  end.

(** The stored status of every order is the one its items give. *)
Definition statusDerived (db : DB) : Prop :=
  forall (id : Z) (o : Order.t),
    orders db !! id = Some o -> Order.status o = orderStatus (Order.items o).

(** The stored total of the bill of [orderId] is the one its order's items
    and its own stored rates give. *)
Definition billUpToDate (db : DB) (orderId : Z) : Prop :=
  forall (o : Order.t) (b : Bill.t),
    orders db !! orderId = Some o -> bills db !! orderId = Some b ->
    Bill.totalAmount b
    == totalAmount (calculateTotals (baseAmountOf (Order.items o)) (Bill.rates b)).

(** What a run does to the outside: the requests to the image store and
    the row deletions asked of the datastore, without the log lines. *)
Definition isEffect (e : Reaper.Event) : bool :=
  match e with
  | Reaper.PostDestroy _ | Reaper.DeleteRow _ => true
  | _ => false
  end.

Definition effects (events : list Reaper.Event) : list Reaper.Event :=
  List.filter isEffect events.

(** What the job does to the outside for one bill that it reaches: one
    delete request with [billStorePublicId] if the bill has one that is not
    empty, then the deletion of its row.  [billStorePublicId] is the only
    identifier the job reads: it makes no request for
    [modifiedBillStorePublicId]. *)
Definition billEffects (bill : Bill.t) : list Reaper.Event :=
  match Bill.billStorePublicId bill with
  | Some publicId =>
      if String.eqb publicId "" then [Reaper.DeleteRow (Bill.id bill)]
      else [Reaper.PostDestroy publicId; Reaper.DeleteRow (Bill.id bill)]
  | None => [Reaper.DeleteRow (Bill.id bill)]
  end.

(** The rows left once the rows of [bills] have been deleted. *)
Definition deleteRows (bills : list Bill.t) (table : list Bill.t) : list Bill.t :=
  fold_left (fun t b => Reaper.deleteRow (Bill.id b) t) bills table.

(** The entries of a recipe that are not [null], and those among them that
    come before its first [null] entry. *)
Fixpoint presentEntries (entries : list (option Ingredient.t)) : list Ingredient.t :=
  match entries with
  | [] => []
  | Some ing :: rest => ing :: presentEntries rest
  | None :: rest => presentEntries rest
  end.

Fixpoint entriesBeforeNull (entries : list (option Ingredient.t)) : list Ingredient.t :=
  match entries with
  | Some ing :: rest => ing :: entriesBeforeNull rest
  | _ => []
  end.

Definition noNull (entries : list (option Ingredient.t)) : bool :=
  forallb (fun e => match e with Some _ => true | None => false end) entries.

(** The recipe of the dish of a cart line, when the line names a product
    and the recipe can be iterated. *)
Definition recipeOf (products : gmap Z Metadata) (item : CartItem.t)
    : option (list (option Ingredient.t)) :=
  match CartItem.productId item with
  | Some productId => ingredientsOf (products !! productId)
  | None => None
  end.

(** The stock update gets through the line: the line names its product, the
    [ingredients] of the dish can be iterated and none of them is [null]. *)
Definition lineRuns (products : gmap Z Metadata) (item : CartItem.t) : bool :=
  match recipeOf products item with
  | Some entries => noNull entries
  | None => false
  end.

(** The uses of ingredients that a cart asks for, in the order of the
    loops: each line with each ingredient of its dish. *)
Definition usesOf (products : gmap Z Metadata) (item : CartItem.t)
    : list (Ingredient.t * CartItem.t) :=
  map (fun ing => (ing, item)) (presentEntries (default [] (recipeOf products item))).

Definition cartUses (products : gmap Z Metadata) (cart_items : list CartItem.t)
    : list (Ingredient.t * CartItem.t) :=
  flat_map (usesOf products) cart_items.

(** The uses that the update reaches: all those of the lines before the
    first line that does not run, and of that line the ones before the
    [null] entry, if the line has a recipe. *)
Fixpoint reachedUses (products : gmap Z Metadata) (cart_items : list CartItem.t)
    : list (Ingredient.t * CartItem.t) :=
  match cart_items with
  | [] => []
  | item :: rest =>
      map (fun ing => (ing, item))
        (entriesBeforeNull (default [] (recipeOf products item)))
      ++ (if lineRuns products item then reachedUses products rest else [])
  end.

(** The amounts that a list of uses takes from an inventory record, in
    order: for each use whose ingredient has the name of the record, the
    record being of the order's business, the number
    [Number(ing.quantity) * item.quantity], unless it is [NaN]. *)
Definition takes (businessId : Z) (r : InventoryItem.t)
    (use : Ingredient.t * CartItem.t) : bool :=
  String.eqb (InventoryItem.name r) (Ingredient.name (fst use))
  && (InventoryItem.businessId r =? businessId)%Z
  && negb (JsNumber.isNaN (quantityToDeduct (fst use) (snd use))).

Definition amountsFor (businessId : Z) (uses : list (Ingredient.t * CartItem.t))
    (r : InventoryItem.t) : list JsNumber.t :=
  map (fun use => quantityToDeduct (fst use) (snd use))
    (List.filter (takes businessId r) uses).

(** [after] is [before] with the quantity of each record lowered by the
    amounts that [uses] takes from it, one subtraction of numbers after the
    other; names, businesses and the order of the records are kept. *)
Definition loweredBy (businessId : Z) (uses : list (Ingredient.t * CartItem.t))
    (before after : list InventoryItem.t) : Prop :=
  Forall2
    (fun r r' =>
       InventoryItem.name r' = InventoryItem.name r
       /\ InventoryItem.businessId r' = InventoryItem.businessId r
       /\ InventoryItem.quantity r'
          = fold_left PrimFloat.sub (amountsFor businessId uses r)
              (InventoryItem.quantity r))
    before after.

Definition isNumeric (ing : Ingredient.t) : bool :=
  negb (JsNumber.isNaN (Ingredient.quantity ing)).


(** ** [billpage.ts]: the routes that only read *)

(** [x || 0] on a stored rate: [null] and [0] give [0]. *)
Definition orZero (r : option Q) : option Q :=
  match r with
  | Some v => if Qeq_bool v 0 then Some 0 else Some v
  | None => Some 0
  end.

(** [x ?? 0] on a stored rate: [null] gives [0]. *)
Definition nullToZero (r : option Q) : option Q := Some (default 0 r).

(** The rates of an optional bill, [order.bill?.vatLow] and the like. *)
Definition ratesOfBill (bill : option Bill.t) : TaxRates :=
  match bill with
  | Some b => Bill.rates b
  | None => noRates
  end.

Definition mapRates (f : option Q -> option Q) (t : TaxRates) : TaxRates :=
  mkTaxRates (f (vatLow t)) (f (vatHigh t)) (f (serviceTax t)) (f (serviceCharge t)).

(** *** [GET /bill/:orderId/details] *)

Inductive DetailsReply :=
| DetailsError (code : Z) (error : string)
| Details (status : string) (items : list OrderItem.t) (bill : option Bill.t)
    (baseAmount : Q) (calculations : Totals) (taxRates : TaxRates).

Definition getBillDetails (db : DB) (businessOwner : option Z)
    (orderIdParam : option Z) : DetailsReply :=
  if falsyId orderIdParam then DetailsError 400 "Invalid order ID"
  else if falsyId businessOwner then DetailsError 401 "Unauthorized: Missing businessId"
  else
    let orderId := default 0%Z orderIdParam in
    match ownedOrder db orderId (default 0%Z businessOwner) with
    | None => DetailsError 403 "Unauthorized access"
    | Some order =>
        let baseAmount := baseAmountOf (Order.items order) in
        let taxRates := mapRates orZero (ratesOfBill (bills db !! orderId)) in
        let calculations := calculateTotals baseAmount taxRates in
        Details (Order.status order) (Order.items order) (bills db !! orderId)
          (round baseAmount) calculations taxRates
    end.

(** *** [POST /fake-bill] *)

Module ExtraDish.
Record t := mk {
  dishName : string;
  price : Q;
  quantity : Z
}.
End ExtraDish.

(** [fakeBillSchema], per dish: a non-empty name, [price >= 0] and an
    integer [quantity >= 1]. *)
Definition validDish (d : ExtraDish.t) : bool :=
  negb (String.eqb (ExtraDish.dishName d) "")
  && Qle_bool 0 (ExtraDish.price d) && (1 <=? ExtraDish.quantity d)%Z.

Inductive FakeBillReply :=
| FakeBillInvalid
| FakeBillError (code : Z) (error : string)
| FakeBill (originalAmount fakeAmount : Q) (items : list (string * Q * Z))
    (message : string).

(** [new Decimal(originalAmount).plus(extraBase).plus(...)...], rounded. *)
Definition fakeTotal (originalAmount : Q) (extraBase : Decimal.t) (rates : TaxRates) : Q :=
  let extraVatLowRounded := round (taxAmount extraBase (vatLow rates)) in
  let extraVatHighRounded := round (taxAmount extraBase (vatHigh rates)) in
  let extraServiceTaxRounded := round (taxAmount extraBase (serviceTax rates)) in
  round
    (Decimal.plus
       (Decimal.plus
          (Decimal.plus (Decimal.plus originalAmount extraBase) extraVatLowRounded)
          extraVatHighRounded)
       extraServiceTaxRounded).

Definition fakeBill (db : DB) (businessOwner : option Z)
    (orderId : Z) (extraDishes : list ExtraDish.t) : FakeBillReply :=
  if negb (forallb validDish extraDishes) then FakeBillInvalid
  else if falsyId businessOwner then FakeBillError 401 "Unauthorized: Missing businessId"
  else
    match ownedOrder db orderId (default 0%Z businessOwner) with
    | None => FakeBillError 403 "Unauthorized or order not found"
    | Some order =>
        let baseAmount := baseAmountOf (Order.items order) in
        let rates := ratesOfBill (bills db !! orderId) in
        let originalAmount :=
          totalAmount (calculateTotals baseAmount (mapRates nullToZero rates)) in
        let extraBase := sumLines ExtraDish.price ExtraDish.quantity extraDishes in
        let allItems :=
          map (fun i => (OrderItem.name i, OrderItem.price i, OrderItem.quantity i))
            (Order.items order)
          ++ map (fun e => (ExtraDish.dishName e, ExtraDish.price e, ExtraDish.quantity e))
               extraDishes in
        FakeBill originalAmount (fakeTotal originalAmount extraBase rates) allItems
          "Fake bill generated successfully"
    end.

(** *** [GET /bill/:orderId/link] *)

Inductive LinkReply :=
| LinkError (code : Z) (error : string)
| Links (billStoreLink modifiedBillStoreLink : option string).

Definition getBillLink (db : DB) (businessOwner : option Z)
    (orderIdParam : option Z) : LinkReply :=
  if falsyId orderIdParam then LinkError 400 "Invalid order ID"
  else if falsyId businessOwner then LinkError 401 "Unauthorized: Missing businessId"
  else
    let orderId := default 0%Z orderIdParam in
    match bills db !! orderId, orders db !! orderId with
    | Some bill, Some order =>
        if (Order.businessId order =? default 0%Z businessOwner)%Z
        then Links (Bill.billStoreLink bill) (Bill.modifiedBillStoreLink bill)
        else LinkError 403 "Unauthorized or bill not found"
    | _, _ => LinkError 403 "Unauthorized or bill not found"
    end.

(** The link that a store-link request writes: the modified one with
    [isModified], the original one without. *)
Definition chosenLink (modified : bool) (l ml : option string) : option string :=
  if modified then ml else l.

(** ** Order identifiers as the order routes print and read them *)

(** An order identifier is an integer that a JavaScript number holds
    exactly: at most [maxSafeInteger] in absolute value.  For such an
    integer [id.toString()] is the decimal notation, [pretty] of stdpp
    (JavaScript prints an exponent from [1e21] on), and [parseInt] returns
    the integer that the digits denote (beyond [maxSafeInteger] it returns
    the nearest double, which need not be that integer).  Strings are
    strings of ASCII characters. *)
Module OrderId.

(** [Number.MAX_SAFE_INTEGER]. *)
Definition maxSafeInteger : Z := (2 ^ 53 - 1)%Z.

Fixpoint zeros (n : nat) : string :=
  match n with
  | O => ""
  | S n => String "0"%char (zeros n)
  end.

(** [s.padStart(n, "0")]. *)
Definition padStart0 (n : nat) (s : string) : string :=
  zeros (n - String.length s) +:+ s.

(** [`ORD${order.id.toString().padStart(5, "0")}`], for an identifier up to
    [maxSafeInteger]. *)
Definition format (id : Z) : string := "ORD" +:+ padStart0 5 (pretty id).

Fixpoint drop (n : nat) (s : string) : string :=
  match n, s with
  | O, _ => s
  | S n, String _ s' => drop n s'
  | S _, EmptyString => EmptyString
  end.

(** [s.replace(pat, rep)] with a string pattern: the first occurrence only. *)
Fixpoint replaceFirst (pat rep s : string) : string :=
  if String.prefix pat s then rep +:+ drop (String.length pat) s
  else
    match s with
    | EmptyString => EmptyString
    | String c s' => String c (replaceFirst pat rep s')
    end.

Definition digitValue (c : Ascii.ascii) : option Z :=
  let n := Z.of_N (Ascii.N_of_ascii c) in
  if (48 <=? n)%Z && (n <=? 57)%Z then Some (n - 48)%Z else None.

(** The white space that [parseInt] skips, within ASCII: tab, line feed,
    vertical tab, form feed, carriage return and space. *)
Definition isWhiteSpace (c : Ascii.ascii) : bool :=
  let n := Z.of_N (Ascii.N_of_ascii c) in
  ((9 <=? n)%Z && (n <=? 13)%Z) || (n =? 32)%Z.

Fixpoint trimStart (s : string) : string :=
  match s with
  | String c s' => if isWhiteSpace c then trimStart s' else s
  | EmptyString => EmptyString
  end.

(** The value of the longest prefix of decimal digits, [None] ([NaN]) when
    there is no digit. *)
Fixpoint parseDigits (s : string) (acc : Z) (seen : bool) : option Z :=
  match s with
  | String c s' =>
      match digitValue c with
      | Some d => parseDigits s' (acc * 10 + d)%Z true
      | None => if seen then Some acc else None
      end
  | EmptyString => if seen then Some acc else None
  end.

(** [parseInt(s, 10)], for digits that denote an integer up to
    [maxSafeInteger]. *)
Definition parseInt10 (s : string) : option Z :=
  match trimStart s with
  | String "-"%char r => Z.opp <$> parseDigits r 0 false
  | String "+"%char r => parseDigits r 0 false
  | r => parseDigits r 0 false
  end.

(** How [GET /:orderId] reads its parameter. *)
Definition parseShown (rawId : string) : option Z :=
  if String.prefix "ORD" rawId then parseInt10 (replaceFirst "ORD" "" rawId)
  else parseInt10 rawId.

(** How the other order routes read it:
    [parseInt(rawId.replace("ORD", ""), 10)]. *)
Definition parse (rawId : string) : option Z :=
  parseInt10 (replaceFirst "ORD" "" rawId).

Fixpoint allDigits (s : string) : bool :=
  match s with
  | String c s' => match digitValue c with Some _ => allDigits s' | None => false end
  | EmptyString => true
  end.

End OrderId.

(** ** [POST /] and [PUT /:orderId]: placing and replacing an order *)

(** The two routes work on more of the datastore than the bill routes: the
    tables, the customers, the products and the inventory.  The Prisma
    schema is not among the sources; a row that a request creates is taken
    to be accepted by the datastore. *)

Module Table.
Record t := mk {
  isBooked : bool;
  orderId : option Z
}.
End Table.

Module Customer.
(** The columns the order routes write.  [None] is [null]: an increment or
    a decrement leaves a [null] column [null]. *)
Record t := mk {
  points : option Z;
  totalOrders : option Z;
  totalMoneySpent : option Q
}.
End Customer.

Record Shop := mkShop {
  store : DB;
  nextOrderId : Z;
  tables : gmap Z Table.t;
  customers : gmap Z Customer.t;
  products : gmap Z Metadata;
  inventory : list InventoryItem.t
}.

Module CartLine.
(** A line of [cart_items]; [status] is [None] when the line has none. *)
Record t := mk {
  productId : option Z;
  quantity : Z;
  price : Q;
  name : string;
  status : option string
}.
End CartLine.

(** [item.status || "Pending"]: the empty string is falsy. *)
Definition lineStatus (status : option string) : string :=
  match status with
  | Some s => if String.eqb s "" then "Pending" else s
  | None => "Pending"
  end.

(** The row of [items: { create: ... }] for a line. *)
Definition orderItemOf (item : CartLine.t) : OrderItem.t :=
  OrderItem.mk (CartLine.productId item) (CartLine.name item) (CartLine.price item)
    (CartLine.quantity item) (lineStatus (CartLine.status item)).

(** What the stock loop reads of a line. *)
Definition cartItemOf (item : CartLine.t) : CartItem.t :=
  CartItem.mk (CartLine.productId item) (CartLine.quantity item).

(** The fields of the body that the two routes read.  [customerId] is read
    by [PUT /:orderId] only; [POST /] takes the customer from the token. *)
Record OrderBody := mkOrderBody {
  businessId : option Z;
  table_number : option Z;
  tableId : option Z;
  cart_items : list CartLine.t;
  total_amount : option Q;
  payment_method : option string;
  estimated_time : option string;
  pointsUsed : option Z;
  customerId : option Z
}.

(** [!x] for an optional amount and for an optional string. *)
Definition falsyAmount (x : option Q) : bool :=
  match x with
  | None => true
  | Some v => Qeq_bool v 0
  end.

Definition falsyString (x : option string) : bool :=
  match x with
  | None => true
  | Some s => String.eqb s ""
  end.

Inductive OrderReply :=
| Refused (answer : Response)
| Placed (order_id : string) (status : string) (items : list OrderItem.t)
| Updated (order_id : string) (total_amount : Q) (status : string)
    (items : list OrderItem.t).

Definition replyCode (r : OrderReply) : Z :=
  match r with
  | Refused answer => statusCode answer
  | Placed _ _ _ => 201
  | Updated _ _ _ _ => 200
  end.

(** [x: { increment: n }] and [x: { decrement: n }] on a nullable column. *)
Definition incrementZ (n : Z) (x : option Z) : option Z := (fun v => (v + n)%Z) <$> x.
Definition incrementQ (n : Q) (x : option Q) : option Q := (fun v => v + n) <$> x.

(** The step [if (customerId && pointsUsed && pointsUsed > 0)]: the points
    are taken from a customer who is found and has as many. *)
Definition usePoints (customerId pointsUsed : option Z)
    (customers : gmap Z Customer.t) : gmap Z Customer.t :=
  match customerId, pointsUsed with
  | Some cid, Some used =>
      if negb (cid =? 0)%Z && (0 <? used)%Z then
        match customers !! cid with
        | Some customer =>
            if (used <=? default 0%Z (Customer.points customer))%Z then
              <[cid := Customer.mk (incrementZ (- used) (Customer.points customer))
                         (Customer.totalOrders customer)
                         (Customer.totalMoneySpent customer)]> customers
            else customers
        | None => customers
        end
      else customers
  | _, _ => customers
  end.

(** [Math.floor(Number(total_amount) / 100)]. *)
Definition earnedPoints (total_amount : Q) : Z := Qfloor (total_amount / 100).

(** The step [if (customerId)] of [POST /]: [customer.update] throws when
    the customer is not found. *)
Definition creditCustomer (customerId : option Z) (total_amount : Q)
    (customers : gmap Z Customer.t) : gmap Z Customer.t * option PrismaError :=
  match customerId with
  | Some cid =>
      if (cid =? 0)%Z then (customers, None)
      else
        match customers !! cid with
        | Some customer =>
            (<[cid := Customer.mk
                        (incrementZ (earnedPoints total_amount) (Customer.points customer))
                        (incrementZ 1 (Customer.totalOrders customer))
                        (incrementQ total_amount (Customer.totalMoneySpent customer))]>
               customers,
             None)
        | None => (customers, Some RecordNotFound)
        end
  | None => (customers, None)
  end.

(** The check [if (tableId)] before the order is created. *)
Definition tableRefusal (tables : gmap Z Table.t) (tableId : option Z) : option Response :=
  if falsyId tableId then None
  else
    match tables !! default 0%Z tableId with
    | None => Some (mkResponse 404 (ErrorBody "Table not found"))
    | Some table =>
        if Table.isBooked table then Some (mkResponse 400 (ErrorBody "Table already booked"))
        else None
    end.

(** [table.update({ where: { id: tableId }, data: { isBooked: true, orderId } })]. *)
Definition linkTable (tableId : option Z) (orderId : Z)
    (tables : gmap Z Table.t) : gmap Z Table.t :=
  if falsyId tableId then tables
  else <[default 0%Z tableId := Table.mk true (Some orderId)]> tables.

Definition serverError (message : string) : OrderReply :=
  Refused (mkResponse 500 (MessageBody message)).

(** *** [POST /]
    [customer] is [decoded.id] of a bearer token that verifies, [None] for a
    guest. *)
Definition postOrder (shop : Shop) (customer : option Z) (body : OrderBody)
    : OrderReply * Shop :=
  if falsyId (businessId body) then
    (Refused (mkResponse 400 (MessageBody "Missing business ID")), shop)
  else if falsyId (table_number body) && falsyId (tableId body) then
    (Refused (mkResponse 400 (MessageBody "Either table_number or tableId is required")),
     shop)
  else if (length (cart_items body) =? 0)%nat then
    (Refused (mkResponse 400 (MessageBody "Cart items must be a non-empty array")), shop)
  else
    match tableRefusal (tables shop) (tableId body) with
    | Some answer => (Refused answer, shop)
    | None =>
        if falsyId (table_number body) || falsyAmount (total_amount body)
           || falsyString (payment_method body) || falsyString (estimated_time body)
        then (Refused (mkResponse 400 (MessageBody "Missing required fields")), shop)
        else
          let total := default 0 (total_amount body) in
          let business := default 0%Z (businessId body) in
          let order :=
            Order.mk (nextOrderId shop) business "Pending" total
              (map orderItemOf (cart_items body)) in
          let store1 :=
            setOrders (<[nextOrderId shop := order]> (orders (store shop))) (store shop) in
          let tables1 := linkTable (tableId body) (Order.id order) (tables shop) in
          let customers1 := usePoints customer (pointsUsed body) (customers shop) in
          match creditCustomer customer total customers1 with
          | (customers2, Some _) =>
              (serverError "Server error while creating order",
               mkShop store1 (nextOrderId shop + 1)%Z tables1 customers2
                 (products shop) (inventory shop))
          | (customers2, None) =>
              let '(inventory1, thrown) :=
                updateInventoryStock (products shop) business
                  (map cartItemOf (cart_items body)) (inventory shop) in
              let shop1 :=
                mkShop store1 (nextOrderId shop + 1)%Z tables1 customers2
                  (products shop) inventory1 in
              match thrown with
              | Some _ => (serverError "Server error while creating order", shop1)
              | None =>
                  (Placed (OrderId.format (Order.id order)) (Order.status order)
                     (Order.items order),
                   shop1)
              end
          end
    end.

(** *** [PUT /:orderId] *)
Definition putOrder (shop : Shop) (orderIdParam : option Z) (body : OrderBody)
    : OrderReply * Shop :=
  if falsyId (businessId body) then
    (Refused (mkResponse 400 (MessageBody "Missing business ID")), shop)
  else if (length (cart_items body) =? 0)%nat then
    (Refused (mkResponse 400 (MessageBody "Cart items must be a non-empty array")), shop)
  else if falsyId (table_number body) || falsyAmount (total_amount body)
          || falsyString (payment_method body) || falsyString (estimated_time body)
  then (Refused (mkResponse 400 (MessageBody "Missing required fields")), shop)
  else
    match orderIdParam with
    | None => (serverError "Server error while updating order", shop)
    | Some orderId =>
        let business := default 0%Z (businessId body) in
        match ownedOrder (store shop) orderId business with
        | None =>
            (Refused (mkResponse 403 (MessageBody "Not allowed to update this order")), shop)
        | Some existingOrder =>
            let total := default 0 (total_amount body) in
            let updated :=
              Order.setTotalAmount total
                (Order.setItems (map orderItemOf (cart_items body)) existingOrder) in
            let orderStatus := orderStatus (Order.items updated) in
            let store1 :=
              setOrders (<[orderId := Order.setStatus orderStatus updated]>
                           (orders (store shop)))
                (store shop) in
            let customers1 :=
              usePoints (customerId body) (pointsUsed body) (customers shop) in
            let '(inventory1, thrown) :=
              updateInventoryStock (products shop) business
                (map cartItemOf (cart_items body)) (inventory shop) in
            let shop1 :=
              mkShop store1 (nextOrderId shop) (tables shop) customers1
                (products shop) inventory1 in
            match thrown with
            | Some _ => (serverError "Server error while updating order", shop1)
            | None =>
                (Updated (OrderId.format (Order.id updated)) (Order.totalAmount updated)
                   orderStatus (Order.items updated),
                 shop1)
            end
        end
    end.

(** ** Vocabulary of the further properties *)

(** The order [k] and its bill are the same in [db'] as in [db]. *)
Definition sameAt (db db' : DB) (k : Z) : Prop :=
  orders db' !! k = orders db !! k /\ bills db' !! k = bills db !! k.

(** The order [k] exists and belongs to another business than [businessId]. *)
Definition foreignOrder (db : DB) (businessId k : Z) : Prop :=
  exists o, orders db !! k = Some o /\ Order.businessId o <> businessId.

(** The status codes with which the routes report success. *)
Definition accepted (r : Response) : bool :=
  (statusCode r =? 200)%Z || (statusCode r =? 201)%Z.

(** What an item is apart from its status. *)
Definition sameSnapshot (i i' : OrderItem.t) : Prop :=
  OrderItem.productId i' = OrderItem.productId i
  /\ OrderItem.name i' = OrderItem.name i
  /\ OrderItem.price i' = OrderItem.price i
  /\ OrderItem.quantity i' = OrderItem.quantity i.

(** An accepted request comes from the business [b] that owns the order
    [oid], and leaves every other order and bill as it was. *)
Definition writesOwn (db db' : DB) (bo : option Z) (oid : Z) : Prop :=
  exists b order,
    bo = Some b /\ ownedOrder db oid b = Some order
    /\ forall k, k <> oid -> sameAt db db' k.

(** The two sets of rates contribute the same, rate by rate. *)
Definition sameRates (t1 t2 : TaxRates) : Prop :=
  rateValue (vatLow t1) == rateValue (vatLow t2)
  /\ rateValue (vatHigh t1) == rateValue (vatHigh t2)
  /\ rateValue (serviceTax t1) == rateValue (serviceTax t2)
  /\ rateValue (serviceCharge t1) == rateValue (serviceCharge t2).

(** The two results are the same, amount by amount. *)
Definition sameTotals (r1 r2 : Totals) : Prop :=
  vatLowAmount r1 == vatLowAmount r2
  /\ vatHighAmount r1 == vatHighAmount r2
  /\ serviceTaxAmount r1 == serviceTaxAmount r2
  /\ serviceChargeAmount r1 == serviceChargeAmount r2
  /\ totalAmount r1 == totalAmount r2.

(** A whole number of hundredths. *)
Definition isHundredths (x : Q) : Prop := exists z : Z, x == inject_Z z / 100.

(** No rate is negative. *)
Definition ratesNonneg (t : TaxRates) : Prop :=
  0 <= rateValue (vatLow t) /\ 0 <= rateValue (vatHigh t)
  /\ 0 <= rateValue (serviceTax t) /\ 0 <= rateValue (serviceCharge t).

(** [after] is [before] with the records that satisfy [keep] left exactly
    as they were, and every record with its name and business. *)
Definition keptWhere (keep : InventoryItem.t -> Prop)
    (before after : list InventoryItem.t) : Prop :=
  Forall2
    (fun r r' =>
       InventoryItem.name r' = InventoryItem.name r
       /\ InventoryItem.businessId r' = InventoryItem.businessId r
       /\ (keep r -> r' = r))
    before after.

(** The ingredients that a cart names, over all its lines. *)
Definition cartIngredients (products : gmap Z Metadata) (cart_items : list CartItem.t)
    : list Ingredient.t :=
  flat_map (fun item => presentEntries (default [] (recipeOf products item))) cart_items.

(** The record is of another business, or no ingredient of the cart with a
    numeric quantity has its name. *)
Definition notConcerned (products : gmap Z Metadata) (businessId : Z)
    (cart_items : list CartItem.t) (r : InventoryItem.t) : Prop :=
  InventoryItem.businessId r <> businessId
  \/ forall ing, In ing (cartIngredients products cart_items) ->
                 isNumeric ing = true ->
                 Ingredient.name ing <> InventoryItem.name r.

(** The identifier a reply shows, read back as the order routes read it. *)
Definition shownOrderId (r : OrderReply) : option Z :=
  match r with
  | Refused _ => None
  | Placed order_id _ _ => OrderId.parse order_id
  | Updated order_id _ _ _ => OrderId.parse order_id
  end.

(** The points a customer with [points] pays with, of the [pointsUsed] of a
    request. *)
Definition pointsTaken (pointsUsed : option Z) (points : Z) : Z :=
  match pointsUsed with
  | Some used => if (0 <? used)%Z && (used <=? points)%Z then used else 0%Z
  | None => 0%Z
  end.

(** The identifiers of the orders are below the auto-increment counter. *)
Definition freshOrderIds (shop : Shop) : Prop :=
  forall k, (nextOrderId shop <= k)%Z -> orders (store shop) !! k = None.

Definition arrivesCompleted (line : CartLine.t) : Prop :=
  CartLine.status line = Some "Completed".

(** ** A small restaurant, for the concrete cases *)

Module Sample.

Definition soup : OrderItem.t := OrderItem.mk (Some 11%Z) "Soup" 100 1 "Pending".

Definition order1 : Order.t := Order.mk 1 7 "Pending" 100 [soup].

(** One order of business 7, not billed yet. *)
Definition db0 : DB := mkDB {[ 1%Z := order1 ]} ∅ 1.

Definition rates0 : TaxRates := mkTaxRates (Some 10) (Some 5) None None.

(** The same order with a bill whose image links ran out at time 1000. *)
Definition oldBill : Bill.t :=
  Bill.mk 1 1 7 115 rates0 (Some "https://img.example/bill_1.png") (Some "bill_1")
    (Some "https://img.example/bill_1m.png") (Some "bill_1m") (Some 1000%Z).

Definition dbOld : DB := mkDB {[ 1%Z := order1 ]} {[ 1%Z := oldBill ]} 2.

End Sample.

Module SampleCharges.

(** The order of [Sample.db0] billed at 10 % and 5 %, and then a request to
    [update-charges] whose body has only [vatLow: 20]. *)
Definition billed : DB := snd (postBill Sample.db0 (Some 7%Z) 1 Sample.rates0).

Definition onlyVatLow : TaxRates := mkTaxRates (Some 20) None None None.

Definition recharged : DB := snd (updateCharges billed (Some 7%Z) (Some 1%Z) onlyVatLow).

End SampleCharges.

Module SampleReaper.

Definition bill1 : Bill.t :=
  Bill.mk 1 1 7 115 noRates (Some "https://img.example/a.png") (Some "a") None None
    (Some 10%Z).

Definition bill2 : Bill.t :=
  Bill.mk 2 2 7 230 noRates (Some "https://img.example/b.png") (Some "b") None None
    (Some 20%Z).

(** A bill without image, and one that has not run out at time 100. *)
Definition bill3 : Bill.t := Bill.mk 3 3 7 50 noRates None None None None (Some 100%Z).

Definition bill4 : Bill.t :=
  Bill.mk 4 4 7 75 noRates (Some "https://img.example/d.png") (Some "d") None None
    (Some 101%Z).

Definition table : list Bill.t := [bill1; bill2; bill3; bill4].

(** The image store refuses every request; the datastore works. *)
Definition imagesDown : Reaper.World :=
  Reaper.mkWorld (fun _ => false) (fun _ => true).

(** The image store works; the datastore fails to delete the row 1. *)
Definition row1Stuck : Reaper.World :=
  Reaper.mkWorld (fun _ => true) (fun id => negb (id =? 1)%Z).



End SampleReaper.

Module SampleStock.

(** A soup that takes 0.2 of flour, salt in a quantity that is not a
    number, and 2 of water. *)
Definition soupRecipe : Metadata :=
  MetadataObject
    (IngredientList
       [Some (Ingredient.mk "flour" 0.2%float);
        Some (Ingredient.mk "salt" nan);
        Some (Ingredient.mk "water" 2%float)]).

(** A stew whose [ingredients] is an object, not an array, and a pie whose
    second ingredient is [null]. *)
Definition stewRecipe : Metadata := MetadataObject NotIterable.

Definition pieRecipe : Metadata :=
  MetadataObject (IngredientList [Some (Ingredient.mk "flour" 0.5%float); None]).

Definition products : gmap Z Metadata :=
  {[ 11%Z := soupRecipe; 12%Z := stewRecipe; 13%Z := pieRecipe ]}.

Definition inventory : list InventoryItem.t :=
  [InventoryItem.mk "flour" 7 10%float;
   InventoryItem.mk "flour" 8 10%float;
   InventoryItem.mk "salt" 7 5%float;
   InventoryItem.mk "water" 7 1%float].

(** Three soups. *)
Definition cart : list CartItem.t := [CartItem.mk (Some 11%Z) 3].


End SampleStock.

Module SampleShop.

(** The order of business 7, billed, beside an order of business 8. *)
Definition tea : OrderItem.t := OrderItem.mk (Some 21%Z) "Tea" 20 2 "Pending".

Definition order2 : Order.t := Order.mk 2 8 "Pending" 40 [tea].

Definition twoBusinesses : DB :=
  mkDB (<[2%Z := order2]> (orders Sample.dbOld)) (bills Sample.dbOld) 2.

(** An order without items. *)
Definition emptyOrder : Order.t := Order.mk 3 7 "Pending" 0 [].

Definition withEmptyOrder : DB := mkDB {[ 3%Z := emptyOrder ]} ∅ 1.

Definition link : StoreLinkBody :=
  mkStoreLinkBody "https://img.example/bill_9.png" "bill_9" None.

(** A test of the URI syntax that accepts the links of the image store of
    the examples, which start with "https://", and no other string. *)
Definition httpsLinks (s : string) : bool := String.prefix "https://" s.

Definition coffee : ExtraDish.t := ExtraDish.mk "Coffee" (5 # 2) 2.

(** The shop of [Sample.db0]: a free table 5, a customer 3 with 12 points,
    the soup and the stock of [SampleStock]. *)
Definition shop0 : Shop :=
  mkShop Sample.db0 2 {[ 5%Z := Table.mk false None ]}
    {[ 3%Z := Customer.mk (Some 12%Z) (Some 4%Z) (Some 900) ]}
    SampleStock.products SampleStock.inventory.

(** Three soups that arrive "Completed", for table 5, paid with 10 points. *)
Definition soups : CartLine.t := CartLine.mk (Some 11%Z) 3 100 "Soup" (Some "Completed").

Definition body0 : OrderBody :=
  mkOrderBody (Some 7%Z) (Some 4%Z) (Some 5%Z) [soups] (Some 300) (Some "cash")
    (Some "20 min") (Some 10%Z) None.




End SampleShop.

(** * Properties *)

(** ** Facts about the decimal arithmetic *)

Module DecimalFacts.
Import Decimal.

Lemma pow10_pos k : 0 < pow10 k.
Proof. apply Qpower_0_lt. reflexivity. Qed.

Lemma pow10_plus a b : pow10 (a + b) == pow10 a * pow10 b.
Proof. apply Qpower_plus. discriminate. Qed.

Lemma pow10_0 : pow10 0 == 1.
Proof. reflexivity. Qed.

Lemma pow10_cancel k : pow10 k * pow10 (- k) == 1.
Proof. rewrite <- pow10_plus, Z.add_opp_diag_r. reflexivity. Qed.

Lemma pow10_le a b : (a <= b)%Z -> pow10 a <= pow10 b.
Proof. intros H. apply Qpower_le_compat_l; [exact H | discriminate]. Qed.

Lemma pow10_lt_inv a b : pow10 a < pow10 b -> (a < b)%Z.
Proof. intros H. apply (Qpower_lt_compat_l_inv _ _ _ H). reflexivity. Qed.

Lemma pow10_Z k : (0 <= k)%Z -> pow10 k == inject_Z (10 ^ k).
Proof. intros H. unfold pow10. rewrite Zpower_Qpower by exact H. reflexivity. Qed.

(** *** Rounding at a fixed decimal place *)

Lemma roundPos_mono x y dp : x <= y -> roundPos x dp <= roundPos y dp.
Proof.
  intros H. unfold roundPos.
  apply Qmult_le_compat_r; [| apply Qlt_le_weak, pow10_pos].
  rewrite <- Zle_Qle. apply Qfloor_resp_le.
  apply Qplus_le_l. apply Qmult_le_compat_r; [exact H | apply Qlt_le_weak, pow10_pos].
Qed.

Lemma roundPos_grid z dp :
  roundPos (inject_Z z * pow10 (- dp)) dp == inject_Z z * pow10 (- dp).
Proof.
  unfold roundPos.
  assert (E : inject_Z z * pow10 (- dp) * pow10 dp + (1 # 2) == inject_Z z + (1 # 2)).
  { rewrite <- Qmult_assoc, (Qmult_comm (pow10 (- dp))), pow10_cancel. ring. }
  rewrite E.
  assert (F : Qfloor (inject_Z z + (1 # 2)) = z).
  { pose proof (Qfloor_le (inject_Z z + (1 # 2))) as H1.
    pose proof (Qlt_floor (inject_Z z + (1 # 2))) as H2.
    set (f := Qfloor (inject_Z z + (1 # 2))) in *.
    rewrite inject_Z_plus in H2. change (inject_Z 1) with 1 in H2.
    assert (G1 : inject_Z f < inject_Z (z + 1)).
    { rewrite inject_Z_plus. change (inject_Z 1) with 1. lra. }
    assert (G2 : inject_Z z < inject_Z (f + 1)).
    { rewrite inject_Z_plus. change (inject_Z 1) with 1. lra. }
    rewrite <- Zlt_Qlt in G1, G2. lia. }
  rewrite F. reflexivity.
Qed.

Lemma roundPos_nonneg x dp : 0 <= x -> 0 <= roundPos x dp.
Proof.
  intros H. unfold roundPos.
  apply Qmult_le_0_compat; [| apply Qlt_le_weak, pow10_pos].
  change 0 with (inject_Z 0). rewrite <- Zle_Qle.
  change 0%Z with (Qfloor 0). apply Qfloor_resp_le.
  pose proof (pow10_pos dp).
  assert (0 <= x * pow10 dp) by (apply Qmult_le_0_compat; lra). lra.
Qed.

(** *** Counting digits *)

Lemma size_nat_bound p : (Zpos p < 2 ^ Z.of_nat (Pos.size_nat p))%Z.
Proof.
  induction p as [p IH | p IH |]; cbn [Pos.size_nat];
    rewrite ?Nat2Z.inj_succ, ?Z.pow_succ_r by lia; lia.
Qed.

Lemma digits10_aux_spec fuel :
  forall n, (0 < n < 2 ^ Z.of_nat fuel)%Z ->
    (1 <= digits10_aux fuel n
     /\ 10 ^ (digits10_aux fuel n - 1) <= n < 10 ^ digits10_aux fuel n)%Z.
Proof.
  induction fuel as [| fuel IH]; intros n Hn.
  - simpl in Hn. lia.
  - cbn [digits10_aux]. destruct (Z.ltb_spec n 10) as [Hlt | Hge].
    + simpl. lia.
    + rewrite Nat2Z.inj_succ, Z.pow_succ_r in Hn by lia.
      assert (Hq : (0 < n / 10 < 2 ^ Z.of_nat fuel)%Z).
      { split.
        - apply Z.div_str_pos. lia.
        - apply Z.div_lt_upper_bound; lia. }
      destruct (IH _ Hq) as (Hd & Hlo & Hhi).
      set (d := digits10_aux fuel (n / 10)) in *.
      pose proof (Z.div_mod n 10 ltac:(lia)) as Hdm.
      pose proof (Z.mod_pos_bound n 10 ltac:(lia)) as Hm.
      replace (1 + d - 1)%Z with (Z.succ (d - 1)) by lia.
      replace (1 + d)%Z with (Z.succ d) by lia.
      rewrite !Z.pow_succ_r by lia.
      lia.
Qed.

Lemma digits10_spec p :
  (1 <= digits10 p /\ 10 ^ (digits10 p - 1) <= Zpos p < 10 ^ digits10 p)%Z.
Proof.
  apply digits10_aux_spec. split; [lia | apply size_nat_bound].
Qed.

(** *** The decimal exponent *)

Lemma Qmake_times_den n d : (n # d) * inject_Z (Zpos d) == inject_Z n.
Proof. unfold Qeq, Qmult, inject_Z. simpl. lia. Qed.

Lemma exponentPos_spec n d :
  pow10 (exponentPos n d) <= Zpos n # d < pow10 (exponentPos n d + 1).
Proof.
  destruct (digits10_spec n) as (Ha & Hnlo & Hnhi).
  destruct (digits10_spec d) as (Hb & Hdlo & Hdhi).
  unfold exponentPos.
  set (a := digits10 n) in *. set (b := digits10 d) in *.
  assert (Dpos : 0 < inject_Z (Zpos d)) by reflexivity.
  destruct (Qle_bool (pow10 (a - b)) (Zpos n # d)) eqn:E.
  - apply Qle_bool_iff in E. split; [exact E |].
    apply (Qmult_lt_r _ _ _ Dpos). rewrite Qmake_times_den.
    apply Qlt_le_trans with (pow10 a).
    + rewrite pow10_Z by lia. rewrite <- Zlt_Qlt. exact Hnhi.
    + replace a with ((a - b + 1) + (b - 1))%Z at 1 by lia.
      rewrite pow10_plus. apply Qmult_le_l; [apply pow10_pos |].
      rewrite pow10_Z by lia. rewrite <- Zle_Qle. exact Hdlo.
  - assert (F : Zpos n # d < pow10 (a - b)).
    { apply Qnot_le_lt. intros H. apply Qle_bool_iff in H. congruence. }
    split.
    + apply (Qmult_le_r _ _ _ Dpos). rewrite Qmake_times_den.
      apply Qle_trans with (pow10 (a - 1)).
      * replace (a - 1)%Z with ((a - b - 1) + b)%Z at 1 by lia.
        rewrite pow10_plus. apply Qmult_le_l; [apply pow10_pos |].
        rewrite pow10_Z by lia. rewrite <- Zle_Qle. lia.
      * rewrite pow10_Z by lia. rewrite <- Zle_Qle. exact Hnlo.
    + replace (a - b - 1 + 1)%Z with (a - b)%Z by lia. exact F.
Qed.

Lemma exponent_spec x : 0 < x -> pow10 (exponent x) <= x < pow10 (exponent x + 1).
Proof.
  destruct x as [[| n | n] d]; intros H.
  - discriminate H.
  - apply exponentPos_spec.
  - discriminate H.
Qed.

Lemma exponent_unique x e :
  pow10 e <= x < pow10 (e + 1) -> exponent x = e.
Proof.
  intros [Hlo Hhi].
  assert (Hx : 0 < x) by (eapply Qlt_le_trans; [apply (pow10_pos e) | exact Hlo]).
  destruct (exponent_spec x Hx) as [Glo Ghi].
  assert (exponent x < e + 1)%Z
    by (apply pow10_lt_inv; eapply Qle_lt_trans; eassumption).
  assert (e < exponent x + 1)%Z
    by (apply pow10_lt_inv; eapply Qle_lt_trans; eassumption).
  lia.
Qed.

Lemma exponent_opp x : exponent (- x) = exponent x.
Proof. destruct x as [[| n | n] d]; reflexivity. Qed.

Lemma exponent_comp x y : x == y -> exponent x = exponent y.
Proof.
  intros E.
  destruct (Q_dec 0 x) as [[Hpos | Hneg] | Hz].
  - apply exponent_unique. rewrite E. apply exponent_spec. rewrite <- E. exact Hpos.
  - rewrite <- (exponent_opp x), <- (exponent_opp y).
    apply exponent_unique. rewrite E. apply exponent_spec. rewrite <- E. lra.
  - assert (Hy : y == 0) by (rewrite <- E, <- Hz; reflexivity).
    assert (Hx : x == 0) by (rewrite <- Hz; reflexivity).
    destruct x as [[| n | n] d], y as [[| m | m] d']; try reflexivity;
      unfold Qeq in Hx, Hy; simpl in Hx, Hy; lia.
Qed.

(** *** The operations respect the equality of rationals *)

#[global] Instance roundPos_comp : Proper (Qeq ==> eq ==> Qeq) roundPos.
Proof. intros x y E dp ? <-. unfold roundPos. rewrite E. reflexivity. Qed.

Lemma roundPos_0 dp : roundPos 0 dp == 0.
Proof.
  pose proof (roundPos_grid 0 dp) as H.
  assert (E : inject_Z 0 * pow10 (- dp) == 0) by ring.
  rewrite E in H. exact H.
Qed.

Lemma roundHalfUp_nonneg x dp : 0 <= x -> roundHalfUp x dp = roundPos x dp.
Proof. intros H. unfold roundHalfUp. apply Qle_bool_iff in H. rewrite H. reflexivity. Qed.

Lemma roundHalfUp_neg x dp : x < 0 -> roundHalfUp x dp = - roundPos (- x) dp.
Proof.
  intros H. unfold roundHalfUp. destruct (Qle_bool 0 x) eqn:E; [| reflexivity].
  apply Qle_bool_iff in E. lra.
Qed.

#[global] Instance roundHalfUp_comp : Proper (Qeq ==> eq ==> Qeq) roundHalfUp.
Proof.
  intros x y E dp ? <-. destruct (Qlt_le_dec x 0) as [H | H].
  - rewrite (roundHalfUp_neg x), (roundHalfUp_neg y) by (rewrite <- ?E; exact H).
    rewrite E. reflexivity.
  - rewrite (roundHalfUp_nonneg x), (roundHalfUp_nonneg y) by (rewrite <- ?E; exact H).
    rewrite E. reflexivity.
Qed.

Lemma roundHalfUp_opp x dp : roundHalfUp (- x) dp == - roundHalfUp x dp.
Proof.
  destruct (Q_dec 0 x) as [[Hpos | Hneg] | Hz].
  - rewrite (roundHalfUp_neg (- x)) by lra. rewrite (roundHalfUp_nonneg x) by lra.
    rewrite Qopp_involutive. reflexivity.
  - rewrite (roundHalfUp_nonneg (- x)) by lra. rewrite (roundHalfUp_neg x) by lra.
    rewrite Qopp_involutive. reflexivity.
  - rewrite <- Hz. change (- 0) with 0.
    rewrite roundHalfUp_nonneg by lra. rewrite roundPos_0. reflexivity.
Qed.

#[global] Instance finalise_comp : Proper (Qeq ==> eq ==> Qeq) finalise.
Proof.
  intros x y E sd ? <-. unfold finalise.
  rewrite (exponent_comp x y E), E. reflexivity.
Qed.

#[global] Instance mul_comp : Proper (Qeq ==> Qeq ==> Qeq) mul.
Proof. intros x y E x' y' E'. unfold mul. rewrite E, E'. reflexivity. Qed.

#[global] Instance div_comp : Proper (Qeq ==> Qeq ==> Qeq) div.
Proof. intros x y E x' y' E'. unfold div. rewrite E, E'. reflexivity. Qed.

#[global] Instance plus_comp : Proper (Qeq ==> Qeq ==> Qeq) plus.
Proof. intros x y E x' y' E'. unfold plus. rewrite E, E'. reflexivity. Qed.

Lemma finalise_opp x sd : finalise (- x) sd == - finalise x sd.
Proof. unfold finalise. rewrite exponent_opp. apply roundHalfUp_opp. Qed.

(** *** Rounding to significant digits is monotone on non-negative values *)

Lemma roundPos_pow10 k dp : (0 <= k + dp)%Z -> roundPos (pow10 k) dp == pow10 k.
Proof.
  intros H.
  assert (E : pow10 k == inject_Z (10 ^ (k + dp)) * pow10 (- dp)).
  { rewrite <- pow10_Z by exact H. rewrite <- pow10_plus.
    replace (k + dp + - dp)%Z with k by lia. reflexivity. }
  rewrite E at 1. rewrite roundPos_grid. symmetry. exact E.
Qed.

Lemma finalise_0 sd : finalise 0 sd == 0.
Proof. unfold finalise. rewrite roundHalfUp_nonneg by lra. apply roundPos_0. Qed.

Lemma finalise_nonneg x sd : 0 <= x -> 0 <= finalise x sd.
Proof.
  intros H. unfold finalise. rewrite roundHalfUp_nonneg by exact H.
  apply roundPos_nonneg, H.
Qed.

Lemma finalise_mono x y sd :
  (1 <= sd)%Z -> 0 <= x -> x <= y -> finalise x sd <= finalise y sd.
Proof.
  intros Hsd Hx Hxy.
  destruct (Qle_lt_or_eq _ _ Hx) as [Hpos | Hz].
  2:{ rewrite <- Hz, finalise_0. apply finalise_nonneg. lra. }
  assert (Hy : 0 < y) by lra.
  destruct (exponent_spec x Hpos) as [Xlo Xhi].
  destruct (exponent_spec y Hy) as [Ylo Yhi].
  unfold finalise. rewrite !roundHalfUp_nonneg by lra.
  set (ex := exponent x) in *. set (ey := exponent y) in *.
  assert (Hle : (ex < ey + 1)%Z) by (apply pow10_lt_inv; lra).
  destruct (Z.eq_dec ex ey) as [-> | Hne].
  - apply roundPos_mono, Hxy.
  - apply Qle_trans with (pow10 (ex + 1)).
    + rewrite <- (roundPos_pow10 (ex + 1) (sd - 1 - ex)) by lia.
      apply roundPos_mono. lra.
    + apply Qle_trans with (pow10 ey); [apply pow10_le; lia |].
      rewrite <- (roundPos_pow10 ey (sd - 1 - ey)) at 1 by lia.
      apply roundPos_mono, Ylo.
Qed.

End DecimalFacts.


(** ** Facts about the calculator *)

Section CalculatorFacts.
Import Decimal DecimalFacts.

Lemma precision_pos : (1 <= precision)%Z.
Proof. unfold precision. lia. Qed.

Lemma mul_nonneg x y : 0 <= x -> 0 <= y -> 0 <= mul x y.
Proof. intros. apply finalise_nonneg, Qmult_le_0_compat; assumption. Qed.

Lemma mul_mono x x' y y' :
  0 <= x -> x <= x' -> 0 <= y -> y <= y' -> mul x y <= mul x' y'.
Proof.
  intros. apply finalise_mono; [apply precision_pos | |].
  - apply Qmult_le_0_compat; assumption.
  - apply Qmult_le_compat_nonneg; split; assumption.
Qed.

Lemma div100_nonneg x : 0 <= x -> 0 <= div x 100.
Proof. intros. apply finalise_nonneg. apply Qle_shift_div_l; [reflexivity | lra]. Qed.

Lemma div100_mono x y : 0 <= x -> x <= y -> div x 100 <= div y 100.
Proof.
  intros. apply finalise_mono; [apply precision_pos | |].
  - apply Qle_shift_div_l; [reflexivity | lra].
  - unfold Qdiv. apply Qmult_le_compat_r; [assumption | discriminate].
Qed.

Lemma plus_nonneg x y : 0 <= x -> 0 <= y -> 0 <= plus x y.
Proof. intros. apply finalise_nonneg. lra. Qed.

Lemma plus_mono x x' y y' :
  0 <= x -> x <= x' -> 0 <= y -> y <= y' -> plus x y <= plus x' y'.
Proof. intros. apply finalise_mono; [apply precision_pos | |]; lra. Qed.

Lemma round_nonneg x : 0 <= x -> 0 <= round x.
Proof.
  intros H. unfold round, toNumber, toDecimalPlaces.
  rewrite roundHalfUp_nonneg by exact H. apply roundPos_nonneg, H.
Qed.

Lemma round_mono x y : 0 <= x -> x <= y -> round x <= round y.
Proof.
  intros Hx Hxy. unfold round, toNumber, toDecimalPlaces.
  rewrite !roundHalfUp_nonneg by lra. apply roundPos_mono, Hxy.
Qed.

(** A falsy rate gives the same amount as the rate [0] would. *)
Lemma taxAmount_rateValue b r :
  taxAmount b r == div (mul b (rateValue r)) 100.
Proof.
  assert (Z0 : div (mul b 0) 100 == 0).
  { unfold div, mul. rewrite Qmult_0_r, finalise_0.
    assert (E : 0 / 100 == 0) by reflexivity. rewrite E. apply finalise_0. }
  destruct r as [v |]; simpl.
  - destruct (Qeq_bool v 0) eqn:E; [| reflexivity].
    apply Qeq_bool_iff in E. rewrite E. symmetry. exact Z0.
  - symmetry. exact Z0.
Qed.

Lemma taxAmount_nonneg b r : 0 <= b -> 0 <= rateValue r -> 0 <= taxAmount b r.
Proof.
  intros. rewrite taxAmount_rateValue. apply div100_nonneg, mul_nonneg; assumption.
Qed.

Lemma taxAmount_mono b b' r r' :
  0 <= b -> b <= b' -> 0 <= rateValue r -> rateValue r <= rateValue r' ->
  taxAmount b r <= taxAmount b' r'.
Proof.
  intros. rewrite !taxAmount_rateValue.
  apply div100_mono; [apply mul_nonneg | apply mul_mono]; assumption.
Qed.

(** *** Values that fit the precision are not changed by an operation *)

Lemma finalise_exact_pos sd m e :
  (0 < m < 10 ^ sd)%Z ->
  finalise (inject_Z m * pow10 e) sd == inject_Z m * pow10 e.
Proof.
  intros [Hm Hsd].
  destruct m as [| p | p]; try lia.
  destruct (digits10_spec p) as (Hd & Hlo & Hhi).
  set (d := digits10 p) in *.
  assert (Hsd0 : (0 <= sd)%Z).
  { destruct (Z.leb_spec 0 sd); [assumption |].
    rewrite Z.pow_neg_r in Hsd by lia. lia. }
  assert (Hdsd : (d <= sd)%Z).
  { assert (10 ^ (d - 1) < 10 ^ sd)%Z by lia.
    apply Z.pow_lt_mono_r_iff in H; lia. }
  assert (Hx : 0 <= inject_Z (Zpos p) * pow10 e).
  { apply Qmult_le_0_compat; [discriminate | apply Qlt_le_weak, pow10_pos]. }
  assert (He : exponent (inject_Z (Zpos p) * pow10 e) = (d - 1 + e)%Z).
  { apply exponent_unique. split.
    - rewrite pow10_plus. apply Qmult_le_compat_r; [| apply Qlt_le_weak, pow10_pos].
      rewrite pow10_Z by lia. rewrite <- Zle_Qle. exact Hlo.
    - replace (d - 1 + e + 1)%Z with (d + e)%Z by lia.
      rewrite pow10_plus. apply Qmult_lt_r; [apply pow10_pos |].
      rewrite pow10_Z by lia. rewrite <- Zlt_Qlt. exact Hhi. }
  unfold finalise. rewrite He. rewrite roundHalfUp_nonneg by exact Hx.
  assert (E : inject_Z (Zpos p) * pow10 e ==
              inject_Z (Zpos p * 10 ^ (sd - d)) * pow10 (- (sd - 1 - (d - 1 + e)))).
  { rewrite inject_Z_mult, <- pow10_Z by lia.
    rewrite <- Qmult_assoc, <- pow10_plus.
    replace (sd - d + - (sd - 1 - (d - 1 + e)))%Z with e by lia. reflexivity. }
  rewrite E at 1. rewrite roundPos_grid. symmetry. exact E.
Qed.

Lemma finalise_exact sd x : atMostDigits sd x -> finalise x sd == x.
Proof.
  intros (m & e & Hm & E). rewrite E.
  destruct (Z.lt_trichotomy m 0) as [Hneg | [-> | Hpos]].
  - assert (F : inject_Z m * pow10 e == - (inject_Z (- m) * pow10 e)).
    { rewrite inject_Z_opp. ring. }
    rewrite F, finalise_opp, finalise_exact_pos by lia. reflexivity.
  - assert (F : inject_Z 0 * pow10 e == 0) by ring.
    rewrite F. apply finalise_0.
  - apply finalise_exact_pos. lia.
Qed.

Lemma atMostDigits_div100 sd x : atMostDigits sd x -> atMostDigits sd (x / 100).
Proof.
  intros (m & e & Hm & E). exists m, (e - 2)%Z. split; [exact Hm |].
  rewrite E. unfold Z.sub. rewrite pow10_plus.
  change (pow10 (- (2))) with (1 # 100). field.
Qed.

(** The tax amount in exact arithmetic, when the product fits. *)
Lemma taxAmount_exact b r :
  atMostDigits precision (b * rateValue r) ->
  taxAmount b r == b * rateValue r / 100.
Proof.
  intros H. rewrite taxAmount_rateValue.
  assert (M : mul b (rateValue r) == b * rateValue r) by (apply finalise_exact, H).
  rewrite M. apply finalise_exact, atMostDigits_div100, H.
Qed.

Lemma round_taxAmount_exact b r :
  atMostDigits precision (b * rateValue r) ->
  round (taxAmount b r) == exactTax b r.
Proof.
  intros H. unfold round, toNumber, toDecimalPlaces, exactTax.
  rewrite (taxAmount_exact b r H). reflexivity.
Qed.

(** *** Money amounts and two-decimal percentages stay within the precision *)

Lemma money_bound mb k :
  (Z.abs mb <= 10 ^ 15)%Z -> (0 <= k <= 5 * 10 ^ 4)%Z ->
  (Z.abs (mb * k) < 10 ^ precision)%Z.
Proof.
  intros Hm Hk. rewrite Z.abs_mul, (Z.abs_eq k) by lia.
  apply Z.le_lt_trans with (10 ^ 15 * (5 * 10 ^ 4))%Z.
  - apply Z.mul_le_mono_nonneg; lia.
  - unfold precision. reflexivity.
Qed.

Lemma plus_exact x y m :
  (Z.abs m < 10 ^ precision)%Z -> x + y == inject_Z m * pow10 (- 6) ->
  plus x y == x + y.
Proof. intros Hm E. apply finalise_exact. exists m, (- 6)%Z. split; assumption. Qed.

Lemma money_tax_exact b r mb k :
  (Z.abs mb <= 10 ^ 15)%Z -> b == inject_Z mb / 100 ->
  (0 <= k <= 10 ^ 4)%Z -> rateValue r == inject_Z k / 100 ->
  taxAmount b r == b * rateValue r / 100
  /\ b * rateValue r / 100 == inject_Z (mb * k) * pow10 (- 6).
Proof.
  intros Hm Eb Hk Er. split.
  - apply taxAmount_exact. exists (mb * k)%Z, (- 4)%Z. split.
    + apply money_bound; lia.
    + rewrite Eb, Er, inject_Z_mult. change (pow10 (- 4)) with (1 # 10000). field.
  - rewrite Eb, Er, inject_Z_mult. change (pow10 (- 6)) with (1 # 1000000). field.
Qed.

Lemma money_total_exact b t :
  isMoney b ->
  isPercentage (vatLow t) -> isPercentage (vatHigh t) ->
  isPercentage (serviceTax t) -> isPercentage (serviceCharge t) ->
  totalAmount (calculateTotals b t) == roundHalfUp (exactSum b t) 2.
Proof.
  intros (mb & Hm & Eb) (k1 & Hk1 & E1) (k2 & Hk2 & E2) (k3 & Hk3 & E3) (k4 & Hk4 & E4).
  destruct (money_tax_exact b _ mb k1 Hm Eb Hk1 E1) as [A1 M1].
  destruct (money_tax_exact b _ mb k2 Hm Eb Hk2 E2) as [A2 M2].
  destruct (money_tax_exact b _ mb k3 Hm Eb Hk3 E3) as [A3 M3].
  destruct (money_tax_exact b _ mb k4 Hm Eb Hk4 E4) as [A4 M4].
  assert (Mb : b == inject_Z (mb * 10 ^ 4) * pow10 (- 6)).
  { rewrite Eb, inject_Z_mult. change (pow10 (- 6)) with (1 # 1000000).
    change (inject_Z (10 ^ 4)) with (10000 # 1). field. }
  unfold calculateTotals, exactSum; cbn [totalAmount].
  unfold round, toNumber, toDecimalPlaces.
  rewrite A1, A2, A3, A4.
  set (a1 := b * rateValue (vatLow t) / 100) in *.
  set (a2 := b * rateValue (vatHigh t) / 100) in *.
  set (a3 := b * rateValue (serviceTax t) / 100) in *.
  set (a4 := b * rateValue (serviceCharge t) / 100) in *.
  assert (P1 : plus a1 a2 == a1 + a2).
  { apply (plus_exact _ _ (mb * (k1 + k2))); [apply money_bound; lia |].
    rewrite M1, M2, !inject_Z_mult, inject_Z_plus. ring. }
  rewrite P1.
  assert (P2 : plus (a1 + a2) a3 == a1 + a2 + a3).
  { apply (plus_exact _ _ (mb * (k1 + k2 + k3))); [apply money_bound; lia |].
    rewrite M1, M2, M3, !inject_Z_mult, !inject_Z_plus. ring. }
  rewrite P2.
  assert (P3 : plus (a1 + a2 + a3) a4 == a1 + a2 + a3 + a4).
  { apply (plus_exact _ _ (mb * (k1 + k2 + k3 + k4))); [apply money_bound; lia |].
    rewrite M1, M2, M3, M4, !inject_Z_mult, !inject_Z_plus. ring. }
  rewrite P3.
  assert (P4 : plus (a1 + a2 + a3 + a4) b == a1 + a2 + a3 + a4 + b).
  { apply (plus_exact _ _ (mb * (k1 + k2 + k3 + k4 + 10 ^ 4))); [apply money_bound; lia |].
    rewrite M1, M2, M3, M4, Mb at 1. rewrite !inject_Z_mult, !inject_Z_plus. ring. }
  rewrite P4. reflexivity.
Qed.

(** *** The result of an operation fits the precision *)

Lemma atMostDigits_opp sd x : atMostDigits sd x -> atMostDigits sd (- x).
Proof.
  intros (m & e & Hm & E). exists (- m)%Z, e. split; [rewrite Z.abs_opp; exact Hm |].
  rewrite E, inject_Z_opp. ring.
Qed.

Lemma finalise_atMostDigits_pos sd x :
  (1 <= sd)%Z -> 0 < x -> atMostDigits sd (finalise x sd).
Proof.
  intros Hsd Hx. destruct (exponent_spec x Hx) as [_ Hhi].
  unfold finalise. rewrite roundHalfUp_nonneg by lra.
  set (dp := (sd - 1 - exponent x)%Z) in *. unfold roundPos.
  set (z := Qfloor (x * pow10 dp + (1 # 2))).
  assert (Hz0 : (0 <= z)%Z).
  { change 0%Z with (Qfloor 0). apply Qfloor_resp_le.
    pose proof (pow10_pos dp).
    assert (0 <= x * pow10 dp) by (apply Qmult_le_0_compat; lra). lra. }
  assert (Hz1 : (z <= 10 ^ sd)%Z).
  { assert (B : x * pow10 dp < inject_Z (10 ^ sd)).
    { rewrite <- pow10_Z by lia.
      assert (E : pow10 sd == pow10 (exponent x + 1) * pow10 dp).
      { rewrite <- pow10_plus.
        replace (exponent x + 1 + dp)%Z with sd by (unfold dp; lia). reflexivity. }
      rewrite E. apply Qmult_lt_r; [apply pow10_pos | exact Hhi]. }
    pose proof (Qfloor_le (x * pow10 dp + (1 # 2))) as F. fold z in F.
    assert (G : inject_Z z < inject_Z (10 ^ sd + 1)).
    { rewrite inject_Z_plus. change (inject_Z 1) with 1. lra. }
    rewrite <- Zlt_Qlt in G. lia. }
  destruct (Z.eq_dec z (10 ^ sd)%Z) as [E | N].
  - exists 1%Z, (sd - dp)%Z. split.
    + simpl. apply Z.pow_gt_1; lia.
    + rewrite E, <- pow10_Z by lia. unfold Z.sub. rewrite pow10_plus. ring.
  - exists z, (- dp)%Z. split; [rewrite Z.abs_eq; lia | reflexivity].
Qed.

Lemma finalise_atMostDigits sd x : (1 <= sd)%Z -> atMostDigits sd (finalise x sd).
Proof.
  intros Hsd. destruct (Q_dec 0 x) as [[Hpos | Hneg] | Hz].
  - apply finalise_atMostDigits_pos; assumption.
  - assert (E : x == - - x) by ring.
    destruct (atMostDigits_opp sd _ (finalise_atMostDigits_pos sd (- x) Hsd ltac:(lra)))
      as (m & e & Hm & F).
    exists m, e. split; [exact Hm |]. rewrite <- F, <- finalise_opp, <- E. reflexivity.
  - exists 0%Z, 0%Z. split; [simpl; apply Z.pow_pos_nonneg; lia |].
    rewrite <- Hz, finalise_0. reflexivity.
Qed.

(** Rounding to the precision a second time changes nothing. *)
Lemma finalise_idempotent sd x :
  (1 <= sd)%Z -> finalise (finalise x sd) sd == finalise x sd.
Proof. intros Hsd. apply finalise_exact, finalise_atMostDigits, Hsd. Qed.

Lemma sumLines_finalised {A} (price : A -> Q) (quantity : A -> Z) (items : list A) :
  finalise (sumLines price quantity items) precision == sumLines price quantity items.
Proof.
  unfold sumLines. destruct items as [| a items _] using rev_ind.
  - apply finalise_0.
  - rewrite fold_left_app. simpl. unfold plus at 1 3.
    apply finalise_idempotent, precision_pos.
Qed.

Lemma total_without_rates b :
  totalAmount (calculateTotals b noRates) == round (finalise b precision).
Proof.
  unfold calculateTotals, noRates; cbn [totalAmount taxAmount vatLow vatHigh
    serviceTax serviceCharge].
  assert (Z0 : plus 0 0 == 0) by (unfold plus; apply finalise_0).
  unfold round, toNumber, toDecimalPlaces.
  rewrite Z0, Z0, Z0. unfold plus. rewrite Qplus_0_l. reflexivity.
Qed.

Lemma sumLines_map {A B} (f : A -> B) (price : B -> Q) (quantity : B -> Z) (l : list A) :
  sumLines price quantity (map f l)
  = sumLines (fun a => price (f a)) (fun a => quantity (f a)) l.
Proof.
  unfold sumLines. generalize 0. induction l as [| a l IH]; intros acc; simpl.
  - reflexivity.
  - apply IH.
Qed.

End CalculatorFacts.

(** ** The stated properties of the calculator *)

(** C1 (as amended). For a base amount in hundredths and percentages with
    at most two decimals in [[0,100]] (null or absent counting as 0), the
    total staying below [10^13]: the [totalAmount] returned by
    [calculateTotals] is the base amount plus the four unrounded tax amounts
    [base * rate / 100], rounded once half-up to 2 decimal places at the end
    (sum, then round), and each of the four tax amounts returned next to it
    is [base * rate / 100] rounded half-up to 2 decimal places on its own. *)
Theorem total_is_sum_then_round (b : Q) (t : TaxRates) :
  isMoney b ->
  isPercentage (vatLow t) -> isPercentage (vatHigh t) ->
  isPercentage (serviceTax t) -> isPercentage (serviceCharge t) ->
  numberKeeps (Decimal.roundHalfUp (exactSum b t) 2) ->
  totalAmount (calculateTotals b t) == Decimal.roundHalfUp (exactSum b t) 2
  /\ vatLowAmount (calculateTotals b t) == exactTax b (vatLow t)
  /\ vatHighAmount (calculateTotals b t) == exactTax b (vatHigh t)
  /\ serviceTaxAmount (calculateTotals b t) == exactTax b (serviceTax t)
  /\ serviceChargeAmount (calculateTotals b t) == exactTax b (serviceCharge t).
Proof.
  intros Hb H1 H2 H3 H4 _.
  split; [apply money_total_exact; assumption |].
  destruct Hb as (mb & Hm & Eb).
  assert (T : forall r, isPercentage r -> round (taxAmount b r) == exactTax b r).
  { intros r (k & Hk & Er).
    destruct (money_tax_exact b r mb k Hm Eb Hk Er) as [A _].
    unfold round, Decimal.toNumber, Decimal.toDecimalPlaces, exactTax.
    rewrite A. reflexivity. }
  unfold calculateTotals;
    cbn [vatLowAmount vatHighAmount serviceTaxAmount serviceChargeAmount].
  split; [apply T, H1 |]. split; [apply T, H2 |]. split; [apply T, H3 | apply T, H4].
Qed.

Lemma isMoney_half : isMoney (1 # 2).
Proof. exists 50%Z. split; [apply Z.leb_le; reflexivity | reflexivity]. Defined.

Lemma isPercentage_1 : isPercentage (Some 1).
Proof. exists 100%Z. split; [split; apply Z.leb_le; reflexivity | reflexivity]. Defined.

Lemma isPercentage_null : isPercentage None.
Proof. exists 0%Z. split; [split; apply Z.leb_le; reflexivity | reflexivity]. Defined.

Lemma total_is_sum_then_round_witness :
  let t := mkTaxRates (Some 1) (Some 1) None None in
  totalAmount (calculateTotals (1 # 2) t) == Decimal.roundHalfUp (exactSum (1 # 2) t) 2
  /\ vatLowAmount (calculateTotals (1 # 2) t) == exactTax (1 # 2) (vatLow t)
  /\ vatHighAmount (calculateTotals (1 # 2) t) == exactTax (1 # 2) (vatHigh t)
  /\ serviceTaxAmount (calculateTotals (1 # 2) t) == exactTax (1 # 2) (serviceTax t)
  /\ serviceChargeAmount (calculateTotals (1 # 2) t) == exactTax (1 # 2) (serviceCharge t).
Proof.
  apply (total_is_sum_then_round (1 # 2) (mkTaxRates (Some 1) (Some 1) None None)).
  - exact isMoney_half.
  - exact isPercentage_1.
  - exact isPercentage_1.
  - exact isPercentage_null.
  - exact isPercentage_null.
  - vm_compute. reflexivity.
Defined.

(** C1 as stated fails: with a base amount of 0.50 and two rates of 1 %,
    both tax amounts are 0.005 and round to 0.01, so the base plus the
    rounded amounts is 0.52; [calculateTotals] returns 0.51. *)
Lemma round_then_sum_counterexample :
  let b := 1 # 2 in
  let r := calculateTotals b (mkTaxRates (Some 1) (Some 1) None None) in
  vatLowAmount r == 1 # 100 /\ vatHighAmount r == 1 # 100
  /\ roundThenSum b r == 52 # 100
  /\ totalAmount r == 51 # 100
  /\ ~ totalAmount r == roundThenSum b r.
Proof. vm_compute. repeat split; intro H; discriminate H. Qed.

(** C7 (as amended). Each tax amount returned by [calculateTotals] is
    [baseAmount * rate / 100] in exact arithmetic, rounded half-up to 2
    decimal places, whenever the product [baseAmount * rate] has at most 20
    significant digits, the precision of the decimal arithmetic, and the
    amount is below [10^13], where the number returned keeps its two
    decimals; a null or absent rate contributes zero; and
    [calculateTotals(100, {vatLow: 10, vatHigh: 5, serviceTax: 0,
    serviceCharge: 0})] has [vatLowAmount = 10], [vatHighAmount = 5] and
    [totalAmount = 115]. *)
Theorem tax_amounts_exact_within_precision :
  (forall (b : Q) (t : TaxRates),
     atMostDigits Decimal.precision (b * rateValue (vatLow t)) ->
     atMostDigits Decimal.precision (b * rateValue (vatHigh t)) ->
     atMostDigits Decimal.precision (b * rateValue (serviceTax t)) ->
     atMostDigits Decimal.precision (b * rateValue (serviceCharge t)) ->
     numberKeeps (exactTax b (vatLow t)) ->
     numberKeeps (exactTax b (vatHigh t)) ->
     numberKeeps (exactTax b (serviceTax t)) ->
     numberKeeps (exactTax b (serviceCharge t)) ->
     vatLowAmount (calculateTotals b t) == exactTax b (vatLow t)
     /\ vatHighAmount (calculateTotals b t) == exactTax b (vatHigh t)
     /\ serviceTaxAmount (calculateTotals b t) == exactTax b (serviceTax t)
     /\ serviceChargeAmount (calculateTotals b t) == exactTax b (serviceCharge t))
  /\ (forall b : Q, round (taxAmount b None) == 0 /\ exactTax b None == 0)
  /\ (let r := calculateTotals 100 (mkTaxRates (Some 10) (Some 5) (Some 0) (Some 0)) in
      vatLowAmount r == 10 /\ vatHighAmount r == 5 /\ totalAmount r == 115).
Proof.
  split; [| split].
  - intros b t H1 H2 H3 H4 _ _ _ _. unfold calculateTotals; cbn [vatLowAmount vatHighAmount
      serviceTaxAmount serviceChargeAmount].
    repeat split; apply round_taxAmount_exact; assumption.
  - intros b. split; [reflexivity |].
    unfold exactTax, rateValue. simpl.
    assert (E : b * 0 / 100 == 0) by (unfold Qdiv; ring).
    rewrite E. reflexivity.
  - vm_compute. repeat split.
Qed.

(** C7 as stated fails beyond the precision: for a base amount of
    0.0099999999999 and a rate of 50.0000000005 % the exact tax is
    0.0049999999999999999999995, which rounds to 0.00; the product of the
    base and the rate is first rounded to 20 significant digits, giving
    0.5, and the tax amount returned is 0.01. *)
Lemma exact_tax_counterexample :
  let b := baseAmountOf
             [OrderItem.mk (Some 1%Z) "dish" (99999999999 # 10000000000000) 1 "Pending"] in
  let t := mkTaxRates (Some (500000000005 # 10000000000)) None None None in
  b == 99999999999 # 10000000000000
  /\ Decimal.mul b (500000000005 # 10000000000) == 1 # 2
  /\ b * (500000000005 # 10000000000) / 100
     == 49999999999999999999995 # 10000000000000000000000000
  /\ exactTax b (vatLow t) == 0
  /\ vatLowAmount (calculateTotals b t) == 1 # 100
  /\ ~ vatLowAmount (calculateTotals b t) == exactTax b (vatLow t).
Proof. vm_compute. repeat split; intro H; discriminate H. Qed.

Lemma fits_1000 : atMostDigits Decimal.precision (100 * 10).
Proof. exists 1000%Z, 0%Z. split; [apply Z.ltb_lt; reflexivity | reflexivity]. Defined.

Lemma fits_500 : atMostDigits Decimal.precision (100 * 5).
Proof. exists 500%Z, 0%Z. split; [apply Z.ltb_lt; reflexivity | reflexivity]. Defined.

Lemma fits_0 : atMostDigits Decimal.precision (100 * 0).
Proof. exists 0%Z, 0%Z. split; [apply Z.ltb_lt; reflexivity | reflexivity]. Defined.

Lemma tax_amounts_exact_within_precision_witness :
  let t := mkTaxRates (Some 10) (Some 5) (Some 0) None in
  vatLowAmount (calculateTotals 100 t) == exactTax 100 (vatLow t)
  /\ vatHighAmount (calculateTotals 100 t) == exactTax 100 (vatHigh t)
  /\ serviceTaxAmount (calculateTotals 100 t) == exactTax 100 (serviceTax t)
  /\ serviceChargeAmount (calculateTotals 100 t) == exactTax 100 (serviceCharge t).
Proof.
  apply (proj1 tax_amounts_exact_within_precision).
  - exact fits_1000.
  - exact fits_500.
  - exact fits_0.
  - exact fits_0.
  - vm_compute. reflexivity.
  - vm_compute. reflexivity.
  - vm_compute. reflexivity.
  - vm_compute. reflexivity.
Defined.

(** C8. For a non-negative base amount and rates in [[0,100]] or null,
    every component of the result of [calculateTotals], the total included,
    does not decrease when the base amount grows or when rates grow (one of
    them or several at once, the others unchanged). *)
Theorem calculateTotals_monotone (b1 b2 : Q) (r1 r2 : TaxRates) :
  0 <= b1 -> b1 <= b2 ->
  ratesInRange r1 -> ratesInRange r2 -> ratesLe r1 r2 ->
  totalsLe (calculateTotals b1 r1) (calculateTotals b2 r2).
Proof.
  intros Hb Hbb (R1 & R2 & R3 & R4) _ (L1 & L2 & L3 & L4).
  unfold rateInRange in *.
  assert (A1 := taxAmount_mono b1 b2 _ _ Hb Hbb (proj1 R1) L1).
  assert (A2 := taxAmount_mono b1 b2 _ _ Hb Hbb (proj1 R2) L2).
  assert (A3 := taxAmount_mono b1 b2 _ _ Hb Hbb (proj1 R3) L3).
  assert (A4 := taxAmount_mono b1 b2 _ _ Hb Hbb (proj1 R4) L4).
  assert (N1 := taxAmount_nonneg b1 _ Hb (proj1 R1)).
  assert (N2 := taxAmount_nonneg b1 _ Hb (proj1 R2)).
  assert (N3 := taxAmount_nonneg b1 _ Hb (proj1 R3)).
  assert (N4 := taxAmount_nonneg b1 _ Hb (proj1 R4)).
  unfold totalsLe, calculateTotals; cbn [vatLowAmount vatHighAmount serviceTaxAmount
    serviceChargeAmount totalAmount].
  repeat split; try (apply round_mono; assumption).
  apply round_mono.
  - repeat apply plus_nonneg; assumption.
  - repeat (apply plus_mono; [repeat apply plus_nonneg; assumption | | assumption | assumption]).
    assumption.
Qed.

Lemma ratesInRange_example :
  ratesInRange (mkTaxRates (Some 10) None (Some 5) (Some 0)).
Proof. unfold ratesInRange, rateInRange; simpl. repeat split; discriminate. Defined.

Lemma ratesInRange_example' :
  ratesInRange (mkTaxRates (Some 10) (Some (25 # 2)) (Some 5) (Some 0)).
Proof. unfold ratesInRange, rateInRange; simpl. repeat split; discriminate. Defined.

Lemma calculateTotals_monotone_witness :
  totalsLe (calculateTotals 100 (mkTaxRates (Some 10) None (Some 5) (Some 0)))
           (calculateTotals (401 # 4) (mkTaxRates (Some 10) (Some (25 # 2)) (Some 5) (Some 0))).
Proof.
  apply calculateTotals_monotone.
  - discriminate.
  - discriminate.
  - exact ratesInRange_example.
  - exact ratesInRange_example'.
  - unfold ratesLe; simpl. repeat split; discriminate.
Defined.

(** ** The stated properties of the bill routes *)

Lemma ownedOrder_found db orderId businessId order :
  orders db !! orderId = Some order -> Order.businessId order = businessId ->
  ownedOrder db orderId businessId = Some order.
Proof.
  intros H <-. unfold ownedOrder. rewrite H, Z.eqb_refl. reflexivity.
Qed.

Lemma ownedOrder_inv db orderId businessId order :
  ownedOrder db orderId businessId = Some order ->
  orders db !! orderId = Some order /\ Order.businessId order = businessId.
Proof.
  unfold ownedOrder. destruct (orders db !! orderId) as [o |]; [| discriminate].
  destruct (Z.eqb_spec (Order.businessId o) businessId); [| discriminate].
  intros [= <-]. split; [reflexivity | assumption].
Qed.

Lemma falsyId_nonzero n : n <> 0%Z -> falsyId (Some n) = false.
Proof. intros H. simpl. apply Z.eqb_neq, H. Qed.

(** C10. When the order is the caller's, has a bill, and the bill's
    [expiresAt] is strictly before now, [GET /bill/:orderId] answers 200
    with the bill row, its [billStoreLink] and [modifiedBillStoreLink]
    replaced by null and nothing else changed, next to the order's items;
    the datastore is left as it was, the bill row included. *)
Theorem getBill_masks_expired_links
    (db : DB) (now businessId orderId : Z) (order : Order.t) (bill : Bill.t) (e : Z) :
  orderId <> 0%Z -> businessId <> 0%Z ->
  orders db !! orderId = Some order -> Order.businessId order = businessId ->
  bills db !! orderId = Some bill ->
  Bill.expiresAt bill = Some e -> (e < now)%Z ->
  exists shown : Bill.t,
    getBill db now (Some businessId) (Some orderId)
    = (mkResponse 200 (BillWithItems shown (Order.items order)), db)
    /\ Bill.billStoreLink shown = None
    /\ Bill.modifiedBillStoreLink shown = None
    /\ shown = Bill.setLinks None None bill
    /\ bills (snd (getBill db now (Some businessId) (Some orderId))) !! orderId = Some bill.
Proof.
  intros Ho Hb Horder Hbiz Hbill He Hlt.
  exists (Bill.setLinks None None bill).
  unfold getBill.
  rewrite (falsyId_nonzero _ Ho), (falsyId_nonzero _ Hb). simpl default.
  rewrite (ownedOrder_found _ _ _ _ Horder Hbiz), Hbill, He.
  apply Z.ltb_lt in Hlt. rewrite Hlt. simpl. auto.
Qed.

Lemma getBill_masks_expired_links_witness :
  exists shown : Bill.t,
    getBill Sample.dbOld 2000 (Some 7%Z) (Some 1%Z)
    = (mkResponse 200 (BillWithItems shown [Sample.soup]), Sample.dbOld)
    /\ Bill.billStoreLink shown = None
    /\ Bill.modifiedBillStoreLink shown = None
    /\ shown = Bill.setLinks None None Sample.oldBill
    /\ bills (snd (getBill Sample.dbOld 2000 (Some 7%Z) (Some 1%Z))) !! 1%Z
       = Some Sample.oldBill.
Proof.
  apply (getBill_masks_expired_links Sample.dbOld 2000 7 1 Sample.order1 Sample.oldBill 1000).
  - discriminate.
  - discriminate.
  - reflexivity.
  - reflexivity.
  - reflexivity.
  - reflexivity.
  - reflexivity.
Defined.

(** ** The stated properties of the order status *)

Lemma allItemsCompleted_Forall items :
  allItemsCompleted items = true
  <-> Forall (fun i => OrderItem.status i = "Completed") items.
Proof.
  unfold allItemsCompleted. induction items as [| i items IH]; simpl.
  - split; [constructor | reflexivity].
  - rewrite andb_true_iff, IH, String.eqb_eq. split.
    + intros [H1 H2]. constructor; assumption.
    + intros H. inversion H; subst. split; assumption.
Qed.

Lemma orderStatus_cases items :
  (orderStatus items = "Completed"
   /\ allItemsCompleted items = true /\ items <> [])
  \/ (orderStatus items = "Pending"
      /\ (allItemsCompleted items = false \/ items = [])).
Proof.
  unfold orderStatus. destruct (allItemsCompleted items) eqn:E.
  - destruct items as [| i items].
    + right. simpl. auto.
    + left. cbn [length]. rewrite Nat2Z.inj_succ.
      replace (0 <? Z.succ (Z.of_nat (length items)))%Z with true
        by (symmetry; apply Z.ltb_lt; lia).
      repeat split. discriminate.
  - right. simpl. auto.
Qed.

Lemma orderStatus_completed_iff items :
  orderStatus items = "Completed"
  <-> items <> [] /\ Forall (fun i => OrderItem.status i = "Completed") items.
Proof.
  rewrite <- allItemsCompleted_Forall.
  destruct (orderStatus_cases items) as [(H & A & N) | (H & [A | N])]; rewrite H.
  - split; auto.
  - split; [discriminate | intros [_ F]; congruence].
  - split; [discriminate | intros [F _]; congruence].
Qed.

Lemma patchItemStatus_success db businessId orderId productId status order :
  businessId <> 0%Z ->
  orders db !! orderId = Some order -> Order.businessId order = businessId ->
  existsb (hasProduct productId) (Order.items order) = true ->
  let items' := updateItemStatus productId status (Order.items order) in
  patchItemStatus db (Some businessId) (Some orderId) (Some productId) status
  = (mkResponse 200
       (ItemStatusBody "Item status updated successfully" productId status
          (orderStatus items')),
     setOrders
       (<[orderId := Order.setStatus (orderStatus items') (Order.setItems items' order)]>
          (orders db))
       db).
Proof.
  intros Hb Ho Hbiz Hex. unfold patchItemStatus.
  rewrite (falsyId_nonzero _ Hb). simpl default.
  rewrite (ownedOrder_found _ _ _ _ Ho Hbiz), Hex. reflexivity.
Qed.

(** C4. The status derived from the items is "Completed" exactly when there
    is at least one item and every item's status is "Completed", and it is
    "Pending" otherwise.  No item gives "Pending"; one pending item gives
    "Pending"; and once that item is patched to "Completed" the patch
    answers, stores and [GET /:orderId] shows "Completed". *)
Theorem orderStatus_rule :
  (forall items,
     orderStatus items = "Completed"
     <-> items <> [] /\ Forall (fun i => OrderItem.status i = "Completed") items)
  /\ (forall items, orderStatus items <> "Completed" -> orderStatus items = "Pending")
  /\ orderStatus [] = "Pending"
  /\ (forall item, OrderItem.status item = "Pending" -> orderStatus [item] = "Pending")
  /\ (forall db businessId orderId productId order item,
        businessId <> 0%Z ->
        orders db !! orderId = Some order -> Order.businessId order = businessId ->
        Order.items order = [item] ->
        OrderItem.productId item = Some productId ->
        OrderItem.status item = "Pending" ->
        exists order' db',
          patchItemStatus db (Some businessId) (Some orderId) (Some productId)
            (Some "Completed")
          = (mkResponse 200
               (ItemStatusBody "Item status updated successfully" productId
                  (Some "Completed") "Completed"),
             db')
          /\ orders db' !! orderId = Some order'
          /\ Order.items order' = [OrderItem.setStatus "Completed" item]
          /\ Order.status order' = "Completed"
          /\ getOrder db' orderId
             = mkResponse 200 (OrderView "Completed" [OrderItem.setStatus "Completed" item])).
Proof.
  split; [exact orderStatus_completed_iff |].
  split.
  { intros items H. destruct (orderStatus_cases items) as [(E & _) | (E & _)]; congruence. }
  split; [reflexivity |].
  split.
  { intros item H. unfold orderStatus, allItemsCompleted. simpl. rewrite H. reflexivity. }
  intros db businessId orderId productId order item Hb Ho Hbiz Hitems Hpid Hst.
  assert (Hhas : hasProduct productId item = true).
  { unfold hasProduct. rewrite Hpid. apply Z.eqb_refl. }
  assert (Hex : existsb (hasProduct productId) (Order.items order) = true).
  { rewrite Hitems. simpl. rewrite Hhas. reflexivity. }
  pose proof (patchItemStatus_success db businessId orderId productId (Some "Completed")
                order Hb Ho Hbiz Hex) as P.
  cbv zeta in P. rewrite Hitems in P. unfold updateItemStatus in P. simpl map in P.
  rewrite Hhas in P. simpl writeStatus in P.
  change (orderStatus [OrderItem.setStatus "Completed" item]) with "Completed" in P.
  eexists. eexists. split; [exact P |].
  unfold setOrders; cbn [orders]. rewrite lookup_insert_eq.
  split; [reflexivity |]. split; [reflexivity |]. split; [reflexivity |].
  unfold getOrder; cbn [orders]. rewrite lookup_insert_eq. reflexivity.
Qed.

Lemma orderStatus_rule_witness :
  exists order' db',
    patchItemStatus Sample.db0 (Some 7%Z) (Some 1%Z) (Some 11%Z) (Some "Completed")
    = (mkResponse 200
         (ItemStatusBody "Item status updated successfully" 11 (Some "Completed")
            "Completed"),
       db')
    /\ orders db' !! 1%Z = Some order'
    /\ Order.items order' = [OrderItem.setStatus "Completed" Sample.soup]
    /\ Order.status order' = "Completed"
    /\ getOrder db' 1
       = mkResponse 200 (OrderView "Completed" [OrderItem.setStatus "Completed" Sample.soup]).
Proof.
  apply (proj2 (proj2 (proj2 (proj2 orderStatus_rule)))
           Sample.db0 7%Z 1%Z 11%Z Sample.order1 Sample.soup).
  - discriminate.
  - reflexivity.
  - reflexivity.
  - reflexivity.
  - reflexivity.
  - reflexivity.
Defined.

Lemma statusDerived_insert db orderId o :
  statusDerived db -> Order.status o = orderStatus (Order.items o) ->
  statusDerived (setOrders (<[orderId := o]> (orders db)) db).
Proof.
  intros Hd Ho id o'. unfold setOrders; cbn [orders].
  destruct (decide (orderId = id)) as [-> | Hne].
  - rewrite lookup_insert_eq. intros [= <-]. exact Ho.
  - rewrite lookup_insert_ne by exact Hne. apply Hd.
Qed.

Lemma patchItemStatus_cases db bo oid pid st :
  (statusCode (fst (patchItemStatus db bo oid pid st)) <> 200%Z
   /\ snd (patchItemStatus db bo oid pid st) = db)
  \/ exists orderId o,
       oid = Some orderId
       /\ Order.status o = orderStatus (Order.items o)
       /\ snd (patchItemStatus db bo oid pid st)
          = setOrders (<[orderId := o]> (orders db)) db.
Proof.
  unfold patchItemStatus.
  destruct (falsyId bo); [left; split; [discriminate | reflexivity] |].
  destruct oid as [orderId |]; [| left; split; [discriminate | reflexivity]].
  destruct (ownedOrder db orderId (default 0%Z bo)) as [order |];
    [| left; split; [discriminate | reflexivity]].
  destruct pid as [productId |]; [| left; split; [discriminate | reflexivity]].
  destruct (existsb (hasProduct productId) (Order.items order));
    [| left; split; [discriminate | reflexivity]].
  right. eexists. eexists. simpl. split; [reflexivity |].
  split; [| reflexivity]. reflexivity.
Qed.

(** C3 (as amended). The item-status patch recomputes: whatever request it
    gets, it leaves every stored order status equal to the status derived
    from the order's items if that held before, and a patch answered with
    200 stores the derived status for its order whatever was stored before.
    The order-level status is also written directly: the order-status
    patch, when it succeeds with a status in the body, stores that status as
    given, and the creation of a bill stores "Completed". *)
Theorem item_patch_recomputes_order_status :
  (forall db bo oid pid st,
     statusDerived db -> statusDerived (snd (patchItemStatus db bo oid pid st)))
  /\ (forall db bo orderId pid st,
       statusCode (fst (patchItemStatus db bo (Some orderId) pid st)) = 200%Z ->
       exists o,
         orders (snd (patchItemStatus db bo (Some orderId) pid st)) !! orderId = Some o
         /\ Order.status o = orderStatus (Order.items o))
  /\ (forall db bo orderId st,
       statusCode (fst (patchOrderStatus db bo (Some orderId) (Some st))) = 200%Z ->
       exists o,
         orders (snd (patchOrderStatus db bo (Some orderId) (Some st))) !! orderId = Some o
         /\ Order.status o = st)
  /\ (forall db bo orderId taxRates,
       statusCode (fst (postBill db bo orderId taxRates)) = 201%Z ->
       exists o,
         orders (snd (postBill db bo orderId taxRates)) !! orderId = Some o
         /\ Order.status o = "Completed").
Proof.
  split; [| split; [| split]].
  - intros db bo oid pid st Hd.
    destruct (patchItemStatus_cases db bo oid pid st) as [[_ ->] | (orderId & o & _ & Ho & ->)].
    + exact Hd.
    + apply statusDerived_insert; assumption.
  - intros db bo orderId pid st H200.
    destruct (patchItemStatus_cases db bo (Some orderId) pid st)
      as [[N _] | (orderId' & o & [= <-] & Ho & E)]; [contradiction |].
    exists o. rewrite E. unfold setOrders; cbn [orders].
    rewrite lookup_insert_eq. split; [reflexivity | exact Ho].
  - intros db bo orderId st. unfold patchOrderStatus.
    destruct (falsyId bo); [discriminate |].
    destruct (ownedOrder db orderId (default 0%Z bo)) as [o |]; [| discriminate].
    intros _. eexists. unfold setOrders; cbn [snd orders].
    rewrite lookup_insert_eq. split; reflexivity.
  - intros db bo orderId taxRates. unfold postBill.
    destruct (negb (validTaxRates taxRates)); [discriminate |].
    destruct (falsyId bo); [discriminate |].
    destruct (ownedOrder db orderId (default 0%Z bo)) as [o |]; [| discriminate].
    destruct (bills db !! orderId); [discriminate |].
    intros _. eexists. cbn [snd orders].
    rewrite lookup_insert_eq. split; reflexivity.
Qed.

Lemma sample_statusDerived : statusDerived Sample.db0.
Proof.
  intros id o H. unfold Sample.db0 in H; cbn [orders] in H.
  apply lookup_singleton_Some in H as [_ <-]. reflexivity.
Defined.

Lemma item_patch_recomputes_order_status_witness :
  statusDerived
    (snd (patchItemStatus Sample.db0 (Some 7%Z) (Some 1%Z) (Some 11%Z) (Some "Completed")))
  /\ (exists o,
        orders (snd (patchItemStatus Sample.db0 (Some 7%Z) (Some 1%Z) (Some 11%Z)
                       (Some "Completed"))) !! 1%Z = Some o
        /\ Order.status o = orderStatus (Order.items o))
  /\ (exists o,
        orders (snd (patchOrderStatus Sample.db0 (Some 7%Z) (Some 1%Z) (Some "Completed")))
          !! 1%Z = Some o
        /\ Order.status o = "Completed")
  /\ (exists o,
        orders (snd (postBill Sample.db0 (Some 7%Z) 1 Sample.rates0)) !! 1%Z = Some o
        /\ Order.status o = "Completed").
Proof.
  destruct item_patch_recomputes_order_status as (P1 & P2 & P3 & P4).
  split; [| split; [| split]].
  - apply P1. exact sample_statusDerived.
  - apply (P2 Sample.db0 (Some 7%Z) 1%Z (Some 11%Z) (Some "Completed")). reflexivity.
  - apply (P3 Sample.db0 (Some 7%Z) 1%Z "Completed"). reflexivity.
  - apply (P4 Sample.db0 (Some 7%Z) 1%Z Sample.rates0). reflexivity.
Defined.

(** C3 as stated fails: [PATCH /:orderId/status] with "Completed" in the
    body stores "Completed" for an order whose only item is pending. *)
Lemma order_status_patch_counterexample :
  statusDerived Sample.db0
  /\ fst (patchOrderStatus Sample.db0 (Some 7%Z) (Some 1%Z) (Some "Completed"))
     = mkResponse 200
         (OrderStatusBody "Completed" [Sample.soup] "Order status updated successfully")
  /\ ~ statusDerived
        (runOrderWrite (PatchOrderStatus (Some 7%Z) (Some 1%Z) (Some "Completed"))
           Sample.db0).
Proof.
  split; [| split].
  - exact sample_statusDerived.
  - reflexivity.
  - intros H.
    specialize (H 1%Z (Order.mk 1 7 "Completed" 100 [Sample.soup]) eq_refl).
    discriminate H.
Qed.

(** ** The stored total of a bill *)

Lemma putStoreLink_keeps_total l p modified e b :
  Bill.totalAmount (putStoreLink l p modified e b) = Bill.totalAmount b
  /\ Bill.rates (putStoreLink l p modified e b) = Bill.rates b.
Proof. unfold putStoreLink. destruct modified; split; reflexivity. Qed.

(** Creating a bill stores a total that is up to date. *)
Lemma postBill_up_to_date db bo orderId taxRates :
  billUpToDate db orderId -> billUpToDate (snd (postBill db bo orderId taxRates)) orderId.
Proof.
  intros H. unfold postBill.
  destruct (negb (validTaxRates taxRates)); [exact H |].
  destruct (falsyId bo); [exact H |].
  destruct (ownedOrder db orderId (default 0%Z bo)) as [order |]; [| exact H].
  destruct (bills db !! orderId); [exact H |].
  intros o b; cbn [snd orders bills]. rewrite !lookup_insert_eq.
  intros Ho Hb. apply Some_inj in Ho, Hb. subst o b. reflexivity.
Qed.

(** So does the store-link route, whether it finds a bill or creates one. *)
Lemma storeLink_up_to_date isUri db now bo oid body orderId :
  billUpToDate db orderId -> billUpToDate (snd (storeLink isUri db now bo oid body)) orderId.
Proof.
  intros H. unfold storeLink.
  destruct (negb (validStoreLink isUri body)); [exact H |].
  destruct (falsyId oid); [exact H |].
  destruct (falsyId bo); [exact H |].
  destruct (ownedOrder db (default 0%Z oid) (default 0%Z bo)) as [order |] eqn:Ho;
    [| exact H].
  apply ownedOrder_inv in Ho as [Ho _].
  destruct (bills db !! default 0%Z oid) as [existingBill |] eqn:Hb.
  - intros o b; cbn [snd setBills orders bills].
    destruct (decide (default 0%Z oid = orderId)) as [<- | Hne].
    + rewrite lookup_insert_eq. intros Ho' Hb'. apply Some_inj in Hb'. subst b.
      destruct (putStoreLink_keeps_total (billStoreLink body) (cloudinaryPublicId body)
                  (default false (isModified body)) (now + dayMs)%Z existingBill)
        as [-> ->].
      apply H; assumption.
    + rewrite lookup_insert_ne by exact Hne. apply H.
  - intros o b; cbn [snd orders bills].
    destruct (decide (default 0%Z oid = orderId)) as [<- | Hne].
    + rewrite lookup_insert_eq, Ho. intros Ho' Hb'. apply Some_inj in Ho', Hb'. subst o b.
      destruct (putStoreLink_keeps_total (billStoreLink body) (cloudinaryPublicId body)
                  (default false (isModified body)) (now + dayMs)%Z
                  (Bill.mk (nextBillId db) (default 0%Z oid) (default 0%Z bo)
                     (round (baseAmountOf (Order.items order))) noRates
                     None None None None None))
        as [-> ->].
      cbn [Bill.totalAmount Bill.rates].
      rewrite total_without_rates. unfold baseAmountOf.
      unfold round, Decimal.toNumber, Decimal.toDecimalPlaces.
      rewrite sumLines_finalised. reflexivity.
    + rewrite lookup_insert_ne by exact Hne. apply H.
Qed.

(** So does the replacement of the items, which takes the rates from the
    stored bill. *)
Lemma updateItems_up_to_date db bo oid items orderId :
  billUpToDate db orderId -> billUpToDate (snd (updateItems db bo oid items)) orderId.
Proof.
  intros H. unfold updateItems.
  destruct (negb (forallb validItem items)); [exact H |].
  destruct (falsyId oid); [exact H |].
  destruct (falsyId bo); [exact H |].
  destruct (ownedOrder db (default 0%Z oid) (default 0%Z bo)) as [order |]; [| exact H].
  set (bn := match bills db !! default 0%Z oid with
             | Some bill => (bill, nextBillId db)
             | None => _
             end).
  destruct bn as [bill next].
  intros o b; cbn [snd orders bills].
  destruct (decide (default 0%Z oid = orderId)) as [<- | Hne].
  - rewrite !lookup_insert_eq. intros Ho Hb. apply Some_inj in Ho, Hb. subst o b.
    cbn [Bill.totalAmount Bill.setTotalAmount Bill.rates Order.items Order.setItems
           Order.setTotalAmount].
    unfold baseAmountOf. rewrite sumLines_map. reflexivity.
  - rewrite !lookup_insert_ne by exact Hne. apply H.
Qed.

(** And so does [update-charges] when the body gives the four rates. *)
Lemma updateCharges_up_to_date db bo oid body orderId :
  is_Some (vatLow body) -> is_Some (vatHigh body) ->
  is_Some (serviceTax body) -> is_Some (serviceCharge body) ->
  billUpToDate db orderId -> billUpToDate (snd (updateCharges db bo oid body)) orderId.
Proof.
  intros [v1 E1] [v2 E2] [v3 E3] [v4 E4] H. unfold updateCharges.
  destruct (falsyId oid); [exact H |].
  destruct (falsyId bo); [exact H |].
  destruct (ownedOrder db (default 0%Z oid) (default 0%Z bo)) as [order |]; [| exact H].
  destruct (bills db !! default 0%Z oid) as [bill |]; [| exact H].
  intros o b; cbn [snd orders bills].
  destruct (decide (default 0%Z oid = orderId)) as [<- | Hne].
  - rewrite !lookup_insert_eq. intros Ho Hb. apply Some_inj in Ho, Hb. subst o b.
    cbn [Bill.totalAmount Bill.setTotalAmount Bill.rates Bill.setRates Order.items
           Order.setTotalAmount].
    assert (M : mergeRates body (Bill.rates bill) = body).
    { destruct body as [a b' c d]. simpl in *. subst. reflexivity. }
    rewrite M. reflexivity.
  - rewrite !lookup_insert_ne by exact Hne. apply H.
Qed.

(** C2, at the failing input. After [POST /bill] with 10 % and 5 % on an
    order of 100 the bill is up to date (115).  [update-charges] with only
    [vatLow: 20] in the body then stores the total 120, computed as if the
    absent rates were zero, and keeps the stored [vatHigh] of 5 %: the
    stored total is not the 125 that the order's items and the bill's
    stored rates give. *)
Lemma update_charges_leaves_total_stale :
  billUpToDate SampleCharges.billed 1
  /\ statusCode (fst (updateCharges SampleCharges.billed (Some 7%Z) (Some 1%Z) SampleCharges.onlyVatLow))
     = 200%Z
  /\ (exists o b,
        orders SampleCharges.recharged !! 1%Z = Some o
        /\ bills SampleCharges.recharged !! 1%Z = Some b
        /\ Bill.rates b = mkTaxRates (Some 20) (Some 5) None None
        /\ Bill.totalAmount b == 120
        /\ totalAmount (calculateTotals (baseAmountOf (Order.items o)) (Bill.rates b)) == 125)
  /\ ~ billUpToDate SampleCharges.recharged 1.
Proof.
  split; [| split; [| split]].
  - intros o b Ho Hb. vm_compute in Ho, Hb.
    injection Ho as <-. injection Hb as <-. vm_compute. reflexivity.
  - vm_compute. reflexivity.
  - eexists. eexists. split; [vm_compute; reflexivity |].
    split; [vm_compute; reflexivity |].
    split; [reflexivity |]. split; vm_compute; reflexivity.
  - intros H.
    destruct (orders SampleCharges.recharged !! 1%Z) as [o |] eqn:Ho;
      [| vm_compute in Ho; discriminate Ho].
    destruct (bills SampleCharges.recharged !! 1%Z) as [b |] eqn:Hb;
      [| vm_compute in Hb; discriminate Hb].
    specialize (H o b Ho Hb).
    vm_compute in Ho, Hb. injection Ho as <-. injection Hb as <-.
    vm_compute in H. discriminate H.
Qed.

(** ** The reaper *)

Section ReaperFacts.
Import Reaper.

Lemma effects_app l1 l2 : effects (l1 ++ l2) = effects l1 ++ effects l2.
Proof. unfold effects. induction l1 as [| e l1 IH]; simpl; [| destruct (isEffect e); simpl; rewrite IH]; reflexivity. Qed.

Lemma effects_imageStep w bill :
  effects (imageStep w bill ++ [DeleteRow (Bill.id bill)]) = billEffects bill.
Proof.
  unfold imageStep, billEffects, deleteFromCloudinary.
  destruct (Bill.billStorePublicId bill) as [publicId |]; [| reflexivity].
  destruct (String.eqb publicId ""); [reflexivity |].
  destruct (destroyOk w publicId); reflexivity.
Qed.

(** The loop, as far as it gets: it deals with the bills in order until a
    row deletion throws. *)
Lemma processBills_prefix w before rest table :
  Forall (fun b => deleteOk w (Bill.id b) = true) before ->
  let '(events, table', threw) := processBills w rest (deleteRows before table) in
  exists events0,
    processBills w (before ++ rest) table = (events0 ++ events, table', threw)
    /\ effects events0 = flat_map billEffects before.
Proof.
  intros Hok. revert table.
  induction Hok as [| bill before Hbill Hok IH]; intros table.
  - simpl. destruct (processBills w rest table) as [[events table'] threw].
    exists []. split; reflexivity.
  - simpl. rewrite Hbill.
    specialize (IH (deleteRow (Bill.id bill) table)).
    destruct (processBills w rest (deleteRows before (deleteRow (Bill.id bill) table)))
      as [[events table'] threw].
    destruct IH as (events0 & E & F). rewrite E.
    exists (imageStep w bill ++ DeleteRow (Bill.id bill) :: LogBillDeleted (Bill.id bill)
              :: events0).
    split.
    + rewrite <- !app_assoc. reflexivity.
    + change (imageStep w bill ++ DeleteRow (Bill.id bill) :: LogBillDeleted (Bill.id bill)
                :: events0)
        with (imageStep w bill ++ [DeleteRow (Bill.id bill)]
                ++ LogBillDeleted (Bill.id bill) :: events0).
      rewrite app_assoc, effects_app, effects_imageStep.
      unfold effects at 1. simpl. fold (effects events0). rewrite F. reflexivity.
Qed.

Lemma processBills_all w bills table :
  Forall (fun b => deleteOk w (Bill.id b) = true) bills ->
  exists events,
    processBills w bills table = (events, deleteRows bills table, false)
    /\ effects events = flat_map billEffects bills.
Proof.
  intros Hok. pose proof (processBills_prefix w bills [] table Hok) as P.
  simpl in P. rewrite !app_nil_r in P. destruct P as (events0 & E & F).
  exists events0. rewrite app_nil_r in E. split; assumption.
Qed.

Lemma In_deleteRow x id table :
  In x (deleteRow id table) <-> In x table /\ Bill.id x <> id.
Proof.
  unfold deleteRow. rewrite filter_In, negb_true_iff, Z.eqb_neq. reflexivity.
Qed.

Lemma In_deleteRows x bills table :
  In x (deleteRows bills table)
  <-> In x table /\ forall b, In b bills -> Bill.id x <> Bill.id b.
Proof.
  unfold deleteRows. revert table. induction bills as [| b bills IH]; intros table; simpl.
  - split; [intros H; split; [exact H | intros ? []] | intros [H _]; exact H].
  - rewrite IH, In_deleteRow. split.
    + intros [[Hx Hb] Hrest]. split; [exact Hx |].
      intros b' [<- | Hin]; [exact Hb | apply Hrest, Hin].
    + intros [Hx Hall]. split; [split; [exact Hx | apply Hall; left; reflexivity] |].
      intros b' Hin. apply Hall. right. exact Hin.
Qed.


End ReaperFacts.

Lemma imageStep_no_error w b : ~ In Reaper.LogCronError (Reaper.imageStep w b).
Proof.
  unfold Reaper.imageStep, Reaper.deleteFromCloudinary.
  destruct (Bill.billStorePublicId b) as [p |]; [| intros []].
  destruct (String.eqb p ""); [intros [] |].
  destruct (Reaper.destroyOk w p); simpl; intuition discriminate.
Qed.

Lemma processBills_no_error w bills table :
  ~ In Reaper.LogCronError (fst (fst (Reaper.processBills w bills table))).
Proof.
  revert table. induction bills as [| b bills IH]; intros table; simpl.
  - intros [].
  - destruct (Reaper.deleteOk w (Bill.id b)).
    + specialize (IH (Reaper.deleteRow (Bill.id b) table)).
      destruct (Reaper.processBills w bills (Reaper.deleteRow (Bill.id b) table))
        as [[events table'] threw].
      simpl in *. rewrite in_app_iff. intros [H | [H | [H | H]]];
        [exact (imageStep_no_error _ _ H) | discriminate H | discriminate H | exact (IH H)].
    + simpl. rewrite in_app_iff. intros [H | [H | []]];
        [exact (imageStep_no_error _ _ H) | discriminate H].
Qed.

Lemma cronJob_all_ok w now table :
  Forall (fun b => Reaper.deleteOk w (Bill.id b) = true) (Reaper.findMany now table) ->
  effects (fst (Reaper.cronJob w now table)) = flat_map billEffects (Reaper.findMany now table)
  /\ snd (Reaper.cronJob w now table) = deleteRows (Reaper.findMany now table) table
  /\ ~ In Reaper.LogCronError (fst (Reaper.cronJob w now table)).
Proof.
  intros Hok. unfold Reaper.cronJob.
  pose proof (processBills_no_error w (Reaper.findMany now table) table) as N.
  destruct (processBills_all w _ table Hok) as (events & E & F).
  rewrite E in *. cbn [fst snd] in *. rewrite app_nil_r.
  split; [| split].
  - exact F.
  - reflexivity.
  - intros [H | H]; [discriminate H | exact (N H)].
Qed.

(** The run when the deletion of one row throws: the bills before it are
    dealt with, the row deletion is asked for and fails, and the run ends
    with the error logged. *)
Lemma cronJob_stops w now table before bad after :
  Reaper.findMany now table = before ++ bad :: after ->
  Forall (fun b => Reaper.deleteOk w (Bill.id b) = true) before ->
  Reaper.deleteOk w (Bill.id bad) = false ->
  effects (fst (Reaper.cronJob w now table)) = flat_map billEffects (before ++ [bad])
  /\ snd (Reaper.cronJob w now table) = deleteRows before table
  /\ In Reaper.LogCronError (fst (Reaper.cronJob w now table)).
Proof.
  intros Hsel Hok Hbad. unfold Reaper.cronJob. rewrite Hsel.
  pose proof (processBills_prefix w before (bad :: after) table Hok) as P.
  cbn [Reaper.processBills] in P. rewrite Hbad in P.
  destruct P as (events0 & E & F). rewrite E. cbn [fst snd].
  split; [| split].
  - change (Reaper.LogChecking
              :: (events0 ++ Reaper.imageStep w bad ++ [Reaper.DeleteRow (Bill.id bad)])
              ++ [Reaper.LogCronError])
      with ([Reaper.LogChecking]
              ++ (events0 ++ Reaper.imageStep w bad ++ [Reaper.DeleteRow (Bill.id bad)])
              ++ [Reaper.LogCronError]).
    rewrite (effects_app [Reaper.LogChecking]).
    rewrite (effects_app (events0 ++ _) [Reaper.LogCronError]).
    rewrite (effects_app events0).
    rewrite effects_imageStep, F, flat_map_app. simpl.
    rewrite !app_nil_r. reflexivity.
  - reflexivity.
  - right. apply in_or_app. right. left. reflexivity.
Qed.

(** The rows that remain do not depend on what the image store answers. *)
Lemma processBills_rows_independent w w' bills table :
  (forall id, Reaper.deleteOk w id = Reaper.deleteOk w' id) ->
  snd (fst (Reaper.processBills w bills table))
  = snd (fst (Reaper.processBills w' bills table))
  /\ snd (Reaper.processBills w bills table) = snd (Reaper.processBills w' bills table).
Proof.
  intros Hsame. revert table. induction bills as [| b bills IH]; intros table; simpl.
  - split; reflexivity.
  - rewrite <- Hsame. destruct (Reaper.deleteOk w (Bill.id b)).
    + specialize (IH (Reaper.deleteRow (Bill.id b) table)).
      destruct (Reaper.processBills w bills (Reaper.deleteRow (Bill.id b) table))
        as [[e1 t1] x1].
      destruct (Reaper.processBills w' bills (Reaper.deleteRow (Bill.id b) table))
        as [[e2 t2] x2].
      exact IH.
    + split; reflexivity.
Qed.

(** The bills of a batch are all deleted without error, or there is a
    first one whose row deletion throws. *)
Lemma first_failure w (bills : list Bill.t) :
  Forall (fun b => Reaper.deleteOk w (Bill.id b) = true) bills
  \/ exists before bad after,
       bills = before ++ bad :: after
       /\ Forall (fun b => Reaper.deleteOk w (Bill.id b) = true) before
       /\ Reaper.deleteOk w (Bill.id bad) = false.
Proof.
  induction bills as [| b bills IH].
  - left. constructor.
  - destruct (Reaper.deleteOk w (Bill.id b)) eqn:E.
    + destruct IH as [IH | (before & bad & after & -> & Hok & Hbad)].
      * left. constructor; assumption.
      * right. exists (b :: before), bad, after. repeat split; try assumption.
        constructor; assumption.
    + right. exists [], b, bills. repeat split; [constructor | exact E].
Qed.





(** C5 (as amended). What the image store answers has no influence on the
    rows that a run deletes: a failed image deletion is followed by the
    deletion of the bill's row like a successful one.  A row deletion that
    throws ends the run: the bills selected before it have been dealt with
    and their rows deleted, the failed deletion is logged, and the bills
    after it are left for a later run.  When no row deletion throws, every
    selected bill is dealt with and no error is logged. *)
Theorem reaper_failure_handling :
  (forall w w' now table,
     (forall id, Reaper.deleteOk w id = Reaper.deleteOk w' id) ->
     snd (Reaper.cronJob w now table) = snd (Reaper.cronJob w' now table))
  /\ (forall w now table,
       Forall (fun b => Reaper.deleteOk w (Bill.id b) = true) (Reaper.findMany now table) ->
       effects (fst (Reaper.cronJob w now table))
       = flat_map billEffects (Reaper.findMany now table)
       /\ snd (Reaper.cronJob w now table) = deleteRows (Reaper.findMany now table) table
       /\ ~ In Reaper.LogCronError (fst (Reaper.cronJob w now table)))
  /\ (forall w now table before bad after,
       Reaper.findMany now table = before ++ bad :: after ->
       Forall (fun b => Reaper.deleteOk w (Bill.id b) = true) before ->
       Reaper.deleteOk w (Bill.id bad) = false ->
       effects (fst (Reaper.cronJob w now table)) = flat_map billEffects (before ++ [bad])
       /\ snd (Reaper.cronJob w now table) = deleteRows before table
       /\ In Reaper.LogCronError (fst (Reaper.cronJob w now table))).
Proof.
  split; [| split].
  - intros w w' now table Hsame. unfold Reaper.cronJob.
    destruct (processBills_rows_independent w w' (Reaper.findMany now table) table Hsame)
      as [T _].
    destruct (Reaper.processBills w (Reaper.findMany now table) table) as [[e1 t1] x1].
    destruct (Reaper.processBills w' (Reaper.findMany now table) table) as [[e2 t2] x2].
    exact T.
  - exact cronJob_all_ok.
  - exact cronJob_stops.
Qed.

Lemma reaper_failure_handling_witness :
  snd (Reaper.cronJob SampleReaper.imagesDown 100 SampleReaper.table)
  = snd (Reaper.cronJob (Reaper.mkWorld (fun _ => true) (fun _ => true)) 100
           SampleReaper.table)
  /\ (effects (fst (Reaper.cronJob SampleReaper.imagesDown 100 SampleReaper.table))
      = flat_map billEffects (Reaper.findMany 100 SampleReaper.table)
      /\ snd (Reaper.cronJob SampleReaper.imagesDown 100 SampleReaper.table)
         = deleteRows (Reaper.findMany 100 SampleReaper.table) SampleReaper.table
      /\ ~ In Reaper.LogCronError
            (fst (Reaper.cronJob SampleReaper.imagesDown 100 SampleReaper.table)))
  /\ (effects (fst (Reaper.cronJob SampleReaper.row1Stuck 100 SampleReaper.table))
      = flat_map billEffects ([] ++ [SampleReaper.bill1])
      /\ snd (Reaper.cronJob SampleReaper.row1Stuck 100 SampleReaper.table)
         = deleteRows [] SampleReaper.table
      /\ In Reaper.LogCronError
           (fst (Reaper.cronJob SampleReaper.row1Stuck 100 SampleReaper.table))).
Proof.
  destruct reaper_failure_handling as (P1 & P2 & P3).
  split; [| split].
  - apply P1. reflexivity.
  - apply P2. repeat constructor.
  - apply (P3 SampleReaper.row1Stuck 100%Z SampleReaper.table []
             SampleReaper.bill1 [SampleReaper.bill2; SampleReaper.bill3]).
    + reflexivity.
    + constructor.
    + reflexivity.
Defined.

(** C5 as stated fails: when the deletion of the first expired row throws,
    the second expired bill is not processed in that run: no request is
    made for its image, its row deletion is not asked for, and the row is
    still there. *)
Lemma reaper_batch_counterexample :
  let run := Reaper.cronJob SampleReaper.row1Stuck 100 SampleReaper.table in
  In SampleReaper.bill2 (Reaper.findMany 100 SampleReaper.table)
  /\ fst run
     = [Reaper.LogChecking; Reaper.PostDestroy "a"; Reaper.LogImageDeleted "a";
        Reaper.DeleteRow 1; Reaper.LogCronError]
  /\ ~ In (Reaper.PostDestroy "b") (fst run)
  /\ ~ In (Reaper.DeleteRow 2) (fst run)
  /\ In SampleReaper.bill2 (snd run).
Proof.
  cbv zeta. split; [right; left; reflexivity |].
  split; [reflexivity |].
  split; [simpl; intuition discriminate |].
  split; [simpl; intuition discriminate |].
  right; left; reflexivity.
Qed.

(** ** The stock update *)

Lemma isNaN_spec (x : JsNumber.t) :
  JsNumber.isNaN x = true <-> Prim2SF x = S754_nan.
Proof.
  unfold JsNumber.isNaN, PrimFloat.is_nan. rewrite FloatAxioms.eqb_spec. split.
  - destruct (Prim2SF x) as [s | s | | s m e]; try reflexivity.
    + destruct s; discriminate.
    + destruct s; discriminate.
    + unfold SFeqb, SFcompare. rewrite Z.compare_refl, Pos.compare_cont_refl.
      destruct s; discriminate.
  - intros ->. reflexivity.
Qed.

(** A quantity that is not a number gives a product that is not one. *)
Lemma quantityToDeduct_NaN ing item :
  isNumeric ing = false -> JsNumber.isNaN (quantityToDeduct ing item) = true.
Proof.
  unfold isNumeric. intros H. apply negb_false_iff in H. apply isNaN_spec in H.
  apply isNaN_spec. unfold quantityToDeduct. rewrite mul_spec, H. reflexivity.
Qed.

Lemma amountsFor_app businessId u1 u2 r :
  amountsFor businessId (u1 ++ u2) r
  = amountsFor businessId u1 r ++ amountsFor businessId u2 r.
Proof. unfold amountsFor. rewrite Stdlib.Lists.List.filter_app, map_app. reflexivity. Qed.

Lemma amountsFor_same businessId uses r r' :
  InventoryItem.name r' = InventoryItem.name r ->
  InventoryItem.businessId r' = InventoryItem.businessId r ->
  amountsFor businessId uses r' = amountsFor businessId uses r.
Proof.
  intros Hn Hz. unfold amountsFor. f_equal. apply Stdlib.Lists.List.filter_ext. intros use.
  unfold takes. rewrite Hn, Hz. reflexivity.
Qed.

Lemma loweredBy_nil businessId inv : loweredBy businessId [] inv inv.
Proof.
  unfold loweredBy. induction inv as [| r inv IH]; constructor; [| exact IH].
  repeat split.
Qed.

Lemma loweredBy_app businessId u1 u2 a b c :
  loweredBy businessId u1 a b -> loweredBy businessId u2 b c ->
  loweredBy businessId (u1 ++ u2) a c.
Proof.
  unfold loweredBy. intros H. revert c.
  induction H as [| r r' a b (Hn & Hz & Hq) H IH]; intros c Hbc;
    inversion Hbc as [| ? r'' ? c' (Hn' & Hz' & Hq') Hbc']; subst; constructor.
  - split; [congruence |]. split; [congruence |].
    rewrite Hq', Hq, amountsFor_app, fold_left_app.
    rewrite (amountsFor_same businessId u2 r r' Hn Hz). reflexivity.
  - apply IH, Hbc'.
Qed.

Lemma deductIngredient_spec businessId item inv ing :
  loweredBy businessId [(ing, item)] inv (deductIngredient businessId item inv ing).
Proof.
  unfold deductIngredient, loweredBy, amountsFor, takes. cbn [List.filter fst snd].
  destruct (JsNumber.isNaN (quantityToDeduct ing item)) eqn:N.
  - induction inv as [| r inv IH]; constructor; [| exact IH].
    rewrite andb_false_r. repeat split.
  - unfold decrementMany.
    induction inv as [| r inv IH]; cbn [map]; constructor; [| exact IH].
    rewrite andb_true_r.
    destruct (String.eqb (InventoryItem.name r) (Ingredient.name ing)
              && (InventoryItem.businessId r =? businessId)%Z); repeat split.
Qed.

Lemma deductIngredients_spec businessId item entries inv :
  loweredBy businessId (map (fun ing => (ing, item)) (entriesBeforeNull entries)) inv
    (fst (deductIngredients businessId item entries inv))
  /\ (snd (deductIngredients businessId item entries inv) = None
      <-> noNull entries = true).
Proof.
  revert inv. induction entries as [| [ing |] entries IH]; intros inv.
  - split; [apply loweredBy_nil | split; reflexivity].
  - cbn [deductIngredients entriesBeforeNull map noNull forallb].
    destruct (IH (deductIngredient businessId item inv ing)) as [L T].
    split; [| exact T].
    exact (loweredBy_app businessId [(ing, item)] _ _ _ _
             (deductIngredient_spec businessId item inv ing) L).
  - split; [apply loweredBy_nil | split; discriminate].
Qed.

Lemma updateInventoryStock_spec products businessId cart_items inv :
  loweredBy businessId (reachedUses products cart_items) inv
    (fst (updateInventoryStock products businessId cart_items inv))
  /\ (snd (updateInventoryStock products businessId cart_items inv) = None
      <-> forallb (lineRuns products) cart_items = true).
Proof.
  revert inv. induction cart_items as [| item cart_items IH]; intros inv.
  - split; [apply loweredBy_nil | split; reflexivity].
  - cbn [updateInventoryStock reachedUses forallb]. unfold lineRuns at 1 2, recipeOf.
    destruct (CartItem.productId item) as [productId |].
    2: { cbn [fst snd andb]. split; [exact (loweredBy_nil businessId inv) |].
         split; intros H; discriminate H. }
    destruct (ingredientsOf (products !! productId)) as [entries |].
    2: { cbn [fst snd andb]. split; [exact (loweredBy_nil businessId inv) |].
         split; intros H; discriminate H. }
    change (default [] (Some entries)) with entries.
    destruct (deductIngredients_spec businessId item entries inv) as [L T].
    destruct (deductIngredients businessId item entries inv) as [inv' [e |]];
      cbn [fst snd] in *.
    + assert (N : noNull entries = false).
      { destruct (noNull entries); [| reflexivity].
        destruct T as [_ T]. discriminate (T eq_refl). }
      rewrite N, app_nil_r. cbn [andb]. split; [exact L |].
      split; intros H; discriminate H.
    + rewrite (proj1 T eq_refl). cbn [andb].
      destruct (IH inv') as [L' T']. split; [| exact T'].
      exact (loweredBy_app businessId _ _ _ _ _ L L').
Qed.

Lemma entriesBeforeNull_all entries :
  noNull entries = true -> entriesBeforeNull entries = presentEntries entries.
Proof.
  induction entries as [| [ing |] entries IH]; cbn; [reflexivity | | discriminate].
  intros H. rewrite (IH H). reflexivity.
Qed.

Lemma reachedUses_all products cart_items :
  forallb (lineRuns products) cart_items = true ->
  reachedUses products cart_items = cartUses products cart_items.
Proof.
  induction cart_items as [| item cart_items IH]; [reflexivity |].
  cbn [forallb reachedUses cartUses flat_map]. intros H.
  apply andb_true_iff in H. destruct H as [R H]. rewrite R.
  fold (cartUses products cart_items). rewrite (IH H). f_equal.
  unfold usesOf. f_equal. apply entriesBeforeNull_all.
  unfold lineRuns in R. destruct (recipeOf products item); [exact R | discriminate R].
Qed.








(** * Further properties of the routes *)

Import DecimalFacts.

(** ** Requests that are refused, and what an accepted request may touch *)

Lemma sameAt_insert_both db (oid : Z) (o : Order.t) (b : Bill.t) (n : Z) k :
  k <> oid ->
  sameAt db (mkDB (<[oid := o]> (orders db)) (<[oid := b]> (bills db)) n) k.
Proof.
  intros H. unfold sameAt; cbn [orders bills].
  rewrite !lookup_insert_ne by congruence. split; reflexivity.
Qed.

Lemma sameAt_insert_orders db (oid : Z) (o : Order.t) k :
  k <> oid -> sameAt db (setOrders (<[oid := o]> (orders db)) db) k.
Proof.
  intros H. unfold sameAt, setOrders; cbn [orders bills].
  rewrite lookup_insert_ne by congruence. split; reflexivity.
Qed.

Lemma sameAt_insert_bills db (oid : Z) (b : Bill.t) (n : Z) k :
  k <> oid -> sameAt db (mkDB (orders db) (<[oid := b]> (bills db)) n) k.
Proof.
  intros H. unfold sameAt; cbn [orders bills].
  rewrite lookup_insert_ne by congruence. split; reflexivity.
Qed.

Lemma falsyId_false bo : falsyId bo = false -> exists b, bo = Some b /\ b <> 0%Z.
Proof.
  destruct bo as [b |]; [| discriminate]. simpl. intros H.
  exists b. split; [reflexivity | apply Z.eqb_neq, H].
Qed.

Ltac refused := left; split; reflexivity.

Ltac owner F :=
  let b := fresh "b" in
  let E := fresh "E" in
  destruct (falsyId_false _ F) as (b & E & _); subst; simpl default in *.

Lemma postBill_shape db bo oid t :
  (accepted (fst (postBill db bo oid t)) = false /\ snd (postBill db bo oid t) = db)
  \/ (accepted (fst (postBill db bo oid t)) = true
      /\ writesOwn db (snd (postBill db bo oid t)) bo oid).
Proof.
  unfold postBill.
  destruct (negb (validTaxRates t)); [refused |].
  destruct (falsyId bo) eqn:F; [refused |]. owner F.
  destruct (ownedOrder db oid b) as [order |] eqn:O; [| refused].
  destruct (bills db !! oid); [refused |].
  right. split; [reflexivity |]. exists b, order. repeat split; try assumption.
  all: cbn [snd orders bills]; rewrite lookup_insert_ne by congruence; reflexivity.
Qed.

Lemma updateCharges_shape db bo oidp body :
  (accepted (fst (updateCharges db bo oidp body)) = false
   /\ snd (updateCharges db bo oidp body) = db)
  \/ (accepted (fst (updateCharges db bo oidp body)) = true
      /\ exists oid, oidp = Some oid
           /\ writesOwn db (snd (updateCharges db bo oidp body)) bo oid).
Proof.
  unfold updateCharges.
  destruct (falsyId oidp) eqn:G; [refused |].
  destruct (falsyId bo) eqn:F; [refused |]. owner F.
  destruct (falsyId_false _ G) as (oid & -> & _). simpl default.
  destruct (ownedOrder db oid b) as [order |] eqn:O; [| refused].
  destruct (bills db !! oid); [| refused].
  right. split; [reflexivity |]. exists oid. split; [reflexivity |].
  exists b, order. repeat split; try assumption.
  all: cbn [snd orders bills]; rewrite lookup_insert_ne by congruence; reflexivity.
Qed.

Lemma storeLink_shape isUri db now bo oidp body :
  (accepted (fst (storeLink isUri db now bo oidp body)) = false
   /\ snd (storeLink isUri db now bo oidp body) = db)
  \/ (accepted (fst (storeLink isUri db now bo oidp body)) = true
      /\ exists oid, oidp = Some oid
           /\ writesOwn db (snd (storeLink isUri db now bo oidp body)) bo oid).
Proof.
  unfold storeLink.
  destruct (negb (validStoreLink isUri body)); [refused |].
  destruct (falsyId oidp) eqn:G; [refused |].
  destruct (falsyId bo) eqn:F; [refused |]. owner F.
  destruct (falsyId_false _ G) as (oid & -> & _). simpl default.
  destruct (ownedOrder db oid b) as [order |] eqn:O; [| refused].
  destruct (bills db !! oid).
  - right. split; [reflexivity |]. exists oid. split; [reflexivity |].
    exists b, order. repeat split; try assumption.
    cbn [snd setBills orders bills]. rewrite lookup_insert_ne by congruence. reflexivity.
  - right. split; [reflexivity |]. exists oid. split; [reflexivity |].
    exists b, order. repeat split; try assumption.
    cbn [snd orders bills]. rewrite lookup_insert_ne by congruence. reflexivity.
Qed.

Lemma updateItems_shape db bo oidp items :
  (accepted (fst (updateItems db bo oidp items)) = false
   /\ snd (updateItems db bo oidp items) = db)
  \/ (accepted (fst (updateItems db bo oidp items)) = true
      /\ exists oid, oidp = Some oid
           /\ writesOwn db (snd (updateItems db bo oidp items)) bo oid).
Proof.
  unfold updateItems.
  destruct (negb (forallb validItem items)); [refused |].
  destruct (falsyId oidp) eqn:G; [refused |].
  destruct (falsyId bo) eqn:F; [refused |]. owner F.
  destruct (falsyId_false _ G) as (oid & -> & _). simpl default.
  destruct (ownedOrder db oid b) as [order |] eqn:O; [| refused].
  set (bn := match bills db !! oid with
             | Some bill => (bill, nextBillId db)
             | None => _
             end).
  destruct bn as [bill next].
  right. split; [reflexivity |]. exists oid. split; [reflexivity |].
  exists b, order. repeat split; try assumption.
  all: cbn [snd orders bills]; rewrite lookup_insert_ne by congruence; reflexivity.
Qed.

Lemma patchOrderStatus_shape db bo oidp st :
  (accepted (fst (patchOrderStatus db bo oidp st)) = false
   /\ snd (patchOrderStatus db bo oidp st) = db)
  \/ (accepted (fst (patchOrderStatus db bo oidp st)) = true
      /\ exists oid, oidp = Some oid
           /\ writesOwn db (snd (patchOrderStatus db bo oidp st)) bo oid).
Proof.
  unfold patchOrderStatus.
  destruct (falsyId bo) eqn:F; [refused |]. owner F.
  destruct oidp as [oid |]; [| refused].
  destruct (ownedOrder db oid b) as [order |] eqn:O; [| refused].
  right. split; [reflexivity |]. exists oid. split; [reflexivity |].
  exists b, order. repeat split; try assumption.
  all: cbn [snd setOrders orders bills]; rewrite ?lookup_insert_ne by congruence; reflexivity.
Qed.

Lemma patchItemStatus_shape db bo oidp pid st :
  (accepted (fst (patchItemStatus db bo oidp pid st)) = false
   /\ snd (patchItemStatus db bo oidp pid st) = db)
  \/ (accepted (fst (patchItemStatus db bo oidp pid st)) = true
      /\ exists oid, oidp = Some oid
           /\ writesOwn db (snd (patchItemStatus db bo oidp pid st)) bo oid).
Proof.
  unfold patchItemStatus.
  destruct (falsyId bo) eqn:F; [refused |]. owner F.
  destruct oidp as [oid |]; [| refused].
  destruct (ownedOrder db oid b) as [order |] eqn:O; [| refused].
  destruct pid as [productId |]; [| refused].
  destruct (existsb (hasProduct productId) (Order.items order)); cbn [negb]; [| refused].
  right. split; [reflexivity |]. exists oid. split; [reflexivity |].
  exists b, order. repeat split; try assumption.
  all: cbn [snd setOrders orders bills]; rewrite ?lookup_insert_ne by congruence; reflexivity.
Qed.

Lemma completeAll_shape db bo oidp :
  (accepted (fst (completeAll db bo oidp)) = false /\ snd (completeAll db bo oidp) = db)
  \/ (accepted (fst (completeAll db bo oidp)) = true
      /\ exists oid, oidp = Some oid
           /\ writesOwn db (snd (completeAll db bo oidp)) bo oid).
Proof.
  unfold completeAll.
  destruct (falsyId bo) eqn:F; [refused |]. owner F.
  destruct oidp as [oid |]; [| refused].
  destruct (ownedOrder db oid b) as [order |] eqn:O; [| refused].
  right. split; [reflexivity |]. exists oid. split; [reflexivity |].
  exists b, order. repeat split; try assumption.
  all: cbn [snd setOrders orders bills]; rewrite ?lookup_insert_ne by congruence; reflexivity.
Qed.

Lemma sameAt_refl db k : sameAt db db k.
Proof. split; reflexivity. Qed.

(** What the shape of a route gives for an order that is not the caller's. *)
Lemma writesOwn_foreign db db' b oid k :
  writesOwn db db' (Some b) oid ->
  k <> oid \/ foreignOrder db b k -> sameAt db db' k.
Proof.
  intros (b' & order & [= <-] & O & Hk) [Hne | (o & Ho & Hb)].
  - apply Hk, Hne.
  - destruct (Z.eq_dec k oid) as [-> | Hne]; [| apply Hk, Hne].
    apply ownedOrder_inv in O as [O1 O2]. congruence.
Qed.

(** X1. A request to a bill route that is not answered with 200 or 201
    (failed validation, no caller, an order that does not exist or is
    another business's, a bill that exists already or is missing) leaves
    the datastore exactly as it was. *)
Theorem bill_routes_refusal_changes_nothing (db : DB) (bo oidp : option Z) :
  (forall oid t,
     accepted (fst (postBill db bo oid t)) = false -> snd (postBill db bo oid t) = db)
  /\ (forall body,
        accepted (fst (updateCharges db bo oidp body)) = false ->
        snd (updateCharges db bo oidp body) = db)
  /\ (forall isUri now body,
        accepted (fst (storeLink isUri db now bo oidp body)) = false ->
        snd (storeLink isUri db now bo oidp body) = db)
  /\ (forall items,
        accepted (fst (updateItems db bo oidp items)) = false ->
        snd (updateItems db bo oidp items) = db)
  /\ (forall now, snd (getBill db now bo oidp) = db).
Proof.
  split; [| split; [| split; [| split]]].
  - intros oid t H. destruct (postBill_shape db bo oid t) as [[_ E] | [A _]]; congruence.
  - intros body H.
    destruct (updateCharges_shape db bo oidp body) as [[_ E] | [A _]]; congruence.
  - intros isUri now body H.
    destruct (storeLink_shape isUri db now bo oidp body) as [[_ E] | [A _]]; congruence.
  - intros items H.
    destruct (updateItems_shape db bo oidp items) as [[_ E] | [A _]]; congruence.
  - intros now. unfold getBill.
    destruct (falsyId oidp); [reflexivity |].
    destruct (falsyId bo); [reflexivity |].
    destruct (ownedOrder db (default 0%Z oidp) (default 0%Z bo)); [| reflexivity].
    destruct (bills db !! default 0%Z oidp); reflexivity.
Qed.

Lemma bill_routes_refusal_changes_nothing_witness :
  snd (updateCharges SampleShop.twoBusinesses (Some 7%Z) (Some 2%Z) SampleCharges.onlyVatLow)
  = SampleShop.twoBusinesses.
Proof.
  apply (proj1 (proj2 (bill_routes_refusal_changes_nothing SampleShop.twoBusinesses
                         (Some 7%Z) (Some 2%Z)))).
  reflexivity.
Defined.

(** X2. No bill route changes an order or a bill of another business, nor
    any order or bill other than the one named in the request. *)
Theorem bill_routes_keep_to_the_callers_order (db : DB) (b oid k : Z) :
  k <> oid \/ foreignOrder db b k ->
  (forall t, sameAt db (snd (postBill db (Some b) oid t)) k)
  /\ (forall body, sameAt db (snd (updateCharges db (Some b) (Some oid) body)) k)
  /\ (forall isUri now body,
        sameAt db (snd (storeLink isUri db now (Some b) (Some oid) body)) k)
  /\ (forall items, sameAt db (snd (updateItems db (Some b) (Some oid) items)) k).
Proof.
  intros H. split; [| split; [| split]].
  - intros t. destruct (postBill_shape db (Some b) oid t) as [[_ ->] | [_ W]];
      [apply sameAt_refl | exact (writesOwn_foreign _ _ _ _ _ W H)].
  - intros body.
    destruct (updateCharges_shape db (Some b) (Some oid) body)
      as [[_ ->] | [_ (oid' & [= <-] & W)]];
      [apply sameAt_refl | exact (writesOwn_foreign _ _ _ _ _ W H)].
  - intros isUri now body.
    destruct (storeLink_shape isUri db now (Some b) (Some oid) body)
      as [[_ ->] | [_ (oid' & [= <-] & W)]];
      [apply sameAt_refl | exact (writesOwn_foreign _ _ _ _ _ W H)].
  - intros items.
    destruct (updateItems_shape db (Some b) (Some oid) items)
      as [[_ ->] | [_ (oid' & [= <-] & W)]];
      [apply sameAt_refl | exact (writesOwn_foreign _ _ _ _ _ W H)].
Qed.

Lemma bill_routes_keep_to_the_callers_order_witness :
  sameAt SampleShop.twoBusinesses
    (snd (updateCharges SampleShop.twoBusinesses (Some 7%Z) (Some 1%Z)
            SampleCharges.onlyVatLow)) 2.
Proof.
  assert (N : (2 <> 1)%Z) by lia.
  apply (proj1 (proj2 (bill_routes_keep_to_the_callers_order SampleShop.twoBusinesses
                         7 1 2 (or_introl N)))).
Defined.

(** X3. The three status routes of the orders do the same: a request that
    is not answered with 200 changes nothing, and an accepted one changes
    neither an order of another business nor any order but its own; none of
    them touches a bill. *)
Theorem order_routes_keep_to_the_callers_order (db : DB) (bo oidp : option Z) :
  (forall st, accepted (fst (patchOrderStatus db bo oidp st)) = false ->
              snd (patchOrderStatus db bo oidp st) = db)
  /\ (forall pid st, accepted (fst (patchItemStatus db bo oidp pid st)) = false ->
                     snd (patchItemStatus db bo oidp pid st) = db)
  /\ (accepted (fst (completeAll db bo oidp)) = false -> snd (completeAll db bo oidp) = db)
  /\ (forall b oid k,
        bo = Some b -> oidp = Some oid -> k <> oid \/ foreignOrder db b k ->
        (forall st, sameAt db (snd (patchOrderStatus db bo oidp st)) k)
        /\ (forall pid st, sameAt db (snd (patchItemStatus db bo oidp pid st)) k)
        /\ sameAt db (snd (completeAll db bo oidp)) k)
  /\ (forall st, bills (snd (patchOrderStatus db bo oidp st)) = bills db)
  /\ (forall pid st, bills (snd (patchItemStatus db bo oidp pid st)) = bills db)
  /\ bills (snd (completeAll db bo oidp)) = bills db.
Proof.
  split; [| split; [| split; [| split; [| split; [| split]]]]].
  - intros st H.
    destruct (patchOrderStatus_shape db bo oidp st) as [[_ E] | [A _]]; congruence.
  - intros pid st H.
    destruct (patchItemStatus_shape db bo oidp pid st) as [[_ E] | [A _]]; congruence.
  - intros H. destruct (completeAll_shape db bo oidp) as [[_ E] | [A _]]; congruence.
  - intros b oid k -> -> H. split; [| split].
    + intros st.
      destruct (patchOrderStatus_shape db (Some b) (Some oid) st)
        as [[_ ->] | [_ (oid' & [= <-] & W)]];
        [apply sameAt_refl | exact (writesOwn_foreign _ _ _ _ _ W H)].
    + intros pid st.
      destruct (patchItemStatus_shape db (Some b) (Some oid) pid st)
        as [[_ ->] | [_ (oid' & [= <-] & W)]];
        [apply sameAt_refl | exact (writesOwn_foreign _ _ _ _ _ W H)].
    + destruct (completeAll_shape db (Some b) (Some oid))
        as [[_ ->] | [_ (oid' & [= <-] & W)]];
        [apply sameAt_refl | exact (writesOwn_foreign _ _ _ _ _ W H)].
  - intros st. unfold patchOrderStatus.
    destruct (falsyId bo); [reflexivity |].
    destruct oidp as [oid |]; [| reflexivity].
    destruct (ownedOrder db oid (default 0%Z bo)); reflexivity.
  - intros pid st. unfold patchItemStatus.
    destruct (falsyId bo); [reflexivity |].
    destruct oidp as [oid |]; [| reflexivity].
    destruct (ownedOrder db oid (default 0%Z bo)) as [order |]; [| reflexivity].
    destruct pid as [productId |]; [| reflexivity].
    destruct (existsb (hasProduct productId) (Order.items order)); reflexivity.
  - unfold completeAll.
    destruct (falsyId bo); [reflexivity |].
    destruct oidp as [oid |]; [| reflexivity].
    destruct (ownedOrder db oid (default 0%Z bo)); reflexivity.
Qed.

Lemma order_routes_keep_to_the_callers_order_witness :
  snd (completeAll SampleShop.twoBusinesses (Some 7%Z) (Some 2%Z))
  = SampleShop.twoBusinesses.
Proof.
  apply (proj1 (proj2 (proj2 (order_routes_keep_to_the_callers_order
                                SampleShop.twoBusinesses (Some 7%Z) (Some 2%Z))))).
  reflexivity.
Defined.

(** ** [update-charges] twice *)

Lemma mergeRates_idem body old : mergeRates body (mergeRates body old) = mergeRates body old.
Proof.
  unfold mergeRates. cbn [vatLow vatHigh serviceTax serviceCharge].
  destruct (vatLow body), (vatHigh body), (serviceTax body), (serviceCharge body);
    reflexivity.
Qed.

Lemma ownedOrder_insert db (oid b : Z) (o o' : Order.t) (bs : gmap Z Bill.t) (n : Z) :
  ownedOrder db oid b = Some o -> Order.businessId o' = Order.businessId o ->
  ownedOrder (mkDB (<[oid := o']> (orders db)) bs n) oid b = Some o'.
Proof.
  intros O E. apply ownedOrder_inv in O as [_ O].
  unfold ownedOrder; cbn [orders]. rewrite lookup_insert_eq, E, O, Z.eqb_refl. reflexivity.
Qed.

(** X4. [update-charges] is idempotent: the same request a second time
    gets the same answer and leaves the datastore as the first left it. *)
Theorem updateCharges_twice (db : DB) (bo oidp : option Z) (body : TaxRates) :
  updateCharges (snd (updateCharges db bo oidp body)) bo oidp body
  = updateCharges db bo oidp body.
Proof.
  unfold updateCharges at 2 3.
  destruct (falsyId oidp) eqn:G.
  { cbn [snd]. unfold updateCharges. rewrite G. reflexivity. }
  destruct (falsyId bo) eqn:F.
  { cbn [snd]. unfold updateCharges. rewrite G, F. reflexivity. }
  destruct (ownedOrder db (default 0%Z oidp) (default 0%Z bo)) as [order |] eqn:O.
  2:{ cbn [snd]. unfold updateCharges. rewrite G, F, O. reflexivity. }
  destruct (bills db !! default 0%Z oidp) as [bill |] eqn:B.
  2:{ cbn [snd]. unfold updateCharges. rewrite G, F, O, B. reflexivity. }
  cbn [snd]. unfold updateCharges. rewrite G, F.
  set (total := totalAmount (calculateTotals (baseAmountOf (Order.items order)) body)).
  rewrite (ownedOrder_insert db _ _ order (Order.setTotalAmount total order) _ _ O eq_refl).
  cbn [bills Order.items Order.setTotalAmount]. rewrite lookup_insert_eq. fold total.
  cbn [Bill.rates Bill.setTotalAmount Bill.setRates]. rewrite mergeRates_idem.
  cbn [orders nextBillId]. rewrite !insert_insert_eq. reflexivity.
Qed.

(** ** Reading a bill *)

(** X5. [GET /bill/:orderId] serves the stored row, links included, as long
    as the bill has not run out: with no [expiresAt], or with [expiresAt] at
    now or later.  For an order without bill it answers 200 with a message. *)
Theorem getBill_serves_live_bill
    (db : DB) (now b oid : Z) (order : Order.t) :
  oid <> 0%Z -> b <> 0%Z -> ownedOrder db oid b = Some order ->
  (forall bill,
     bills db !! oid = Some bill ->
     (forall e, Bill.expiresAt bill = Some e -> (now <= e)%Z) ->
     fst (getBill db now (Some b) (Some oid))
     = mkResponse 200 (BillWithItems bill (Order.items order)))
  /\ (bills db !! oid = None ->
      fst (getBill db now (Some b) (Some oid))
      = mkResponse 200 (MessageBody "No bill found for this order")).
Proof.
  intros Ho Hb O. unfold getBill.
  rewrite (falsyId_nonzero _ Ho), (falsyId_nonzero _ Hb). simpl default. rewrite O.
  split.
  - intros bill B L. rewrite B. destruct (Bill.expiresAt bill) as [e |]; [| reflexivity].
    specialize (L e eq_refl). apply Z.ltb_ge in L. rewrite L. reflexivity.
  - intros B. rewrite B. reflexivity.
Qed.

Lemma getBill_serves_live_bill_witness :
  fst (getBill Sample.dbOld 1000 (Some 7%Z) (Some 1%Z))
  = mkResponse 200 (BillWithItems Sample.oldBill [Sample.soup]).
Proof.
  assert (N1 : (1 <> 0)%Z) by lia. assert (N7 : (7 <> 0)%Z) by lia.
  apply (proj1 (getBill_serves_live_bill Sample.dbOld 1000 7 1 Sample.order1
                  N1 N7 eq_refl) Sample.oldBill).
  - reflexivity.
  - intros e E. apply Some_inj in E. subst e. lia.
Defined.

Lemma ownedOrder_same_orders db db' oid b :
  orders db' = orders db -> ownedOrder db' oid b = ownedOrder db oid b.
Proof. intros E. unfold ownedOrder. rewrite E. reflexivity. Qed.

(** The bill that a valid store-link request of the owner leaves. *)
Lemma storeLink_stored isUri db now b oid body order :
  validStoreLink isUri body = true -> oid <> 0%Z -> b <> 0%Z ->
  ownedOrder db oid b = Some order ->
  orders (snd (storeLink isUri db now (Some b) (Some oid) body)) = orders db
  /\ exists bill,
       bills (snd (storeLink isUri db now (Some b) (Some oid) body)) !! oid = Some bill
       /\ Bill.expiresAt bill = Some (now + dayMs)%Z
       /\ chosenLink (default false (isModified body)) (Bill.billStoreLink bill)
            (Bill.modifiedBillStoreLink bill)
          = Some (billStoreLink body)
       /\ forall old,
            bills db !! oid = Some old ->
            chosenLink (negb (default false (isModified body))) (Bill.billStoreLink bill)
              (Bill.modifiedBillStoreLink bill)
            = chosenLink (negb (default false (isModified body))) (Bill.billStoreLink old)
                (Bill.modifiedBillStoreLink old)
            /\ Bill.totalAmount bill = Bill.totalAmount old
            /\ Bill.rates bill = Bill.rates old
            /\ Bill.id bill = Bill.id old.
Proof.
  intros V Ho Hb O. unfold storeLink.
  rewrite V, (falsyId_nonzero _ Ho), (falsyId_nonzero _ Hb). simpl default. rewrite O.
  cbn [negb]. destruct (bills db !! oid) as [old |] eqn:B; cbn [snd setBills orders bills].
  - split; [reflexivity |]. eexists. rewrite lookup_insert_eq. split; [reflexivity |].
    unfold putStoreLink. destruct (default false (isModified body)).
    + split; [reflexivity |]. split; [reflexivity |].
      intros old' [= <-]. split; [reflexivity |]. split; [reflexivity |]. split; reflexivity.
    + split; [reflexivity |]. split; [reflexivity |].
      intros old' [= <-]. split; [reflexivity |]. split; [reflexivity |]. split; reflexivity.
  - split; [reflexivity |]. eexists. rewrite lookup_insert_eq. split; [reflexivity |].
    unfold putStoreLink. destruct (default false (isModified body)).
    + split; [reflexivity |]. split; [reflexivity |]. intros old' [=].
    + split; [reflexivity |]. split; [reflexivity |]. intros old' [=].
Qed.

(** X6. After a valid store-link request of the owner (a link that Joi
    accepts as a URI, with an identifier that is not empty),
    [GET /bill/:orderId] shows the stored link for 24 hours, the last
    millisecond included, and null for both links afterwards;
    [GET /bill/:orderId/link] returns the stored link at any time, also once
    it has run out.  On a bill that existed, the other link, the total, the
    rates and the identifier are kept. *)
Theorem storeLink_then_read
    (isUri : string -> bool) (db : DB) (now b oid : Z) (body : StoreLinkBody)
    (order : Order.t) :
  validStoreLink isUri body = true -> oid <> 0%Z -> b <> 0%Z ->
  ownedOrder db oid b = Some order ->
  let db' := snd (storeLink isUri db now (Some b) (Some oid) body) in
  let modified := default false (isModified body) in
  (forall t,
     exists shown,
       fst (getBill db' t (Some b) (Some oid))
       = mkResponse 200 (BillWithItems shown (Order.items order))
       /\ ((t <= now + dayMs)%Z ->
           chosenLink modified (Bill.billStoreLink shown) (Bill.modifiedBillStoreLink shown)
           = Some (billStoreLink body))
       /\ ((now + dayMs < t)%Z ->
           Bill.billStoreLink shown = None /\ Bill.modifiedBillStoreLink shown = None))
  /\ (exists l ml,
        getBillLink db' (Some b) (Some oid) = Links l ml
        /\ chosenLink modified l ml = Some (billStoreLink body))
  /\ (forall old,
        bills db !! oid = Some old ->
        exists bill,
          bills db' !! oid = Some bill
          /\ chosenLink (negb modified) (Bill.billStoreLink bill)
               (Bill.modifiedBillStoreLink bill)
             = chosenLink (negb modified) (Bill.billStoreLink old)
                 (Bill.modifiedBillStoreLink old)
          /\ Bill.totalAmount bill = Bill.totalAmount old
          /\ Bill.rates bill = Bill.rates old
          /\ Bill.id bill = Bill.id old).
Proof.
  intros V Ho Hb O db' modified.
  destruct (storeLink_stored isUri db now b oid body order V Ho Hb O)
    as (Eo & bill & B & X & L & K).
  fold db' in Eo, B. fold modified in L, K.
  assert (O' : ownedOrder db' oid b = Some order)
    by (rewrite (ownedOrder_same_orders db db' oid b Eo); exact O).
  split; [| split].
  - intros t. unfold getBill.
    rewrite (falsyId_nonzero _ Ho), (falsyId_nonzero _ Hb). simpl default.
    rewrite O', B, X. destruct (Z.ltb_spec (now + dayMs) t) as [Late | Early].
    + eexists. split; [reflexivity |]. split; [lia |]. intros _. split; reflexivity.
    + eexists. split; [reflexivity |]. split; [intros _; exact L | lia].
  - unfold getBillLink.
    rewrite (falsyId_nonzero _ Ho), (falsyId_nonzero _ Hb). simpl default.
    rewrite B. apply ownedOrder_inv in O' as [O1 O2]. rewrite O1, O2, Z.eqb_refl.
    eexists. eexists. split; [reflexivity | exact L].
  - intros old Hold. exists bill. split; [exact B | exact (K old Hold)].
Qed.

Lemma storeLink_then_read_witness :
  exists l ml,
    getBillLink
      (snd (storeLink SampleShop.httpsLinks Sample.db0 0 (Some 7%Z) (Some 1%Z)
              SampleShop.link))
      (Some 7%Z) (Some 1%Z) = Links l ml
    /\ chosenLink false l ml = Some "https://img.example/bill_9.png".
Proof.
  assert (N1 : (1 <> 0)%Z) by lia. assert (N7 : (7 <> 0)%Z) by lia.
  pose proof (storeLink_then_read SampleShop.httpsLinks Sample.db0 0 7 1 SampleShop.link
                Sample.order1 eq_refl N1 N7 eq_refl) as H.
  exact (proj1 (proj2 H)).
Defined.

(** ** Rounding to two decimals, once more *)

Section RoundingFacts.
Import Decimal.

Lemma roundPos_idem x dp : roundPos (roundPos x dp) dp == roundPos x dp.
Proof. unfold roundPos at 2 3. apply roundPos_grid. Qed.

Lemma roundHalfUp_idem x dp : roundHalfUp (roundHalfUp x dp) dp == roundHalfUp x dp.
Proof.
  destruct (Qlt_le_dec x 0) as [H | H].
  - rewrite (roundHalfUp_neg x) by exact H.
    rewrite roundHalfUp_opp. rewrite (roundHalfUp_nonneg (roundPos (- x) dp)).
    + rewrite roundPos_idem. reflexivity.
    + apply roundPos_nonneg. lra.
  - rewrite (roundHalfUp_nonneg x) by exact H.
    rewrite roundHalfUp_nonneg by (apply roundPos_nonneg, H).
    apply roundPos_idem.
Qed.

Lemma round_idem x : round (round x) == round x.
Proof. unfold round, toNumber, toDecimalPlaces. apply roundHalfUp_idem. Qed.

Lemma atMostDigits_comp sd x y : x == y -> atMostDigits sd x -> atMostDigits sd y.
Proof. intros E (m & e & Hm & F). exists m, e. split; [exact Hm | rewrite <- E; exact F]. Qed.

Lemma roundPos_atMostDigits sd m e dp :
  (0 < m < 10 ^ sd)%Z ->
  atMostDigits sd (roundPos (inject_Z m * pow10 e) dp).
Proof.
  intros [Hm0 Hm].
  assert (Hsd : (0 <= sd)%Z).
  { destruct (Z.leb_spec 0 sd); [assumption |]. rewrite Z.pow_neg_r in Hm by lia. lia. }
  destruct (Z.leb_spec 0 (e + dp)) as [Hge | Hlt].
  - apply (atMostDigits_comp sd (inject_Z m * pow10 e)); [| exists m, e; split;
      [rewrite Z.abs_eq; lia | reflexivity]].
    assert (E : inject_Z m * pow10 e == inject_Z (m * 10 ^ (e + dp)) * pow10 (- dp)).
    { rewrite inject_Z_mult, <- pow10_Z by exact Hge.
      rewrite <- Qmult_assoc, <- pow10_plus.
      replace (e + dp + - dp)%Z with e by lia. reflexivity. }
    rewrite E at 2. rewrite roundPos_grid. exact E.
  - unfold roundPos.
    set (p := inject_Z m * pow10 e * pow10 dp).
    set (y := p + (1 # 2)).
    assert (Hy0 : 0 <= p).
    { unfold p. rewrite <- Qmult_assoc. apply Qmult_le_0_compat.
      - change 0 with (inject_Z 0). rewrite <- Zle_Qle. lia.
      - apply Qlt_le_weak, Qmult_lt_0_compat; apply pow10_pos. }
    assert (Hy1 : p <= inject_Z m * (1 # 10)).
    { unfold p. rewrite <- Qmult_assoc. apply Qmult_le_l.
      - change 0 with (inject_Z 0). rewrite <- Zlt_Qlt. exact Hm0.
      - rewrite <- pow10_plus. change (1 # 10) with (pow10 (- 1)). apply pow10_le. lia. }
    assert (Hz0 : (0 <= Qfloor y)%Z).
    { change 0%Z with (Qfloor 0). apply Qfloor_resp_le. unfold y. lra. }
    assert (Yd : y == p + (1 # 2)) by reflexivity.
    assert (Hz1 : (Qfloor y < 10 ^ sd)%Z).
    { pose proof (Qfloor_le y) as F.
      assert (M : inject_Z m <= inject_Z (10 ^ sd) - 1).
      { assert (G : (m <= 10 ^ sd - 1)%Z) by lia.
        rewrite Zle_Qle in G. unfold Z.sub in G. rewrite inject_Z_plus in G.
        change (inject_Z (- (1))) with (- (1)) in G. exact G. }
      assert (P : 1 <= inject_Z (10 ^ sd)).
      { change 1 with (inject_Z 1). rewrite <- Zle_Qle. lia. }
      rewrite Zlt_Qlt. lra. }
    exists (Qfloor y), (- dp)%Z. split; [rewrite Z.abs_eq; lia | reflexivity].
Qed.

Lemma roundHalfUp_atMostDigits sd x dp :
  (1 <= sd)%Z -> atMostDigits sd x -> atMostDigits sd (roundHalfUp x dp).
Proof.
  intros Hsd (m & e & Hm & E).
  destruct (Z.lt_trichotomy m 0) as [Hneg | [-> | Hpos]].
  - assert (F : x == - (inject_Z (- m) * pow10 e)).
    { rewrite E, inject_Z_opp. ring. }
    apply (atMostDigits_comp sd (- roundHalfUp (inject_Z (- m) * pow10 e) dp)).
    + rewrite F, roundHalfUp_opp. reflexivity.
    + apply atMostDigits_opp. rewrite roundHalfUp_nonneg.
      * apply roundPos_atMostDigits. lia.
      * apply Qmult_le_0_compat; [| apply Qlt_le_weak, pow10_pos].
        change 0 with (inject_Z 0). rewrite <- Zle_Qle. lia.
  - exists 0%Z, 0%Z. split; [simpl; apply Z.pow_pos_nonneg; lia |].
    assert (F : x == 0) by (rewrite E; ring).
    rewrite F, roundHalfUp_nonneg, roundPos_0 by lra. reflexivity.
  - apply (atMostDigits_comp sd (roundHalfUp (inject_Z m * pow10 e) dp));
      [rewrite E; reflexivity |].
    rewrite roundHalfUp_nonneg.
    + apply roundPos_atMostDigits. lia.
    + apply Qmult_le_0_compat; [| apply Qlt_le_weak, pow10_pos].
      change 0 with (inject_Z 0). rewrite <- Zle_Qle. lia.
Qed.

(** Adding zero to a rounded total of the calculator changes nothing. *)
Lemma plus_0_r_fits x :
  atMostDigits precision x -> plus x 0 == x.
Proof.
  intros H. unfold plus. rewrite Qplus_0_r. apply finalise_exact, H.
Qed.

End RoundingFacts.

(** ** The calculator, further *)

Section CalculatorMore.
Import Decimal.

#[global] Instance round_comp : Proper (Qeq ==> Qeq) round.
Proof. intros x y E. unfold round, toNumber, toDecimalPlaces. rewrite E. reflexivity. Qed.

Lemma taxAmount_comp b b' r r' :
  b == b' -> rateValue r == rateValue r' -> taxAmount b r == taxAmount b' r'.
Proof. intros Eb Er. rewrite !taxAmount_rateValue, Eb, Er. reflexivity. Qed.

Lemma roundPos_hundredths x : isHundredths (roundPos x 2).
Proof.
  exists (Qfloor (x * pow10 2 + (1 # 2))). unfold roundPos.
  change (pow10 (- (2))) with (1 # 100). unfold Qdiv. reflexivity.
Qed.

Lemma round_hundredths x : isHundredths (round x).
Proof.
  unfold round, toNumber, toDecimalPlaces, roundHalfUp.
  destruct (Qle_bool 0 x); [apply roundPos_hundredths |].
  destruct (roundPos_hundredths (- x)) as (z & E).
  exists (- z)%Z. rewrite E, inject_Z_opp. unfold Qdiv. ring.
Qed.

Lemma sumLines_nonneg {A} (price : A -> Q) (quantity : A -> Z) (items : list A) :
  Forall (fun i => 0 <= price i /\ (0 <= quantity i)%Z) items ->
  0 <= sumLines price quantity items.
Proof.
  unfold sumLines. intros H.
  enough (G : forall acc, 0 <= acc ->
              0 <= fold_left
                     (fun sum item =>
                        plus sum (mul (price item) (inject_Z (quantity item))))
                     items acc)
    by (apply G; lra).
  induction H as [| i items [Hp Hq] H IH]; intros acc Hacc; simpl; [exact Hacc |].
  apply IH. apply plus_nonneg; [exact Hacc |].
  apply mul_nonneg; [exact Hp |]. change 0 with (inject_Z 0). rewrite <- Zle_Qle. exact Hq.
Qed.

Lemma total_fits b t : atMostDigits precision (totalAmount (calculateTotals b t)).
Proof.
  unfold calculateTotals; cbn [totalAmount]. unfold round, toNumber, toDecimalPlaces.
  apply roundHalfUp_atMostDigits; [apply precision_pos |].
  apply finalise_atMostDigits, precision_pos.
Qed.

End CalculatorMore.

Lemma calculateTotals_sameRates (b : Q) (t1 t2 : TaxRates) :
  sameRates t1 t2 -> sameTotals (calculateTotals b t1) (calculateTotals b t2).
Proof.
  intros (E1 & E2 & E3 & E4).
  assert (A1 := taxAmount_comp b b _ _ (Qeq_refl b) E1).
  assert (A2 := taxAmount_comp b b _ _ (Qeq_refl b) E2).
  assert (A3 := taxAmount_comp b b _ _ (Qeq_refl b) E3).
  assert (A4 := taxAmount_comp b b _ _ (Qeq_refl b) E4).
  unfold sameTotals, calculateTotals; cbn [vatLowAmount vatHighAmount serviceTaxAmount
    serviceChargeAmount totalAmount].
  rewrite A1, A2, A3, A4. repeat split; reflexivity.
Qed.

(** X7. [calculateTotals] does not tell a rate that is null or absent from
    the rate 0: two sets of rates that contribute the same give the same
    five amounts. *)
Theorem calculateTotals_null_is_zero (b : Q) (t1 t2 : TaxRates) :
  sameRates t1 t2 -> sameTotals (calculateTotals b t1) (calculateTotals b t2).
Proof. exact (calculateTotals_sameRates b t1 t2). Qed.

Lemma calculateTotals_null_is_zero_witness :
  sameTotals (calculateTotals 100 (mkTaxRates (Some 10) None None None))
    (calculateTotals 100 (mkTaxRates (Some 10) (Some 0) (Some 0) (Some 0))).
Proof.
  apply calculateTotals_null_is_zero.
  unfold sameRates. simpl. repeat split; reflexivity.
Defined.

(** X8. Every amount that [calculateTotals] returns is a whole number of
    hundredths.  With a non-negative base amount and non-negative rates no
    amount is negative, and the total is at least the base amount as the
    arithmetic holds it, rounded to two decimals: taxes and charges never
    lower a bill. *)
Theorem calculateTotals_amounts (b : Q) (t : TaxRates) :
  (isHundredths (vatLowAmount (calculateTotals b t))
   /\ isHundredths (vatHighAmount (calculateTotals b t))
   /\ isHundredths (serviceTaxAmount (calculateTotals b t))
   /\ isHundredths (serviceChargeAmount (calculateTotals b t))
   /\ isHundredths (totalAmount (calculateTotals b t)))
  /\ (0 <= b -> ratesNonneg t ->
      0 <= vatLowAmount (calculateTotals b t)
      /\ 0 <= vatHighAmount (calculateTotals b t)
      /\ 0 <= serviceTaxAmount (calculateTotals b t)
      /\ 0 <= serviceChargeAmount (calculateTotals b t)
      /\ round (Decimal.finalise b Decimal.precision) <= totalAmount (calculateTotals b t)).
Proof.
  split.
  - unfold calculateTotals; cbn [vatLowAmount vatHighAmount serviceTaxAmount
      serviceChargeAmount totalAmount].
    repeat split; apply round_hundredths.
  - intros Hb (R1 & R2 & R3 & R4).
    assert (N1 := taxAmount_nonneg b _ Hb R1).
    assert (N2 := taxAmount_nonneg b _ Hb R2).
    assert (N3 := taxAmount_nonneg b _ Hb R3).
    assert (N4 := taxAmount_nonneg b _ Hb R4).
    unfold calculateTotals; cbn [vatLowAmount vatHighAmount serviceTaxAmount
      serviceChargeAmount totalAmount].
    repeat split; try (apply round_nonneg; assumption).
    apply round_mono; [apply finalise_nonneg, Hb |].
    apply finalise_mono; [apply precision_pos | exact Hb |].
    assert (0 <= Decimal.plus
                   (Decimal.plus
                      (Decimal.plus (taxAmount b (vatLow t)) (taxAmount b (vatHigh t)))
                      (taxAmount b (serviceTax t)))
                   (taxAmount b (serviceCharge t)))
      by (repeat apply plus_nonneg; assumption).
    lra.
Qed.

Lemma calculateTotals_amounts_witness :
  0 <= vatLowAmount (calculateTotals 100 Sample.rates0)
  /\ 0 <= vatHighAmount (calculateTotals 100 Sample.rates0)
  /\ 0 <= serviceTaxAmount (calculateTotals 100 Sample.rates0)
  /\ 0 <= serviceChargeAmount (calculateTotals 100 Sample.rates0)
  /\ round (Decimal.finalise 100 Decimal.precision)
     <= totalAmount (calculateTotals 100 Sample.rates0).
Proof.
  apply (proj2 (calculateTotals_amounts 100 Sample.rates0)).
  - unfold Qle. simpl. lia.
  - unfold ratesNonneg, rateValue. simpl. repeat split; unfold Qle; simpl; lia.
Defined.

(** ** The details of a bill and the fake bill *)

Lemma rateValue_orZero r : rateValue (orZero r) == rateValue r.
Proof.
  destruct r as [v |]; simpl; [| reflexivity].
  destruct (Qeq_bool v 0) eqn:E; [| reflexivity].
  apply Qeq_bool_iff in E. simpl. symmetry. exact E.
Qed.

Lemma sameRates_orZero t : sameRates (mapRates orZero t) t.
Proof. repeat split; apply rateValue_orZero. Qed.

Lemma sameRates_nullToZero t : sameRates (mapRates nullToZero t) t.
Proof. repeat split; destruct t as [[?|] [?|] [?|] [?|]]; reflexivity. Qed.

Lemma total_nonneg b t :
  0 <= b -> ratesNonneg t -> 0 <= totalAmount (calculateTotals b t).
Proof.
  intros Hb (R1 & R2 & R3 & R4).
  unfold calculateTotals; cbn [totalAmount]. apply round_nonneg.
  repeat apply plus_nonneg; try apply taxAmount_nonneg; assumption.
Qed.

Lemma total_rounded b t :
  round (totalAmount (calculateTotals b t)) == totalAmount (calculateTotals b t).
Proof. unfold calculateTotals; cbn [totalAmount]. apply round_idem. Qed.

Lemma taxAmount_of_zero r : taxAmount 0 r == 0.
Proof.
  rewrite taxAmount_rateValue. unfold Decimal.div, Decimal.mul.
  rewrite Qmult_0_l, finalise_0.
  assert (E : 0 / 100 == 0) by reflexivity. rewrite E. apply finalise_0.
Qed.

Lemma round_0 : round 0 == 0.
Proof. reflexivity. Qed.

Lemma validDish_nonneg extras :
  forallb validDish extras = true ->
  Forall (fun d => 0 <= ExtraDish.price d /\ (0 <= ExtraDish.quantity d)%Z) extras.
Proof.
  intros H. apply Stdlib.Lists.List.Forall_forall. intros d Hd.
  rewrite forallb_forall in H. specialize (H d Hd). unfold validDish in H.
  apply andb_true_iff in H as [H Hq]. apply andb_true_iff in H as [_ Hp].
  apply Qle_bool_iff in Hp. apply Z.leb_le in Hq. split; [exact Hp | lia].
Qed.

(** The fake total with nothing added is the original amount. *)
Lemma fakeTotal_nothing o rates :
  atMostDigits Decimal.precision o -> round o == o -> fakeTotal o 0 rates == o.
Proof.
  intros F R. unfold fakeTotal.
  rewrite !taxAmount_of_zero, !round_0.
  rewrite !(plus_0_r_fits o F). exact R.
Qed.

Lemma fakeTotal_lower o eb rates :
  atMostDigits Decimal.precision o -> round o == o ->
  0 <= o -> 0 <= eb -> ratesNonneg rates -> o <= fakeTotal o eb rates.
Proof.
  intros F R Ho He (R1 & R2 & R3 & _).
  rewrite <- (fakeTotal_nothing o rates F R) at 1. unfold fakeTotal.
  rewrite !taxAmount_of_zero, !round_0.
  assert (T1 := round_nonneg _ (taxAmount_nonneg eb _ He R1)).
  assert (T2 := round_nonneg _ (taxAmount_nonneg eb _ He R2)).
  assert (T3 := round_nonneg _ (taxAmount_nonneg eb _ He R3)).
  assert (Z0 : 0 <= 0) by lra.
  apply round_mono; [repeat apply plus_nonneg; assumption |].
  repeat (apply plus_mono; [repeat apply plus_nonneg; assumption | | lra | assumption]).
  lra.
Qed.

(** X9. [GET /bill/:orderId/details] recomputes the amounts from the items
    and the stored rates of the bill (null counting as 0): the total it
    shows is the stored total of the bill whenever the bill is up to date,
    and for an order without bill it is the base amount rounded. *)
Theorem details_show_stored_total
    (db : DB) (b oid : Z) (order : Order.t) :
  oid <> 0%Z -> b <> 0%Z -> ownedOrder db oid b = Some order ->
  exists calculations taxRates,
    getBillDetails db (Some b) (Some oid)
    = Details (Order.status order) (Order.items order) (bills db !! oid)
        (round (baseAmountOf (Order.items order))) calculations taxRates
    /\ sameTotals calculations
         (calculateTotals (baseAmountOf (Order.items order))
            (ratesOfBill (bills db !! oid)))
    /\ (forall bill,
          bills db !! oid = Some bill -> billUpToDate db oid ->
          totalAmount calculations == Bill.totalAmount bill)
    /\ (bills db !! oid = None ->
        totalAmount calculations == round (baseAmountOf (Order.items order))).
Proof.
  intros Ho Hb O. unfold getBillDetails.
  rewrite (falsyId_nonzero _ Ho), (falsyId_nonzero _ Hb). simpl default. rewrite O.
  eexists. eexists. split; [reflexivity |].
  pose proof (calculateTotals_sameRates (baseAmountOf (Order.items order)) _ _
                (sameRates_orZero (ratesOfBill (bills db !! oid)))) as S.
  split; [exact S |]. destruct S as (_ & _ & _ & _ & T). split.
  - intros bill B U. rewrite T, B. simpl ratesOfBill. symmetry.
    apply ownedOrder_inv in O as [O _]. exact (U order bill O B).
  - intros B. rewrite T, B. simpl ratesOfBill.
    rewrite total_without_rates. unfold baseAmountOf.
    unfold round, Decimal.toNumber, Decimal.toDecimalPlaces.
    rewrite sumLines_finalised. reflexivity.
Qed.

Lemma details_show_stored_total_witness :
  exists calculations taxRates,
    getBillDetails Sample.dbOld (Some 7%Z) (Some 1%Z)
    = Details "Pending" [Sample.soup] (Some Sample.oldBill)
        (round (baseAmountOf [Sample.soup])) calculations taxRates
    /\ totalAmount calculations == 115.
Proof.
  assert (N1 : (1 <> 0)%Z) by lia. assert (N7 : (7 <> 0)%Z) by lia.
  destruct (details_show_stored_total Sample.dbOld 7 1 Sample.order1
              N1 N7 eq_refl) as (c & t & E & _ & U & _).
  exists c, t. split; [exact E |].
  apply (U Sample.oldBill eq_refl).
  intros o b Ho Hb. apply Some_inj in Ho, Hb. subst o b. vm_compute. reflexivity.
Defined.

(** X10. [POST /fake-bill] with valid dishes on an order of the caller
    answers with the order's items followed by the dishes, the original
    amount (the total that the stored rates give) and a fake amount in
    whole hundredths.  Without extra dish the fake amount is the original
    amount; with non-negative prices, quantities and rates it is never
    below it. *)
Theorem fakeBill_amounts
    (db : DB) (b oid : Z) (extraDishes : list ExtraDish.t) (order : Order.t) :
  b <> 0%Z -> ownedOrder db oid b = Some order ->
  forallb validDish extraDishes = true ->
  exists originalAmount fakeAmount,
    fakeBill db (Some b) oid extraDishes
    = FakeBill originalAmount fakeAmount
        (map (fun i => (OrderItem.name i, OrderItem.price i, OrderItem.quantity i))
           (Order.items order)
         ++ map (fun e => (ExtraDish.dishName e, ExtraDish.price e, ExtraDish.quantity e))
              extraDishes)
        "Fake bill generated successfully"
    /\ originalAmount
       == totalAmount (calculateTotals (baseAmountOf (Order.items order))
                         (ratesOfBill (bills db !! oid)))
    /\ isHundredths fakeAmount
    /\ (extraDishes = [] -> fakeAmount == originalAmount)
    /\ (Forall (fun i => 0 <= OrderItem.price i /\ (0 <= OrderItem.quantity i)%Z)
          (Order.items order) ->
        ratesNonneg (ratesOfBill (bills db !! oid)) ->
        originalAmount <= fakeAmount).
Proof.
  intros Hb O V. unfold fakeBill.
  rewrite V, (falsyId_nonzero _ Hb). simpl default. rewrite O. cbn [negb].
  eexists. eexists. split; [reflexivity |].
  set (rates := ratesOfBill (bills db !! oid)).
  set (base := baseAmountOf (Order.items order)).
  set (o := totalAmount (calculateTotals base (mapRates nullToZero rates))).
  assert (F : atMostDigits Decimal.precision o) by apply total_fits.
  assert (R : round o == o) by apply total_rounded.
  split; [| split; [| split]].
  - apply (calculateTotals_sameRates base _ _ (sameRates_nullToZero rates)).
  - unfold fakeTotal. apply round_hundredths.
  - intros ->. apply fakeTotal_nothing; assumption.
  - intros Hitems Hrates. apply fakeTotal_lower; try assumption.
    + apply total_nonneg; [apply sumLines_nonneg, Hitems |].
      destruct Hrates as (R1 & R2 & R3 & R4).
      destruct rates as [[?|] [?|] [?|] [?|]]; repeat split; assumption.
    + apply sumLines_nonneg, validDish_nonneg, V.
Qed.

Lemma fakeBill_amounts_witness :
  exists originalAmount fakeAmount,
    fakeBill Sample.dbOld (Some 7%Z) 1 [SampleShop.coffee]
    = FakeBill originalAmount fakeAmount [("Soup", 100, 1%Z); ("Coffee", 5 # 2, 2%Z)]
        "Fake bill generated successfully"
    /\ originalAmount <= fakeAmount.
Proof.
  assert (N7 : (7 <> 0)%Z) by lia.
  destruct (fakeBill_amounts Sample.dbOld 7 1 [SampleShop.coffee] Sample.order1
              N7 eq_refl eq_refl) as (o & f & E & _ & _ & _ & L).
  exists o, f. split; [exact E |]. apply L.
  - repeat constructor; simpl; try lia. unfold Qle. simpl. lia.
  - unfold ratesNonneg. repeat split; vm_compute; discriminate.
Defined.

(** ** The status routes, further *)

Lemma Forall2_same {A} (R : A -> A -> Prop) (l : list A) :
  (forall x, R x x) -> Forall2 R l l.
Proof. intros H. induction l; constructor; auto. Qed.

Lemma hasProduct_true pid i :
  hasProduct pid i = true <-> OrderItem.productId i = Some pid.
Proof.
  unfold hasProduct. destruct (OrderItem.productId i) as [p |].
  - rewrite Z.eqb_eq. split; congruence.
  - split; discriminate.
Qed.

Lemma updateItemStatus_spec pid st items :
  Forall2
    (fun i i' =>
       sameSnapshot i i'
       /\ (OrderItem.productId i <> Some pid -> i' = i)
       /\ (OrderItem.productId i = Some pid ->
           OrderItem.status i' = writeStatus st (OrderItem.status i)))
    items (updateItemStatus pid st items).
Proof.
  unfold updateItemStatus. induction items as [| i items IH]; simpl; constructor;
    [| exact IH].
  destruct (hasProduct pid i) eqn:E.
  - apply hasProduct_true in E. split; [repeat split |].
    split; [congruence | reflexivity].
  - split; [repeat split |]. split; [reflexivity |].
    intros H. apply hasProduct_true in H. congruence.
Qed.

(** X11. Patching the status of an item changes nothing else: in every
    order the items keep their number, their order, and each its product,
    name, price and quantity; an item of another product, and every item
    when the request is refused, is left exactly as it was; the order keeps
    its identifier, its business and its total. *)
Theorem patchItemStatus_keeps_snapshots
    (db : DB) (bo oidp pidp : option Z) (st : option string) (k : Z) (o' : Order.t) :
  orders (snd (patchItemStatus db bo oidp pidp st)) !! k = Some o' ->
  exists o,
    orders db !! k = Some o
    /\ Order.id o' = Order.id o
    /\ Order.businessId o' = Order.businessId o
    /\ Order.totalAmount o' = Order.totalAmount o
    /\ Forall2
         (fun i i' =>
            sameSnapshot i i'
            /\ (OrderItem.productId i <> pidp \/ oidp <> Some k -> i' = i))
         (Order.items o) (Order.items o').
Proof.
  assert (Same : forall o, Forall2
            (fun i i' => sameSnapshot i i'
               /\ (OrderItem.productId i <> pidp \/ oidp <> Some k -> i' = i))
            (Order.items o) (Order.items o)).
  { intros o. apply Forall2_same. intros i. repeat split. }
  unfold patchItemStatus.
  destruct (falsyId bo); [intros H; exists o'; repeat split; [exact H | apply Same] |].
  destruct oidp as [oid |]; [| intros H; exists o'; repeat split; [exact H | apply Same]].
  destruct (ownedOrder db oid (default 0%Z bo)) as [order |] eqn:O;
    [| intros H; exists o'; repeat split; [exact H | apply Same]].
  destruct pidp as [pid |]; [| intros H; exists o'; repeat split; [exact H | apply Same]].
  destruct (existsb (hasProduct pid) (Order.items order)); cbn [negb];
    [| intros H; exists o'; repeat split; [exact H | apply Same]].
  cbn [snd setOrders orders]. destruct (Z.eq_dec oid k) as [-> | Hne].
  - rewrite lookup_insert_eq. intros [= <-]. exists order.
    apply ownedOrder_inv in O as [O _].
    split; [exact O |]. split; [reflexivity |]. split; [reflexivity |].
    split; [reflexivity |]. cbn [Order.items Order.setStatus Order.setItems].
    eapply Forall2_impl; [apply updateItemStatus_spec |].
    intros i i' (S & K & _). split; [exact S |].
    intros [H | H]; [apply K, H | congruence].
  - rewrite lookup_insert_ne by exact Hne. intros H. exists o'.
    repeat split; [exact H | apply Same].
Qed.

Lemma patchItemStatus_keeps_snapshots_witness :
  exists o,
    orders Sample.db0 !! 1%Z = Some o
    /\ Order.totalAmount (Order.mk 1 7 "Completed" 100
                            [OrderItem.setStatus "Completed" Sample.soup])
       = Order.totalAmount o.
Proof.
  destruct (patchItemStatus_keeps_snapshots Sample.db0 (Some 7%Z) (Some 1%Z) (Some 11%Z)
              (Some "Completed") 1
              (Order.mk 1 7 "Completed" 100 [OrderItem.setStatus "Completed" Sample.soup])
              eq_refl) as (o & L & _ & _ & T & _).
  exists o. split; [exact L | exact T].
Defined.

(** X12. A successful complete-all leaves every item of the order
    "Completed", each with its product, name, price and quantity, and stores
    "Completed" for the order.  That is the status the items give when the
    order has an item; for an order without items the items give "Pending"
    while "Completed" is stored. *)
Theorem completeAll_completes (db : DB) (b oid : Z) (order : Order.t) :
  b <> 0%Z -> ownedOrder db oid b = Some order ->
  exists o',
    orders (snd (completeAll db (Some b) (Some oid))) !! oid = Some o'
    /\ Order.status o' = "Completed"
    /\ Forall (fun i => OrderItem.status i = "Completed") (Order.items o')
    /\ Forall2 sameSnapshot (Order.items order) (Order.items o')
    /\ (Order.items order <> [] -> orderStatus (Order.items o') = "Completed")
    /\ (Order.items order = [] -> orderStatus (Order.items o') = "Pending").
Proof.
  intros Hb O. unfold completeAll. rewrite (falsyId_nonzero _ Hb). simpl default.
  rewrite O. cbn [snd setOrders orders]. rewrite lookup_insert_eq.
  eexists. split; [reflexivity |]. cbn [Order.status Order.items Order.setStatus
    Order.setItems].
  assert (F : Forall (fun i => OrderItem.status i = "Completed")
                (map (OrderItem.setStatus "Completed") (Order.items order))).
  { apply Stdlib.Lists.List.Forall_forall. intros i Hi. apply in_map_iff in Hi as (j & <- & _).
    reflexivity. }
  split; [reflexivity |]. split; [exact F |]. split; [| split].
  - induction (Order.items order) as [| i items IH]; simpl; constructor.
    + repeat split.
    + apply IH. inversion F. assumption.
  - intros Hne. apply orderStatus_completed_iff. split; [| exact F].
    destruct (Order.items order); [congruence | discriminate].
  - intros ->. reflexivity.
Qed.

Lemma completeAll_completes_witness :
  exists o',
    orders (snd (completeAll SampleShop.withEmptyOrder (Some 7%Z) (Some 3%Z))) !! 3%Z
    = Some o'
    /\ Order.status o' = "Completed"
    /\ orderStatus (Order.items o') = "Pending".
Proof.
  assert (N7 : (7 <> 0)%Z) by lia.
  destruct (completeAll_completes SampleShop.withEmptyOrder 7 3 SampleShop.emptyOrder
              N7 eq_refl) as (o' & L & S & _ & _ & _ & P).
  exists o'. split; [exact L |]. split; [exact S | exact (P eq_refl)].
Defined.

(** ** The reaper, further *)

Lemma prefix_incl {A} (l reached rest : list A) x :
  l = reached ++ rest -> In x reached -> In x l.
Proof. intros -> H. apply in_or_app. left. exact H. Qed.

(** A run, whatever happens: the bills it reaches are the first ones
    selected, and the rows it leaves are the rows without those of the
    bills whose deletion went through. *)
Lemma cronJob_reached w now table :
  exists reached deleted rest,
    Reaper.findMany now table = reached ++ rest
    /\ (forall b, In b deleted -> In b reached)
    /\ effects (fst (Reaper.cronJob w now table)) = flat_map billEffects reached
    /\ snd (Reaper.cronJob w now table) = deleteRows deleted table.
Proof.
  destruct (first_failure w (Reaper.findMany now table))
    as [Hok | (before & bad & after & Hsel & Hok & Hbad)].
  - destruct (cronJob_all_ok w now table Hok) as (E & T & _).
    exists (Reaper.findMany now table), (Reaper.findMany now table), [].
    rewrite app_nil_r. repeat split; auto.
  - destruct (cronJob_stops w now table before bad after Hsel Hok Hbad) as (E & T & _).
    exists (before ++ [bad]), before, after. rewrite <- app_assoc.
    split; [exact Hsel |]. split; [| split; assumption].
    intros b Hb. apply in_or_app. left. exact Hb.
Qed.

Lemma In_effects e events : In e (effects events) <-> In e events /\ isEffect e = true.
Proof. unfold effects. apply filter_In. Qed.

Lemma In_billEffects e b :
  In e (billEffects b) ->
  e = Reaper.DeleteRow (Bill.id b)
  \/ exists p, e = Reaper.PostDestroy p /\ Bill.billStorePublicId b = Some p /\ p <> "".
Proof.
  unfold billEffects. destruct (Bill.billStorePublicId b) as [p |].
  - destruct (String.eqb_spec p "") as [-> | Hne].
    + intros [<- | []]. left. reflexivity.
    + intros [<- | [<- | []]]; [right; exists p; auto | left; reflexivity].
  - intros [<- | []]. left. reflexivity.
Qed.

Lemma NoDup_ids_inj (table : list Bill.t) x y :
  List.NoDup (map Bill.id table) -> In x table -> In y table -> Bill.id x = Bill.id y -> x = y.
Proof.
  induction table as [| b table IH]; simpl; intros N Hx Hy E; [contradiction |].
  inversion N as [| ? ? Hnotin N']; subst.
  destruct Hx as [<- | Hx], Hy as [<- | Hy].
  - reflexivity.
  - exfalso. apply Hnotin. rewrite E. apply in_map, Hy.
  - exfalso. apply Hnotin. rewrite <- E. apply in_map, Hx.
  - apply IH; assumption.
Qed.

(** X13. Whatever the image store and the datastore do, a run only touches
    expired bills: every row deletion it asks for and every image request
    it makes is for a bill of the table whose [expiresAt] is at or before
    now, it adds no row, and, identifiers being unique, it leaves every
    row that has not run out. *)
Theorem reaper_touches_only_expired (w : Reaper.World) (now : Z) (table : list Bill.t) :
  (forall id,
     In (Reaper.DeleteRow id) (fst (Reaper.cronJob w now table)) ->
     exists b, In b table /\ Reaper.isExpired now b = true /\ Bill.id b = id)
  /\ (forall p,
        In (Reaper.PostDestroy p) (fst (Reaper.cronJob w now table)) ->
        exists b, In b table /\ Reaper.isExpired now b = true
                  /\ Bill.billStorePublicId b = Some p)
  /\ (forall x, In x (snd (Reaper.cronJob w now table)) -> In x table)
  /\ (List.NoDup (map Bill.id table) ->
      forall x, In x table -> Reaper.isExpired now x = false ->
                In x (snd (Reaper.cronJob w now table))).
Proof.
  destruct (cronJob_reached w now table) as (reached & deleted & rest & Hsel & Hdel & E & T).
  assert (Sel : forall b, In b reached -> In b table /\ Reaper.isExpired now b = true).
  { intros b Hb. apply (prefix_incl _ _ _ _ Hsel) in Hb.
    unfold Reaper.findMany in Hb. apply filter_In in Hb. exact Hb. }
  split; [| split; [| split]].
  - intros id H.
    assert (G : In (Reaper.DeleteRow id) (effects (fst (Reaper.cronJob w now table))))
      by (apply In_effects; split; [exact H | reflexivity]).
    rewrite E in G. apply in_flat_map in G as (b & Hb & G).
    destruct (In_billEffects _ _ G) as [[= ->] | (p & [=] & _)].
    exists b. destruct (Sel b Hb). auto.
  - intros p H.
    assert (G : In (Reaper.PostDestroy p) (effects (fst (Reaper.cronJob w now table))))
      by (apply In_effects; split; [exact H | reflexivity]).
    rewrite E in G. apply in_flat_map in G as (b & Hb & G).
    destruct (In_billEffects _ _ G) as [[=] | (p' & [= ->] & Hp & _)].
    exists b. destruct (Sel b Hb). auto.
  - intros x. rewrite T, In_deleteRows. intros [H _]. exact H.
  - intros N x Hx Hlive. rewrite T, In_deleteRows. split; [exact Hx |].
    intros b Hb Eid. destruct (Sel b (Hdel b Hb)) as [Hbt Hexp].
    rewrite (NoDup_ids_inj table x b N Hx Hbt Eid) in Hlive. congruence.
Qed.

Lemma reaper_touches_only_expired_witness :
  In SampleReaper.bill4
    (snd (Reaper.cronJob SampleReaper.row1Stuck 100 SampleReaper.table)).
Proof.
  apply (proj2 (proj2 (proj2 (reaper_touches_only_expired SampleReaper.row1Stuck 100
                                SampleReaper.table)))).
  - repeat constructor; simpl; intuition lia.
  - simpl. tauto.
  - reflexivity.
Defined.

Lemma filter_nil {A} (f : A -> bool) (l : list A) :
  (forall x, In x l -> f x = false) -> List.filter f l = [].
Proof.
  induction l as [| a l IH]; simpl; intros H; [reflexivity |].
  rewrite (H a (or_introl eq_refl)). apply IH. intros x Hx. apply H. right. exact Hx.
Qed.

(** X14. After a run in which the datastore carried out the deletions no
    expired bill is left: a second run at the same time selects nothing,
    makes no request, deletes nothing and logs no error, whatever the image
    store and the datastore would do. *)
Theorem reaper_second_run_is_silent
    (w w' : Reaper.World) (now : Z) (table : list Bill.t) :
  (forall b, In b (Reaper.findMany now table) -> Reaper.deleteOk w (Bill.id b) = true) ->
  Reaper.findMany now (snd (Reaper.cronJob w now table)) = []
  /\ Reaper.cronJob w' now (snd (Reaper.cronJob w now table))
     = ([Reaper.LogChecking], snd (Reaper.cronJob w now table)).
Proof.
  intros Hok. apply Stdlib.Lists.List.Forall_forall in Hok.
  destruct (cronJob_all_ok w now table Hok) as (_ & T & _).
  assert (Empty : Reaper.findMany now (snd (Reaper.cronJob w now table)) = []).
  { unfold Reaper.findMany at 1. apply filter_nil. intros x Hx.
    rewrite T in Hx. apply In_deleteRows in Hx as [Hx Hid].
    destruct (Reaper.isExpired now x) eqn:X; [| reflexivity].
    exfalso. apply (Hid x); [| reflexivity].
    unfold Reaper.findMany. apply filter_In. split; assumption. }
  split; [exact Empty |].
  unfold Reaper.cronJob at 1. rewrite Empty. reflexivity.
Qed.

Lemma reaper_second_run_is_silent_witness :
  Reaper.findMany 100
    (snd (Reaper.cronJob SampleReaper.imagesDown 100 SampleReaper.table)) = []
  /\ Reaper.cronJob SampleReaper.row1Stuck 100
       (snd (Reaper.cronJob SampleReaper.imagesDown 100 SampleReaper.table))
     = ([Reaper.LogChecking],
        snd (Reaper.cronJob SampleReaper.imagesDown 100 SampleReaper.table)).
Proof.
  apply (reaper_second_run_is_silent SampleReaper.imagesDown SampleReaper.row1Stuck 100
           SampleReaper.table).
  intros b _. reflexivity.
Defined.

(** ** The stock update, further *)

Lemma keptWhere_refl keep inv : keptWhere keep inv inv.
Proof. apply Forall2_same. intros r. repeat split. Qed.

Lemma keptWhere_trans (keep : InventoryItem.t -> Prop) a b c :
  (forall r r', InventoryItem.name r' = InventoryItem.name r ->
                InventoryItem.businessId r' = InventoryItem.businessId r ->
                keep r -> keep r') ->
  keptWhere keep a b -> keptWhere keep b c -> keptWhere keep a c.
Proof.
  unfold keptWhere. intros Stable H. revert c.
  induction H as [| r r' a b (Hn & Hz & Hk) H IH]; intros c Hbc;
    inversion Hbc as [| ? r'' ? c' (Hn' & Hz' & Hk') Hbc']; subst; constructor.
  - split; [congruence |]. split; [congruence |].
    intros K. rewrite (Hk' (Stable r r' Hn Hz K)). apply Hk, K.
  - apply IH, Hbc'.
Qed.

Lemma keptWhere_weaken (keep keep' : InventoryItem.t -> Prop) a b :
  (forall r, keep' r -> keep r) -> keptWhere keep a b -> keptWhere keep' a b.
Proof.
  unfold keptWhere. intros W H.
  induction H as [| r r' a b (Hn & Hz & Hk) H IH]; constructor; [| exact IH].
  split; [exact Hn |]. split; [exact Hz |]. intros K. apply Hk, W, K.
Qed.

(** One ingredient leaves the records of another business and the records
    of another name; an ingredient without numeric quantity leaves all. *)
Lemma deductIngredient_kept businessId item inv ing :
  keptWhere
    (fun r => InventoryItem.businessId r <> businessId
              \/ (isNumeric ing = true -> Ingredient.name ing <> InventoryItem.name r))
    inv (deductIngredient businessId item inv ing).
Proof.
  unfold deductIngredient.
  destruct (JsNumber.isNaN (quantityToDeduct ing item)) eqn:N; [apply keptWhere_refl |].
  assert (Num : isNumeric ing = true).
  { destruct (isNumeric ing) eqn:E; [reflexivity |].
    rewrite (quantityToDeduct_NaN ing item E) in N. discriminate N. }
  unfold keptWhere, decrementMany.
  induction inv as [| r inv IH]; simpl; constructor; [| exact IH].
  destruct (String.eqb_spec (InventoryItem.name r) (Ingredient.name ing)) as [En | Hn];
    [| repeat split].
  destruct (Z.eqb_spec (InventoryItem.businessId r) businessId) as [Eb | Hb];
    [| repeat split].
  simpl. split; [reflexivity |]. split; [reflexivity |].
  intros [K | K]; [contradiction | exfalso; apply (K Num); congruence].
Qed.

Lemma deductIngredients_kept businessId item entries inv :
  keptWhere
    (fun r => InventoryItem.businessId r <> businessId
              \/ forall ing, In ing (presentEntries entries) -> isNumeric ing = true ->
                             Ingredient.name ing <> InventoryItem.name r)
    inv (fst (deductIngredients businessId item entries inv)).
Proof.
  revert inv. induction entries as [| [ing |] entries IH]; intros inv;
    cbn [deductIngredients presentEntries fst]; [apply keptWhere_refl | | apply keptWhere_refl].
  eapply keptWhere_trans.
  - intros r r' Hn Hz [K | K]; [left; congruence | right].
    intros i Hi Hnum. rewrite Hn. apply K; assumption.
  - eapply keptWhere_weaken; [| apply deductIngredient_kept].
    intros r [K | K]; [left; exact K | right].
    intros Hnum. apply K; [left; reflexivity | exact Hnum].
  - eapply keptWhere_weaken; [| apply IH].
    intros r [K | K]; [left; exact K | right].
    intros i Hi. apply K. right. exact Hi.
Qed.

Lemma notConcerned_stable products businessId cart r r' :
  InventoryItem.name r' = InventoryItem.name r ->
  InventoryItem.businessId r' = InventoryItem.businessId r ->
  notConcerned products businessId cart r -> notConcerned products businessId cart r'.
Proof.
  intros Hn Hz [K | K]; [left; congruence | right].
  intros i Hi Hnum. rewrite Hn. apply K; assumption.
Qed.

(** X15. The stock update, whether it completes or stops on a line without
    product, keeps the inventory list in shape, each record with its name
    and business, and leaves exactly as it was every record of another
    business and every record whose name is not the name of an ingredient
    (with a numeric quantity) of a dish of the cart. *)
Theorem stock_update_keeps_the_rest
    (products : gmap Z Metadata) (businessId : Z)
    (cart_items : list CartItem.t) (inventory : list InventoryItem.t) :
  keptWhere (notConcerned products businessId cart_items) inventory
    (fst (updateInventoryStock products businessId cart_items inventory)).
Proof.
  revert inventory. induction cart_items as [| item cart_items IH]; intros inventory.
  - apply keptWhere_refl.
  - cbn [updateInventoryStock].
    destruct (CartItem.productId item) as [productId |] eqn:E;
      [| apply keptWhere_refl].
    destruct (ingredientsOf (products !! productId)) as [entries |] eqn:R;
      [| apply keptWhere_refl].
    assert (Here : forall i, In i (presentEntries entries) ->
                             In i (cartIngredients products (item :: cart_items))).
    { intros i Hi. unfold cartIngredients. cbn [flat_map]. unfold recipeOf at 1.
      rewrite E, R. apply in_or_app. left. exact Hi. }
    assert (Later : forall i, In i (cartIngredients products cart_items) ->
                              In i (cartIngredients products (item :: cart_items))).
    { intros i Hi. unfold cartIngredients. cbn [flat_map]. apply in_or_app. right.
      exact Hi. }
    pose proof (deductIngredients_kept businessId item entries inventory) as First.
    destruct (deductIngredients businessId item entries inventory) as [inv' [e |]];
      cbn [fst] in *.
    + eapply keptWhere_weaken; [| exact First].
      intros r [K | K]; [left; exact K | right].
      intros i Hi. apply K, Here, Hi.
    + eapply keptWhere_trans; [apply notConcerned_stable | |].
      * eapply keptWhere_weaken; [| exact First].
        intros r [K | K]; [left; exact K | right].
        intros i Hi. apply K, Here, Hi.
      * eapply keptWhere_weaken; [| apply IH].
        intros r [K | K]; [left; exact K | right].
        intros i Hi. apply K, Later, Hi.
Qed.



(** ** Order identifiers *)

Module OrderIdFacts.
Import OrderId.
Local Open Scope nat_scope.

Lemma digitValue_char (r : N) :
  (r < 10)%N -> digitValue (pretty_N_char r) = Some (Z.of_N r).
Proof.
  intros H.
  assert (r = 0 \/ r = 1 \/ r = 2 \/ r = 3 \/ r = 4 \/ r = 5 \/ r = 6 \/ r = 7
          \/ r = 8 \/ r = 9)%N as C by lia.
  repeat (destruct C as [-> | C]; [reflexivity |]). subst. reflexivity.
Qed.

Lemma div_mod_10 (x : N) :
  (Z.of_N (x / 10)%N * 10 + Z.of_N (x mod 10)%N)%Z = Z.of_N x.
Proof. rewrite (N.div_mod x 10) at 3 by lia. lia. Qed.

(** Reading the digits that the printer writes for [x] in front of [s]. *)
Lemma parseDigits_go (x : N) :
  forall s seen, (0 < x)%N ->
    parseDigits (pretty_N_go x s) 0 seen = parseDigits s (Z.of_N x) true.
Proof.
  induction (N.lt_wf_0 x) as [x _ IH]. intros s seen Hx.
  rewrite pretty_N_go_step by exact Hx.
  destruct (N.eq_dec (x / 10) 0)%N as [E | N0].
  - rewrite E, pretty_N_go_0. cbn [parseDigits].
    rewrite digitValue_char by (apply N.mod_lt; lia).
    f_equal. rewrite <- (div_mod_10 x), E. reflexivity.
  - assert (L1 : (x / 10 < x)%N) by (apply N.div_lt; lia).
    assert (L2 : (0 < x / 10)%N) by (apply N.neq_0_lt_0; exact N0).
    rewrite (IH _ L1 _ _ L2). cbn [parseDigits].
    rewrite digitValue_char by (apply N.mod_lt; lia).
    f_equal. apply div_mod_10.
Qed.

Lemma allDigits_go (x : N) :
  forall s, allDigits s = true -> allDigits (pretty_N_go x s) = true.
Proof.
  induction (N.lt_wf_0 x) as [x _ IH]. intros s Hs.
  destruct (N.eq_dec x 0%N) as [-> | N0]; [rewrite pretty_N_go_0; exact Hs |].
  rewrite pretty_N_go_step by lia. apply IH; [apply N.div_lt; lia |].
  cbn [allDigits]. rewrite digitValue_char by (apply N.mod_lt; lia). exact Hs.
Qed.

Lemma pretty_nonneg_digits (id : Z) :
  (0 <= id)%Z -> allDigits (pretty id) = true /\ pretty id <> "".
Proof.
  intros H. destruct id as [| p | p]; [split; [reflexivity | discriminate] | | lia].
  unfold pretty, pretty_Z, pretty, pretty_positive, pretty, pretty_N.
  destruct (decide (N.pos p = 0%N)) as [E | _]; [discriminate E |].
  split; [apply allDigits_go; reflexivity |].
  rewrite pretty_N_go_step by lia. intros E.
  pose proof (f_equal String.length E) as L.
  assert (G : forall x s, (String.length s <= String.length (pretty_N_go x s))%nat).
  { clear. intros x. induction (N.lt_wf_0 x) as [x _ IH]. intros s.
    destruct (N.eq_dec x 0%N) as [-> | N0]; [rewrite pretty_N_go_0; lia |].
    rewrite pretty_N_go_step by lia.
    etransitivity; [| apply IH, N.div_lt; lia]. simpl. lia. }
  specialize (G (N.pos p / 10)%N (String (pretty_N_char (N.pos p mod 10)) "")).
  rewrite L in G. simpl in G. lia.
Qed.

Lemma parseDigits_pretty (id : Z) seen :
  (0 < id)%Z -> parseDigits (pretty id) 0 seen = Some id.
Proof.
  intros H. destruct id as [| p | p]; try lia.
  unfold pretty, pretty_Z, pretty, pretty_positive, pretty, pretty_N.
  destruct (decide (N.pos p = 0%N)) as [E | _]; [discriminate E |].
  rewrite parseDigits_go by lia. reflexivity.
Qed.

Lemma parseDigits_zeros n s seen :
  parseDigits (zeros n +:+ s) 0 seen = parseDigits s 0 (seen || (0 <? n)%nat).
Proof.
  revert seen. induction n as [| n IH]; intros seen; simpl.
  - rewrite orb_false_r. reflexivity.
  - change (digitValue "0"%char) with (Some 0%Z). cbn. rewrite IH. simpl.
    rewrite orb_true_r. reflexivity.
Qed.

Lemma parseDigits_padded (id : Z) :
  (0 <= id)%Z -> parseDigits (padStart0 5 (pretty id)) 0 false = Some id.
Proof.
  intros H. unfold padStart0. rewrite parseDigits_zeros.
  destruct (Z.eq_dec id 0%Z) as [-> | N0]; [reflexivity |].
  apply parseDigits_pretty. lia.
Qed.

(** A string of digits that is not empty: nothing for [trimStart] to skip,
    no sign, no ["ORD"]. *)
Lemma digits_head s :
  allDigits s = true -> s <> "" ->
  exists c s' d, s = String c s' /\ digitValue c = Some d.
Proof.
  destruct s as [| c s']; [congruence |]. simpl.
  destruct (digitValue c) as [d |] eqn:E; [| discriminate].
  intros _ _. exists c, s', d. split; [reflexivity | exact E].
Qed.

Lemma digit_plain c d :
  digitValue c = Some d ->
  isWhiteSpace c = false /\ c <> "-"%char /\ c <> "+"%char /\ c <> "O"%char.
Proof.
  unfold digitValue, isWhiteSpace.
  destruct ((48 <=? Z.of_N (Ascii.N_of_ascii c))%Z
            && (Z.of_N (Ascii.N_of_ascii c) <=? 57)%Z) eqn:R; [| discriminate].
  intros _. apply andb_true_iff in R. destruct R as [A B].
  apply Z.leb_le in A, B.
  repeat split.
  - apply orb_false_iff. split; [apply andb_false_iff; right | ]; lia.
  - intros ->. simpl in A. lia.
  - intros ->. simpl in A. lia.
  - intros ->. simpl in B. lia.
Qed.

Lemma parseInt10_digits s :
  allDigits s = true -> s <> "" -> parseInt10 s = parseDigits s 0 false.
Proof.
  intros A N. destruct (digits_head s A N) as (c & s' & d & -> & D).
  destruct (digit_plain c d D) as (W & M & P & _).
  unfold parseInt10. cbn [trimStart]. rewrite W.
  destruct c as [[] [] [] [] [] [] [] []]; try reflexivity; congruence.
Qed.

Lemma allDigits_no_ORD s :
  allDigits s = true -> replaceFirst "ORD" "" s = s /\ String.prefix "ORD" s = false.
Proof.
  induction s as [| c s IH]; [intros _; split; reflexivity |].
  cbn [allDigits]. destruct (digitValue c) as [d |] eqn:D; [| discriminate].
  intros A. destruct (digit_plain c d D) as (_ & _ & _ & O).
  assert (P : String.prefix "ORD" (String c s) = false).
  { cbn [String.prefix]. destruct (Ascii.ascii_dec "O"%char c) as [E | _]; [congruence |].
    reflexivity. }
  split; [| exact P]. cbn [replaceFirst]. rewrite P.
  destruct (IH A) as [-> _]. reflexivity.
Qed.

Lemma strip_ORD s :
  replaceFirst "ORD" "" ("ORD" +:+ s) = s /\ String.prefix "ORD" ("ORD" +:+ s) = true.
Proof. destruct s; split; vm_compute; reflexivity. Qed.

Lemma allDigits_app s t :
  allDigits s = true -> allDigits t = true -> allDigits (s +:+ t) = true.
Proof.
  induction s as [| c s IH]; simpl; [auto |].
  destruct (digitValue c); [apply IH | discriminate].
Qed.

Lemma length_padStart0 n s : (n <= String.length (padStart0 n s))%nat.
Proof.
  unfold padStart0.
  assert (L : forall k t, String.length (zeros k +:+ t) = k + String.length t).
  { induction k as [| k IH]; intros t; simpl; [reflexivity | rewrite IH; reflexivity]. }
  rewrite L. lia.
Qed.

Lemma allDigits_zeros n : allDigits (zeros n) = true.
Proof. induction n; [reflexivity | exact IHn]. Qed.

Lemma allDigits_padded (id : Z) :
  (0 <= id)%Z ->
  allDigits (padStart0 5 (pretty id)) = true /\ padStart0 5 (pretty id) <> "".
Proof.
  intros H. destruct (pretty_nonneg_digits id H) as [A N]. split.
  - apply allDigits_app; [apply allDigits_zeros | exact A].
  - unfold padStart0. destruct (pretty id) as [| c s]; [congruence |].
    destruct (zeros (5 - String.length (String c s))); discriminate.
Qed.

Lemma parseInt10_pretty (id : Z) : (0 <= id)%Z -> parseInt10 (pretty id) = Some id.
Proof.
  intros H. destruct (pretty_nonneg_digits id H) as [A N].
  rewrite parseInt10_digits by assumption.
  destruct (Z.eq_dec id 0%Z) as [-> | N0]; [reflexivity |].
  apply parseDigits_pretty. lia.
Qed.

Lemma parse_format (id : Z) : (0 <= id)%Z -> parse (format id) = Some id.
Proof.
  intros H. destruct (allDigits_padded id H) as [A N].
  unfold parse, format. rewrite (proj1 (strip_ORD _)).
  rewrite parseInt10_digits by assumption. apply parseDigits_padded, H.
Qed.

Lemma parseShown_format (id : Z) : (0 <= id)%Z -> parseShown (format id) = Some id.
Proof.
  intros H. unfold parseShown. unfold format at 1. rewrite (proj2 (strip_ORD _)).
  apply (parse_format id H).
Qed.

End OrderIdFacts.

(** X17. An order identifier survives being printed and read back: for an
    identifier from 0 to [Number.MAX_SAFE_INTEGER], what the routes print,
    "ORD" and at least five digits, is read back as the identifier by
    [GET /:orderId] and by the other order routes, and so is its plain
    decimal notation. *)
Theorem orderId_round_trip (id : Z) :
  (0 <= id <= OrderId.maxSafeInteger)%Z ->
  OrderId.parseShown (OrderId.format id) = Some id
  /\ OrderId.parse (OrderId.format id) = Some id
  /\ OrderId.parseShown (pretty id) = Some id
  /\ OrderId.parse (pretty id) = Some id
  /\ String.prefix "ORD" (OrderId.format id) = true
  /\ (8 <= String.length (OrderId.format id))%nat.
Proof.
  intros [H _]. destruct (OrderIdFacts.pretty_nonneg_digits id H) as [A N].
  destruct (OrderIdFacts.allDigits_no_ORD _ A) as [NoOrd NoPrefix].
  split; [exact (OrderIdFacts.parseShown_format id H) |].
  split; [exact (OrderIdFacts.parse_format id H) |].
  split; [unfold OrderId.parseShown; rewrite NoPrefix;
          exact (OrderIdFacts.parseInt10_pretty id H) |].
  split; [unfold OrderId.parse; rewrite NoOrd;
          exact (OrderIdFacts.parseInt10_pretty id H) |].
  split; [exact (proj2 (OrderIdFacts.strip_ORD _)) |].
  pose proof (OrderIdFacts.length_padStart0 5 (pretty id)) as L.
  change (OrderId.format id)
    with (String "O" (String "R" (String "D" (OrderId.padStart0 5 (pretty id))))).
  cbn [String.length]. lia.
Qed.

Lemma orderId_round_trip_witness :
  OrderId.format 42 = "ORD00042"
  /\ OrderId.parseShown (OrderId.format 42) = Some 42%Z
  /\ OrderId.parse (OrderId.format 42) = Some 42%Z.
Proof.
  split; [reflexivity |].
  assert (P : (0 <= 42 <= OrderId.maxSafeInteger)%Z)
    by (unfold OrderId.maxSafeInteger; lia).
  pose proof (orderId_round_trip 42 P) as (A & B & _).
  split; [exact A | exact B].
Defined.

(** ** Placing and replacing an order *)

(** What [POST /] leaves behind, by the answer. *)
Lemma postOrder_cases (shop : Shop) (body : OrderBody) (customer : option Z) :
  let business := default 0%Z (businessId body) in
  let total := default 0 (total_amount body) in
  let rows := map orderItemOf (cart_items body) in
  let cart := map cartItemOf (cart_items body) in
  let r := postOrder shop customer body in
  ((replyCode (fst r) = 400%Z \/ replyCode (fst r) = 404%Z) /\ snd r = shop)
  \/ ((replyCode (fst r) = 201%Z \/ replyCode (fst r) = 500%Z)
      /\ falsyId (businessId body) = false
      /\ falsyId (table_number body) = false
      /\ falsyAmount (total_amount body) = false
      /\ falsyString (payment_method body) = false
      /\ falsyString (estimated_time body) = false
      /\ cart_items body <> []
      /\ tableRefusal (tables shop) (tableId body) = None
      /\ store (snd r)
         = setOrders (<[nextOrderId shop :=
                          Order.mk (nextOrderId shop) business "Pending" total rows]>
                        (orders (store shop))) (store shop)
      /\ nextOrderId (snd r) = (nextOrderId shop + 1)%Z
      /\ tables (snd r) = linkTable (tableId body) (nextOrderId shop) (tables shop)
      /\ products (snd r) = products shop
      /\ customers (snd r)
         = fst (creditCustomer customer total
                  (usePoints customer (pointsUsed body) (customers shop)))
      /\ (replyCode (fst r) = 201%Z ->
          fst r = Placed (OrderId.format (nextOrderId shop)) "Pending" rows
          /\ snd (creditCustomer customer total
                    (usePoints customer (pointsUsed body) (customers shop))) = None
          /\ updateInventoryStock (products shop) business cart (inventory shop)
             = (inventory (snd r), None))
      /\ (snd (creditCustomer customer total
                 (usePoints customer (pointsUsed body) (customers shop))) = None ->
          inventory (snd r)
          = fst (updateInventoryStock (products shop) business cart (inventory shop))
          /\ (replyCode (fst r) = 201%Z
              <-> snd (updateInventoryStock (products shop) business cart (inventory shop))
                  = None))).
Proof.
  intros business total rows cart r. subst r.
  unfold postOrder. fold business total rows cart.
  destruct (falsyId (businessId body)) eqn:B; [left; split; [left |]; reflexivity |].
  destruct (falsyId (table_number body) && falsyId (tableId body)) eqn:T;
    [left; split; [left |]; reflexivity |].
  destruct (length (cart_items body) =? 0)%nat eqn:C;
    [left; split; [left |]; reflexivity |].
  assert (Cne : cart_items body <> []).
  { intros E. rewrite E in C. discriminate C. }
  destruct (tableRefusal (tables shop) (tableId body)) as [answer |] eqn:R.
  { left. split; [| reflexivity]. cbn [fst replyCode]. unfold tableRefusal in R.
    destruct (falsyId (tableId body)); [discriminate |].
    destruct (tables shop !! default 0%Z (tableId body)) as [t |].
    - destruct (Table.isBooked t); [| discriminate].
      apply Some_inj in R. subst answer. left. reflexivity.
    - apply Some_inj in R. subst answer. right. reflexivity. }
  destruct (falsyId (table_number body)) eqn:N; [left; split; [left |]; reflexivity |].
  destruct (falsyAmount (total_amount body)) eqn:A; [left; split; [left |]; reflexivity |].
  cbn [orb].
  destruct (falsyString (payment_method body)) eqn:P;
    [left; split; [left |]; reflexivity |].
  destruct (falsyString (estimated_time body)) eqn:E;
    [left; split; [left |]; reflexivity |].
  cbn [orb].
  right.
  destruct (creditCustomer customer total
              (usePoints customer (pointsUsed body) (customers shop)))
    as [customers2 [e |]] eqn:Credit.
  - do 13 (split; [first [reflexivity | exact Cne | right; reflexivity] |]).
    split; [intros H; discriminate H | intros H; discriminate H].
  - destruct (updateInventoryStock (products shop) business cart (inventory shop))
      as [inventory1 [e |]] eqn:Stock.
    + do 13 (split; [first [reflexivity | exact Cne | right; reflexivity] |]).
      split; [intros H; discriminate H |]. intros _. split; [reflexivity |].
      split; intros H; discriminate H.
    + do 13 (split; [first [reflexivity | exact Cne | left; reflexivity] |]).
      split; [intros _; split; [| split]; reflexivity |].
      intros _. split; [reflexivity |]. split; reflexivity.
Qed.

(** What [PUT /:orderId] leaves behind, by the answer. *)
Lemma putOrder_cases (shop : Shop) (body : OrderBody) (orderId : Z) :
  let business := default 0%Z (businessId body) in
  let total := default 0 (total_amount body) in
  let rows := map orderItemOf (cart_items body) in
  let cart := map cartItemOf (cart_items body) in
  let r := putOrder shop (Some orderId) body in
  ((replyCode (fst r) = 400%Z \/ replyCode (fst r) = 403%Z) /\ snd r = shop)
  \/ (exists existingOrder,
        (replyCode (fst r) = 200%Z \/ replyCode (fst r) = 500%Z)
        /\ falsyId (businessId body) = false
        /\ falsyAmount (total_amount body) = false
        /\ ownedOrder (store shop) orderId business = Some existingOrder
        /\ store (snd r)
           = setOrders (<[orderId :=
                            Order.mk (Order.id existingOrder)
                              (Order.businessId existingOrder) (orderStatus rows) total rows]>
                          (orders (store shop))) (store shop)
        /\ nextOrderId (snd r) = nextOrderId shop
        /\ tables (snd r) = tables shop
        /\ products (snd r) = products shop
        /\ customers (snd r)
           = usePoints (customerId body) (pointsUsed body) (customers shop)
        /\ inventory (snd r)
           = fst (updateInventoryStock (products shop) business cart (inventory shop))
        /\ (replyCode (fst r) = 200%Z
            <-> snd (updateInventoryStock (products shop) business cart (inventory shop))
                = None)
        /\ (replyCode (fst r) = 200%Z ->
            fst r = Updated (OrderId.format (Order.id existingOrder)) total
                      (orderStatus rows) rows)).
Proof.
  intros business total rows cart r. subst r.
  unfold putOrder. fold business total rows cart.
  destruct (falsyId (businessId body)) eqn:B; [left; split; [left |]; reflexivity |].
  destruct (length (cart_items body) =? 0)%nat eqn:C;
    [left; split; [left |]; reflexivity |].
  destruct (falsyId (table_number body)) eqn:N; [left; split; [left |]; reflexivity |].
  destruct (falsyAmount (total_amount body)) eqn:A; [left; split; [left |]; reflexivity |].
  cbn [orb].
  destruct (falsyString (payment_method body) || falsyString (estimated_time body));
    [left; split; [left |]; reflexivity |].
  destruct (ownedOrder (store shop) orderId business) as [existingOrder |] eqn:O;
    [| left; split; [right |]; reflexivity].
  right. exists existingOrder.
  destruct (updateInventoryStock (products shop) business cart (inventory shop))
    as [inventory1 [e |]] eqn:Stock.
  - do 10 (split; [first [reflexivity | right; reflexivity] |]).
    split; [split; intros H; discriminate H | intros H; discriminate H].
  - do 10 (split; [first [reflexivity | left; reflexivity] |]).
    split; [split; reflexivity | reflexivity].
Qed.

Lemma orderStatus_arrivesCompleted (lines : list CartLine.t) :
  lines <> [] -> Forall arrivesCompleted lines ->
  orderStatus (map orderItemOf lines) = "Completed".
Proof.
  intros Hne Hall. unfold orderStatus.
  assert (A : allItemsCompleted (map orderItemOf lines) = true).
  { unfold allItemsCompleted. apply forallb_forall. intros i Hi.
    apply in_map_iff in Hi. destruct Hi as (line & <- & Hline).
    pose proof (proj1 (Stdlib.Lists.List.Forall_forall _ _) Hall line Hline) as C.
    unfold arrivesCompleted in C. unfold orderItemOf. cbn [OrderItem.status].
    rewrite C. reflexivity. }
  rewrite A. destruct lines as [| l lines]; [congruence | reflexivity].
Qed.

(** X18. [POST /] stores the order as "Pending" whatever its lines say.  When
    the answer is 201 or 500 the order is stored under the next identifier
    with the lines of the cart, the amount and the business of the body;
    the orders there were and the bills are as before, and the identifiers
    stay below the counter.  A cart whose lines all arrive "Completed"
    leaves an order whose stored status is not the one its items give, and
    which [GET /:orderId], reading the identifier that the 201 answer
    shows, reports as "Completed".  Any other answer changes nothing. *)
Theorem postOrder_stores_pending_order (shop : Shop) (customer : option Z) (body : OrderBody) :
  freshOrderIds shop -> (0 <= nextOrderId shop)%Z ->
  let r := postOrder shop customer body in
  let rows := map orderItemOf (cart_items body) in
  (replyCode (fst r) = 201%Z \/ replyCode (fst r) = 500%Z ->
   exists order,
     orders (store (snd r)) !! nextOrderId shop = Some order
     /\ Order.status order = "Pending"
     /\ Order.items order = rows
     /\ Some (Order.totalAmount order) = total_amount body
     /\ Some (Order.businessId order) = businessId body
     /\ (forall k o, orders (store shop) !! k = Some o ->
                     orders (store (snd r)) !! k = Some o)
     /\ (forall k, k <> nextOrderId shop ->
                   orders (store (snd r)) !! k = orders (store shop) !! k)
     /\ bills (store (snd r)) = bills (store shop)
     /\ freshOrderIds (snd r)
     /\ (Forall arrivesCompleted (cart_items body) ->
         Order.status order <> orderStatus (Order.items order))
     /\ (replyCode (fst r) = 201%Z ->
         fst r = Placed (OrderId.format (nextOrderId shop)) "Pending" rows
         /\ shownOrderId (fst r) = Some (nextOrderId shop)
         /\ getOrder (store (snd r)) (nextOrderId shop)
            = mkResponse 200 (OrderView (orderStatus rows) rows)))
  /\ (replyCode (fst r) <> 201%Z -> replyCode (fst r) <> 500%Z -> snd r = shop).
Proof.
  intros Fresh Pos r rows. subst r.
  destruct (postOrder_cases shop body customer)
    as [[Code Same] | (Code & B & _ & A & _ & _ & Cne & _ & St & Nx & _ & _ & _ & P & _)].
  - split; [intros [H | H]; destruct Code as [C | C]; rewrite C in H; discriminate H |].
    intros _ _. exact Same.
  - split; [| intros N1 N5; destruct Code; contradiction].
    intros _.
    destruct (businessId body) as [business |] eqn:EB; [| discriminate B].
    destruct (total_amount body) as [total |] eqn:ET; [| discriminate A].
    change (default 0%Z (Some business)) with business in St.
    change (default 0 (Some total)) with total in St.
    exists (Order.mk (nextOrderId shop) business "Pending" total rows).
    assert (L : orders (store (snd (postOrder shop customer body))) !! nextOrderId shop
                = Some (Order.mk (nextOrderId shop) business "Pending" total rows)).
    { rewrite St. cbn [orders setOrders]. apply lookup_insert_eq. }
    assert (O : forall k, k <> nextOrderId shop ->
                  orders (store (snd (postOrder shop customer body))) !! k
                  = orders (store shop) !! k).
    { intros k Hk. rewrite St. cbn [orders setOrders]. apply lookup_insert_ne. congruence. }
    split; [exact L |]. split; [reflexivity |]. split; [reflexivity |].
    split; [reflexivity |]. split; [reflexivity |].
    split.
    { intros k o Hk. rewrite O; [exact Hk |]. intros ->.
      rewrite (Fresh (nextOrderId shop)) in Hk by lia. discriminate Hk. }
    split; [exact O |].
    split; [rewrite St; reflexivity |].
    split.
    { intros k Hk. rewrite Nx in Hk. rewrite O by lia. apply Fresh. lia. }
    split.
    { intros Hall. cbn [Order.status Order.items]. unfold rows.
      rewrite (orderStatus_arrivesCompleted _ Cne Hall). discriminate. }
    intros C201. destruct (P C201) as (F & _ & _).
    split; [exact F |]. split.
    + rewrite F. cbn [shownOrderId].
      exact (OrderIdFacts.parse_format (nextOrderId shop) Pos).
    + unfold getOrder. rewrite L. reflexivity.
Qed.

Lemma postOrder_stores_pending_order_witness :
  exists order,
    orders (store (snd (postOrder SampleShop.shop0 (Some 3%Z) SampleShop.body0))) !! 2%Z
    = Some order
    /\ Order.status order = "Pending"
    /\ Order.status order <> orderStatus (Order.items order)
    /\ shownOrderId (fst (postOrder SampleShop.shop0 (Some 3%Z) SampleShop.body0))
       = Some 2%Z.
Proof.
  assert (Fresh : freshOrderIds SampleShop.shop0).
  { intros k Hk. cbn [SampleShop.shop0 store nextOrderId Sample.db0 orders] in *.
    apply lookup_singleton_None. lia. }
  assert (Pos : (0 <= nextOrderId SampleShop.shop0)%Z) by (simpl; lia).
  destruct (proj1 (postOrder_stores_pending_order SampleShop.shop0 (Some 3%Z)
                     SampleShop.body0 Fresh Pos) (or_introl eq_refl))
    as (order & L & S & _ & _ & _ & _ & _ & _ & _ & D & P).
  exists order. split; [exact L |]. split; [exact S |].
  split; [apply D; repeat constructor |].
  exact (proj1 (proj2 (P eq_refl))).
Defined.

Lemma tableRefusal_booked tables tid t :
  tid <> 0%Z -> tables !! tid = Some t -> Table.isBooked t = true ->
  tableRefusal tables (Some tid) = Some (mkResponse 400 (ErrorBody "Table already booked")).
Proof.
  intros Hn Ht Hb. unfold tableRefusal. rewrite (falsyId_nonzero tid Hn).
  change (default 0%Z (Some tid)) with tid. rewrite Ht, Hb. reflexivity.
Qed.

Lemma tableRefusal_none tables tid :
  tid <> 0%Z -> tableRefusal tables (Some tid) = None ->
  exists t, tables !! tid = Some t /\ Table.isBooked t = false.
Proof.
  intros Hn. unfold tableRefusal. rewrite (falsyId_nonzero tid Hn).
  change (default 0%Z (Some tid)) with tid.
  destruct (tables !! tid) as [t |]; [| discriminate].
  destruct (Table.isBooked t) eqn:B; [discriminate |].
  intros _. exists t. split; [reflexivity | exact B].
Qed.

Lemma postOrder_refused_by_table shop customer body answer :
  tableRefusal (tables shop) (tableId body) = Some answer ->
  (replyCode (fst (postOrder shop customer body)) = 400%Z
   \/ replyCode (fst (postOrder shop customer body)) = statusCode answer)
  /\ snd (postOrder shop customer body) = shop.
Proof.
  intros R. unfold postOrder.
  destruct (falsyId (businessId body)); [split; [left |]; reflexivity |].
  destruct (falsyId (table_number body) && falsyId (tableId body));
    [split; [left |]; reflexivity |].
  destruct (length (cart_items body) =? 0)%nat; [split; [left |]; reflexivity |].
  rewrite R. split; [right |]; reflexivity.
Qed.

(** X19. [POST /] books a free table and refuses a booked one.  With a
    [tableId] in the body, an order is stored (answer 201 or 500) only if
    the table exists and is free; the table is then booked and linked to
    the new order, the other tables staying as they are, and every later
    [POST /] for this table is answered 400 and changes nothing.  A table
    that is booked, or that does not exist, gets 400 or 404 and nothing is
    written. *)
Theorem postOrder_books_free_table
    (shop : Shop) (customer : option Z) (body : OrderBody) (tid : Z) :
  tableId body = Some tid -> tid <> 0%Z ->
  let r := postOrder shop customer body in
  (replyCode (fst r) = 201%Z \/ replyCode (fst r) = 500%Z ->
   (exists t, tables shop !! tid = Some t /\ Table.isBooked t = false)
   /\ tables (snd r) !! tid = Some (Table.mk true (Some (nextOrderId shop)))
   /\ (forall k, k <> tid -> tables (snd r) !! k = tables shop !! k)
   /\ (forall customer' body',
         tableId body' = Some tid ->
         replyCode (fst (postOrder (snd r) customer' body')) = 400%Z
         /\ snd (postOrder (snd r) customer' body') = snd r))
  /\ ((exists t, tables shop !! tid = Some t /\ Table.isBooked t = true) ->
      replyCode (fst r) = 400%Z /\ snd r = shop)
  /\ (tables shop !! tid = None ->
      (replyCode (fst r) = 400%Z \/ replyCode (fst r) = 404%Z) /\ snd r = shop).
Proof.
  intros Ht Hn r. subst r. split; [| split].
  - intros Code.
    destruct (postOrder_cases shop body customer)
      as [[Code' _] | (_ & _ & _ & _ & _ & _ & _ & R & _ & _ & Tb & _)].
    { exfalso. destruct Code as [C | C], Code' as [C' | C'];
        rewrite C in C'; discriminate C'. }
    rewrite Ht in R, Tb. unfold linkTable in Tb.
    rewrite (falsyId_nonzero tid Hn) in Tb.
    change (default 0%Z (Some tid)) with tid in Tb.
    assert (L : tables (snd (postOrder shop customer body)) !! tid
                = Some (Table.mk true (Some (nextOrderId shop)))).
    { rewrite Tb. apply lookup_insert_eq. }
    split; [exact (tableRefusal_none _ _ Hn R) |].
    split; [exact L |].
    split; [intros k Hk; rewrite Tb; apply lookup_insert_ne; congruence |].
    intros customer' body' Ht'.
    assert (R' : tableRefusal (tables (snd (postOrder shop customer body))) (tableId body')
                 = Some (mkResponse 400 (ErrorBody "Table already booked"))).
    { rewrite Ht'. exact (tableRefusal_booked _ tid _ Hn L eq_refl). }
    destruct (postOrder_refused_by_table _ customer' body' _ R') as [[C | C] Same];
      split; assumption.
  - intros (t & Lt & Bt).
    assert (R : tableRefusal (tables shop) (tableId body)
                = Some (mkResponse 400 (ErrorBody "Table already booked"))).
    { rewrite Ht. exact (tableRefusal_booked _ tid t Hn Lt Bt). }
    destruct (postOrder_refused_by_table shop customer body _ R) as [[C | C] Same];
      split; assumption.
  - intros Lt.
    assert (R : tableRefusal (tables shop) (tableId body)
                = Some (mkResponse 404 (ErrorBody "Table not found"))).
    { rewrite Ht. unfold tableRefusal. rewrite (falsyId_nonzero tid Hn).
      change (default 0%Z (Some tid)) with tid. rewrite Lt. reflexivity. }
    destruct (postOrder_refused_by_table shop customer body _ R) as [[C | C] Same];
      (split; [| exact Same]); [left | right]; exact C.
Qed.

Lemma postOrder_books_free_table_witness :
  tables (snd (postOrder SampleShop.shop0 (Some 3%Z) SampleShop.body0)) !! 5%Z
  = Some (Table.mk true (Some 2%Z))
  /\ replyCode (fst (postOrder (snd (postOrder SampleShop.shop0 (Some 3%Z) SampleShop.body0))
                       None SampleShop.body0)) = 400%Z.
Proof.
  assert (N5 : (5 <> 0)%Z) by lia.
  destruct (proj1 (postOrder_books_free_table SampleShop.shop0 (Some 3%Z) SampleShop.body0 5
                     eq_refl N5) (or_introl eq_refl))
    as (_ & L & _ & Again).
  split; [exact L |]. exact (proj1 (Again None SampleShop.body0 eq_refl)).
Defined.

Lemma usePoints_known cid c p pointsUsed (customers : gmap Z Customer.t) :
  cid <> 0%Z -> customers !! cid = Some c -> Customer.points c = Some p ->
  exists c1,
    usePoints (Some cid) pointsUsed customers !! cid = Some c1
    /\ Customer.points c1 = Some (p - pointsTaken pointsUsed p)%Z
    /\ Customer.totalOrders c1 = Customer.totalOrders c
    /\ Customer.totalMoneySpent c1 = Customer.totalMoneySpent c
    /\ forall k, k <> cid -> usePoints (Some cid) pointsUsed customers !! k = customers !! k.
Proof.
  intros Hn Hc Hp. unfold usePoints, pointsTaken.
  assert (Keep : exists c1, customers !! cid = Some c1
            /\ Customer.points c1 = Some (p - 0)%Z
            /\ Customer.totalOrders c1 = Customer.totalOrders c
            /\ Customer.totalMoneySpent c1 = Customer.totalMoneySpent c
            /\ forall k, k <> cid -> customers !! k = customers !! k).
  { exists c. rewrite Z.sub_0_r. repeat split; assumption. }
  destruct pointsUsed as [used |]; [| exact Keep].
  destruct (Z.eqb_spec cid 0) as [E | _]; [contradiction |]. cbn [negb andb].
  destruct (0 <? used)%Z; [| exact Keep]. cbn [andb].
  rewrite Hc, Hp. change (default 0%Z (Some p)) with p.
  destruct (used <=? p)%Z; [| exact Keep].
  eexists. split; [apply lookup_insert_eq |].
  cbn [Customer.points Customer.totalOrders Customer.totalMoneySpent incrementZ fmap
       option_fmap option_map].
  split; [f_equal; lia |]. split; [reflexivity |]. split; [reflexivity |].
  intros k Hk. apply lookup_insert_ne. congruence.
Qed.

Lemma pointsTaken_bounds pointsUsed p :
  (0 <= p -> 0 <= pointsTaken pointsUsed p <= p)%Z.
Proof.
  intros H. unfold pointsTaken. destruct pointsUsed as [used |]; [| lia].
  destruct (Z.ltb_spec 0 used); cbn [andb]; [| lia].
  destruct (Z.leb_spec used p); lia.
Qed.

Lemma earnedPoints_bounds (total : Q) :
  inject_Z (earnedPoints total) * 100 <= total
  /\ total < inject_Z (earnedPoints total + 1) * 100.
Proof.
  unfold earnedPoints.
  pose proof (Qfloor_le (total / 100)) as L.
  pose proof (Qlt_floor (total / 100)) as U.
  assert (E : total == total / 100 * 100) by (field).
  split.
  - rewrite E at 2. apply Qmult_le_compat_r; [exact L | discriminate].
  - rewrite E at 1. apply Qmult_lt_compat_r; [reflexivity | exact U].
Qed.

(** X20. The loyalty account of the customer who places an order.  When
    [POST /] stores the order of a customer whose points are [p], the
    account ends with [p], less the [pointsUsed] of the body if they are
    positive and at most [p], plus one point for each full 100 of the
    amount; one more order and the amount are added to the totals.  Points
    that the customer does not have are not taken, so an account that is
    not negative stays so for an amount that is not negative.  The other
    accounts are not touched, and a guest's order touches none. *)
Theorem postOrder_loyalty
    (shop : Shop) (body : OrderBody) (cid : Z) (c : Customer.t) (p : Z) (total : Q) :
  cid <> 0%Z -> customers shop !! cid = Some c -> Customer.points c = Some p ->
  total_amount body = Some total ->
  let r := postOrder shop (Some cid) body in
  (replyCode (fst r) = 201%Z \/ replyCode (fst r) = 500%Z) ->
  (exists c',
     customers (snd r) !! cid = Some c'
     /\ Customer.points c'
        = Some (p - pointsTaken (pointsUsed body) p + earnedPoints total)%Z
     /\ Customer.totalOrders c' = incrementZ 1 (Customer.totalOrders c)
     /\ Customer.totalMoneySpent c' = incrementQ total (Customer.totalMoneySpent c))
  /\ (forall k, k <> cid -> customers (snd r) !! k = customers shop !! k)
  /\ (inject_Z (earnedPoints total) * 100 <= total
      /\ total < inject_Z (earnedPoints total + 1) * 100)
  /\ ((0 <= p)%Z -> 0 <= total ->
      (0 <= p - pointsTaken (pointsUsed body) p + earnedPoints total)%Z)
  /\ customers (snd (postOrder shop None body)) = customers shop.
Proof.
  intros Hn Hc Hp Ht r Code. subst r.
  destruct (postOrder_cases shop body (Some cid))
    as [[Code' _] | (_ & _ & _ & _ & _ & _ & _ & _ & _ & _ & _ & _ & Cu & _)].
  { exfalso. destruct Code as [C | C], Code' as [C' | C'];
      rewrite C in C'; discriminate C'. }
  rewrite Ht in Cu. change (default 0 (Some total)) with total in Cu.
  destruct (usePoints_known cid c p (pointsUsed body) (customers shop) Hn Hc Hp)
    as (c1 & L1 & P1 & O1 & M1 & K1).
  unfold creditCustomer in Cu.
  destruct (Z.eqb_spec cid 0) as [E | _]; [contradiction |].
  rewrite L1 in Cu. cbn [fst] in Cu.
  split; [| split; [| split; [| split]]].
  - eexists. split; [rewrite Cu; apply lookup_insert_eq |].
    cbn [Customer.points Customer.totalOrders Customer.totalMoneySpent].
    rewrite P1, O1, M1. repeat split.
  - intros k Hk. rewrite Cu, lookup_insert_ne by congruence. apply K1, Hk.
  - apply earnedPoints_bounds.
  - intros Pp Pt. pose proof (pointsTaken_bounds (pointsUsed body) p Pp) as B.
    assert (0 <= earnedPoints total)%Z; [| lia].
    unfold earnedPoints. change 0%Z with (Qfloor 0). apply Qfloor_resp_le.
    apply Qle_shift_div_l; [reflexivity |]. rewrite Qmult_0_l. exact Pt.
  - destruct (postOrder_cases shop body None)
      as [[_ Same] | (_ & _ & _ & _ & _ & _ & _ & _ & _ & _ & _ & _ & Cu' & _)].
    + rewrite Same. reflexivity.
    + rewrite Cu'. reflexivity.
Qed.

Lemma postOrder_loyalty_witness :
  exists c',
    customers (snd (postOrder SampleShop.shop0 (Some 3%Z) SampleShop.body0)) !! 3%Z = Some c'
    /\ Customer.points c' = Some 5%Z
    /\ Customer.totalOrders c' = Some 5%Z.
Proof.
  assert (N3 : (3 <> 0)%Z) by lia.
  destruct (proj1 (postOrder_loyalty SampleShop.shop0 SampleShop.body0 3
                     (Customer.mk (Some 12%Z) (Some 4%Z) (Some 900)) 12 300
                     N3 eq_refl eq_refl eq_refl (or_introl eq_refl)))
    as (c' & L & P & O & _).
  exists c'. split; [exact L |]. split; [exact P | exact O].
Defined.



(** X22. The stock is taken again when the order is updated.  After a
    [POST /] answered 201, a [PUT] of the same body to the identifier that
    the answer shows is answered 200; the first request lowers every
    inventory record by the amounts that the uses of the cart take from it,
    and the two together by these amounts taken twice, one subtraction of
    numbers after the other.  The order ends with the status its lines
    give. *)
Theorem putOrder_deducts_stock_again (shop : Shop) (customer : option Z) (body : OrderBody) :
  (0 <= nextOrderId shop)%Z ->
  let business := default 0%Z (businessId body) in
  let cart := map cartItemOf (cart_items body) in
  let rows := map orderItemOf (cart_items body) in
  let r1 := postOrder shop customer body in
  let r2 := putOrder (snd r1) (shownOrderId (fst r1)) body in
  replyCode (fst r1) = 201%Z ->
  replyCode (fst r2) = 200%Z
  /\ loweredBy business (cartUses (products shop) cart)
       (inventory shop) (inventory (snd r1))
  /\ loweredBy business (cartUses (products shop) cart ++ cartUses (products shop) cart)
       (inventory shop) (inventory (snd r2))
  /\ exists order,
       orders (store (snd r2)) !! nextOrderId shop = Some order
       /\ Order.status order = orderStatus rows
       /\ Order.items order = rows.
Proof.
  intros Pos business cart rows r1 r2 C201. subst r2 r1.
  destruct (postOrder_cases shop body customer)
    as [[Code' _] | (_ & B & N & A & P & E & Cne & _ & St & _ & _ & Pr & _ & Ok & _)].
  { exfalso. destruct Code' as [C' | C']; rewrite C201 in C'; discriminate C'. }
  destruct (Ok C201) as (F & _ & Stock).
  fold business cart in Stock. fold business rows in St.
  rewrite F. cbn [shownOrderId].
  rewrite (OrderIdFacts.parse_format (nextOrderId shop) Pos).
  assert (Runs : forallb (lineRuns (products shop)) cart = true).
  { apply (updateInventoryStock_spec (products shop) business cart (inventory shop)).
    rewrite Stock. reflexivity. }
  pose proof (proj1 (updateInventoryStock_spec (products shop) business cart
                       (inventory shop))) as D1.
  rewrite Stock, (reachedUses_all _ _ Runs) in D1. cbn [fst] in D1.
  set (shop1 := snd (postOrder shop customer body)) in *.
  destruct (updateInventoryStock_spec (products shop) business cart (inventory shop1))
    as [D2 T2].
  rewrite (reachedUses_all _ _ Runs) in D2.
  assert (R2 : snd (updateInventoryStock (products shop) business cart (inventory shop1))
               = None) by (apply T2, Runs).
  assert (Own : ownedOrder (store shop1) (nextOrderId shop) business
                = Some (Order.mk (nextOrderId shop) business "Pending"
                          (default 0 (total_amount body)) rows)).
  { apply ownedOrder_found; [| reflexivity].
    rewrite St. cbn [orders setOrders]. apply lookup_insert_eq. }
  destruct (putOrder_cases shop1 body (nextOrderId shop))
    as [[Code Same]
       | (old & Code & _ & _ & O & St2 & _ & _ & _ & _ & Inv & Ok2 & _)].
  { exfalso. revert Code. unfold putOrder.
    rewrite B, N, A, P, E. cbn [orb].
    destruct (length (cart_items body) =? 0)%nat eqn:L.
    { destruct (cart_items body); [congruence | discriminate L]. }
    fold business. rewrite Own. fold cart. rewrite Pr.
    destruct (updateInventoryStock (products shop) business cart (inventory shop1))
      as [inv2 [e |]]; [discriminate R2 |].
    cbn. intros [C | C]; discriminate C. }
  fold business cart in Inv, Ok2, O. fold business rows in St2.
  rewrite Pr in Inv, Ok2.
  split; [apply Ok2; exact R2 |].
  split; [exact D1 |].
  split; [rewrite Inv; exact (loweredBy_app business _ _ _ _ _ D1 D2) |].
  rewrite Own in O. apply Some_inj in O. subst old.
  eexists. split; [rewrite St2; cbn [orders setOrders]; apply lookup_insert_eq |].
  split; reflexivity.
Qed.

Lemma putOrder_deducts_stock_again_witness :
  replyCode
    (fst (putOrder (snd (postOrder SampleShop.shop0 (Some 3%Z) SampleShop.body0))
            (shownOrderId (fst (postOrder SampleShop.shop0 (Some 3%Z) SampleShop.body0)))
            SampleShop.body0)) = 200%Z
  /\ inventory
       (snd (putOrder (snd (postOrder SampleShop.shop0 (Some 3%Z) SampleShop.body0))
               (shownOrderId (fst (postOrder SampleShop.shop0 (Some 3%Z) SampleShop.body0)))
               SampleShop.body0))
     = [InventoryItem.mk "flour" 7 (10 - 0.2 * 3 - 0.2 * 3)%float;
        InventoryItem.mk "flour" 8 10%float;
        InventoryItem.mk "salt" 7 5%float;
        InventoryItem.mk "water" 7 (1 - 2 * 3 - 2 * 3)%float]
  /\ loweredBy 7
       (cartUses SampleStock.products (map cartItemOf [SampleShop.soups])
        ++ cartUses SampleStock.products (map cartItemOf [SampleShop.soups]))
       SampleStock.inventory
       (inventory
          (snd (putOrder (snd (postOrder SampleShop.shop0 (Some 3%Z) SampleShop.body0))
                  (shownOrderId (fst (postOrder SampleShop.shop0 (Some 3%Z) SampleShop.body0)))
                  SampleShop.body0))).
Proof.
  assert (Pos : (0 <= nextOrderId SampleShop.shop0)%Z) by (simpl; lia).
  pose proof (putOrder_deducts_stock_again SampleShop.shop0 (Some 3%Z) SampleShop.body0
                Pos eq_refl) as (C & _ & D & _).
  split; [exact C |]. split; [vm_compute; reflexivity | exact D].
Defined.

(** ** The model on concrete values *)

Example mul_rounds_to_precision :
  Decimal.mul (20000000000000000009 # 1000) 50 == 10000000000000000005 # 10.
Proof. vm_compute. reflexivity. Qed.

Example exponent_third : Decimal.exponent (1 # 3) = (-1)%Z.
Proof. vm_compute. reflexivity. Qed.

Example exponent_ten : Decimal.exponent 10 = 1%Z.
Proof. vm_compute. reflexivity. Qed.

Example exponent_below_ten : Decimal.exponent (99 # 10) = 0%Z.
Proof. vm_compute. reflexivity. Qed.

Example div_third : Decimal.div 1 3 == 33333333333333333333 # 100000000000000000000.
Proof. vm_compute. reflexivity. Qed.

Example div_negative :
  Decimal.div 2 (-3) == - (66666666666666666667 # 100000000000000000000).
Proof. vm_compute. reflexivity. Qed.

Example round_half_up : round (3345 # 1000) == 335 # 100 /\ round (- (3345 # 1000)) == - (335 # 100).
Proof. vm_compute. split; reflexivity. Qed.

Example tax_of_33_at_10 :
  vatLowAmount (calculateTotals 33 (mkTaxRates (Some 10) None None None)) == 33 # 10.
Proof. vm_compute. reflexivity. Qed.

(** Beyond amounts of money with two-decimal percentages the 20 significant
    digits of every operation show: for a base amount of 1.24 and a rate of
    0.4032258064516129 % the sum of the exact tax and the base amount
    rounds to 1.24, and [calculateTotals] returns 1.25. *)
Example total_moved_by_precision :
  let t := mkTaxRates (Some (4032258064516129 # 10000000000000000)) None None None in
  Decimal.roundHalfUp (exactSum (124 # 100) t) 2 == 124 # 100
  /\ totalAmount (calculateTotals (124 # 100) t) == 125 # 100.
Proof. vm_compute. split; reflexivity. Qed.

(** The numbers of the stock update are doubles: three times 0.2 is
    0.6000000000000001, and a stock of 0.3 that gives three times 0.1 ends
    below zero. *)
Example number_product :
  quantityToDeduct (Ingredient.mk "flour" 0.2%float) (CartItem.mk (Some 11%Z) 3)
  = 0.6000000000000001%float.
Proof. reflexivity. Qed.

Example stock_residue :
  decrementMany "flour" 7
    (quantityToDeduct (Ingredient.mk "flour" 0.1%float) (CartItem.mk (Some 11%Z) 3))
    [InventoryItem.mk "flour" 7 0.3%float]
  = [InventoryItem.mk "flour" 7 (-5.551115123125783e-17)%float].
Proof. reflexivity. Qed.

(** A dish whose [ingredients] is not an array stops the update before
    anything is taken; a [null] ingredient stops it after the ingredients
    before it. *)
Example recipe_not_iterable :
  placeOrderStock SampleStock.products 7 [CartItem.mk (Some 12%Z) 1] SampleStock.inventory
  = (mkResponse 500 (MessageBody "Server error while creating order"),
     SampleStock.inventory).
Proof. reflexivity. Qed.

Example recipe_null_entry :
  placeOrderStock SampleStock.products 7 [CartItem.mk (Some 13%Z) 2] SampleStock.inventory
  = (mkResponse 500 (MessageBody "Server error while creating order"),
     [InventoryItem.mk "flour" 7 9%float;
      InventoryItem.mk "flour" 8 10%float;
      InventoryItem.mk "salt" 7 5%float;
      InventoryItem.mk "water" 7 1%float]).
Proof. reflexivity. Qed.
